(** * Fiverr scraper: a shallow embedding of [fiverr_scraper/scraper.py]

    The definitions follow the source file:

    - [PyStr]    the Python [str] methods the scraper calls
                 ([lower], [replace], [strip], [startswith], [split], [in]);
    - [PyFloat]  the part of binary64 arithmetic behind [float(s)],
                 [num * 1000] and [int(num)];
    - [Re]       the three regular expressions of the field cleaners;
    - [clean_price], [clean_reviews], [clean_rating];
    - [Soup]     the BeautifulSoup tree and the CSS selectors [parse_gigs] uses;
    - [parse_gigs], [get_page_html] (under tenacity's [retry]) and the
      pagination loop of [main], in a state-and-exception monad whose state
      is the trace of observable effects (log records, navigations, sleeps);
    - [Guarded]  [parse_gigs], the loop and [main] once more, with an HTML
                 parser that can reject its input and with the exception
                 handlers of [main].

    They are followed by the vocabulary of the properties and by example
    pages and browsers, and then by the properties themselves: the field
    cleaners, the card extractor and the page parser, the fetch with retries
    and the pagination loop.  [Output] holds what the saving functions
    compute themselves, the keyword in a file name and the columns of the
    CSV file; the further properties at the end speak of every input, every
    record and every browser.

    A Python [str] is modelled by [string]: one [ascii] per code point, so the
    model covers the code points below 256 (Latin-1).  On that range the
    regular expression class [\d] is exactly [0-9]. *)

From Stdlib Require Import ZArith Lia Bool List Ascii String.
From Stdlib Require Import DecimalString DecimalN DecimalFacts.
From stdpp Require Import base option list strings gmap.

Set Warnings "-register-all".

Local Open Scope string_scope.
Local Open Scope Z_scope.
Local Open Scope list_scope.

(** ** Python exceptions and results *)

(** The exception classes that occur in the modelled code.  [TimeoutException]
    is a subclass of [WebDriverException] in selenium; [OtherException] stands
    for every other subclass of [Exception]. *)
Inductive exn : Type :=
  | WebDriverException
  | TimeoutException
  | ValueError
  | OverflowError
  | RetryError
  | OtherException.

Inductive result (A : Type) : Type :=
  | Ok (a : A)
  | Raise (e : exn).
Arguments Ok {A} a.
Arguments Raise {A} e.

(** ** Python string methods *)

Module PyStr.

Definition code (c : ascii) : N := N_of_ascii c.

Definition in_range (lo hi : N) (c : ascii) : bool :=
  ((lo <=? code c) && (code c <=? hi))%N.

(** [c.isdigit()] as the class [\d] sees it: a decimal digit. *)
Definition is_digit (c : ascii) : bool := in_range 48 57 c.

(** [str.isspace] on one code point below 256. *)
Definition is_space (c : ascii) : bool :=
  in_range 9 13 c || in_range 28 32 c
  || (code c =? 133)%N || (code c =? 160)%N.

(** [str.lower] on one code point below 256: A-Z and the Latin-1 capitals
    (U+00C0..U+00DE without the multiplication sign U+00D7) move up by 32. *)
Definition lower_char (c : ascii) : ascii :=
  if in_range 65 90 c || in_range 192 214 c || in_range 216 222 c
  then ascii_of_N (code c + 32)
  else c.

(** [s.lower()], code point by code point.  On the code points below 256
    one code point becomes one code point; beyond them [str.lower] can change
    the length (U+0130 becomes two code points), which is outside the
    model. *)
Fixpoint lower (s : string) : string :=
  match s with
  | EmptyString => EmptyString
  | String c s' => String (lower_char c) (lower s')
  end.

(** [s.replace(c, '')] for a one-character pattern [c]. *)
Fixpoint remove_char (c : ascii) (s : string) : string :=
  match s with
  | EmptyString => EmptyString
  | String d s' =>
      if Ascii.eqb d c then remove_char c s' else String d (remove_char c s')
  end.

Fixpoint lstrip (s : string) : string :=
  match s with
  | EmptyString => EmptyString
  | String c s' => if is_space c then lstrip s' else s
  end.

(** [rstrip] keeps a character when it is not a space or when something
    that is kept follows it. *)
Fixpoint rstrip (s : string) : string :=
  match s with
  | EmptyString => EmptyString
  | String c s' =>
      match rstrip s' with
      | EmptyString => if is_space c then EmptyString else String c EmptyString
      | r => String c r
      end
  end.

(** [s.strip()] *)
Definition strip (s : string) : string := rstrip (lstrip s).

(** [s.startswith(p)] *)
Definition startswith (s p : string) : bool := String.prefix p s.

(** [needle in hay] *)
Fixpoint contains (needle hay : string) : bool :=
  String.prefix needle hay
  || match hay with
     | EmptyString => false
     | String _ hay' => contains needle hay'
     end.

(** [s.split(c)[0]]: the text before the first [c], all of [s] without one. *)
Fixpoint split_head (c : ascii) (s : string) : string :=
  match s with
  | EmptyString => EmptyString
  | String d s' => if Ascii.eqb d c then EmptyString else String d (split_head c s')
  end.

(** [s[n:]] *)
Fixpoint drop (n : nat) (s : string) : string :=
  match n, s with
  | O, _ => s
  | S _, EmptyString => EmptyString
  | S n', String _ s' => drop n' s'
  end.

(** [not s]: a string is falsy exactly when it is empty. *)
Definition falsy (s : string) : bool :=
  match s with EmptyString => true | _ => false end.

(** [all(p(c) for c in s)] *)
Fixpoint forallb (p : ascii -> bool) (s : string) : bool :=
  match s with
  | EmptyString => true
  | String c s' => p c && forallb p s'
  end.

(** [str(n)] for an [int] [n >= 0]. *)
Definition str_of_int (n : Z) : string :=
  NilEmpty.string_of_uint (N.to_uint (Z.to_N n)).

End PyStr.

(** ** Binary64 arithmetic, as far as [clean_reviews] uses it

    [clean_reviews] builds a float from an unsigned decimal literal, may
    multiply it by 1000 and truncates it to an [int].  All values are
    non-negative, so a float is a non-negative dyadic [m * 2^e], infinity, or
    (for the product of infinity and zero) not-a-number.  Every operation
    rounds the exact rational result to nearest, ties to even, with 53 bits of
    precision, gradual underflow below 2^-1022 and overflow to infinity from
    2^1024 on, as IEEE 754 prescribes and CPython implements. *)

Module PyFloat.

Inductive float : Type :=
  | Finite (m e : Z)
  | Inf
  | NaN.

(** The exponent of the last place of a number with [ex] binary digits before
    the point. *)
Definition fexp (ex : Z) : Z := Z.max (ex - 53) (-1074).

(** The integer nearest to [p / q], ties to even ([0 <= p], [0 < q]). *)
Definition rne (p q : Z) : Z :=
  let k := p / q in
  match 2 * (p mod q) ?= q with
  | Lt => k
  | Gt => k + 1
  | Eq => if Z.even k then k else k + 1
  end.

(** [q * 2^d <= p], for either sign of [d]. *)
Definition le_scaled (d p q : Z) : bool :=
  if 0 <=? d then q * 2 ^ d <=? p else q <=? p * 2 ^ (- d).

(** The [ex] with [2^(ex-1) <= p / q < 2^ex] ([0 < p], [0 < q]). *)
Definition mag (p q : Z) : Z :=
  let d := Z.log2 p - Z.log2 q in
  if le_scaled d p q then d + 1 else d.

(** The float nearest to the rational [p / q] ([0 <= p], [0 < q]). *)
Definition round (p q : Z) : float :=
  if p =? 0 then Finite 0 0
  else
    let e := fexp (mag p q) in
    let m := if 0 <=? e then rne p (q * 2 ^ e) else rne (p * 2 ^ (- e)) q in
    if 2 ^ 1024 <=? m * 2 ^ e then Inf else Finite m e.

(** The float of the decimal literal with digits [m] of which the last [k]
    come after the point. *)
Definition of_decimal (m : Z) (k : nat) : float := round m (10 ^ Z.of_nat k).

(** The float of a small [int] operand, as in [num * 1000]. *)
Definition of_int (n : Z) : float := round n 1.

(** [x * y] *)
Definition mul (x y : float) : float :=
  match x, y with
  | Finite m1 e1, Finite m2 e2 =>
      let e := e1 + e2 in
      if 0 <=? e then round (m1 * m2 * 2 ^ e) 1 else round (m1 * m2) (2 ^ (- e))
  | Finite m _, Inf | Inf, Finite m _ => if m =? 0 then NaN else Inf
  | Inf, Inf => Inf
  | NaN, _ | _, NaN => NaN
  end.

(** [int(x)]: truncation; [OverflowError] on infinity, [ValueError] on NaN. *)
Definition to_int (x : float) : result Z :=
  match x with
  | Finite m e => Ok (Z.shiftl m e)
  | Inf => Raise OverflowError
  | NaN => Raise ValueError
  end.

(** The digits of [s] as a number; [None] when [s] has another character. *)
Definition digits_value (s : string) : option Z :=
  match NilEmpty.uint_of_string s with
  | Some d => Some (Z.of_N (N.of_uint d))
  | None => None
  end.

(** The text after the first [c], when there is a [c]. *)
Fixpoint after (c : ascii) (s : string) : option string :=
  match s with
  | EmptyString => None
  | String d s' => if Ascii.eqb d c then Some s' else after c s'
  end.

(** [float(s)] for a non-empty [s] of digits and points, which is all that
    [clean_reviews] passes: digits with at most one point and at least one
    digit make a float, anything else raises [ValueError]. *)
Definition of_str (s : string) : result float :=
  let int_part := PyStr.split_head "." s in
  match after "." s with
  | None =>
      match int_part, digits_value int_part with
      | String _ _, Some v => Ok (of_decimal v 0)
      | _, _ => Raise ValueError
      end
  | Some frac_part =>
      match int_part +:+ frac_part, digits_value (int_part +:+ frac_part) with
      | String _ _, Some v => Ok (of_decimal v (String.length frac_part))
      | _, _ => Raise ValueError
      end
  end.

(** A float that [round] can return: at most 53 bits, below 2^1024. *)
Definition wf (x : float) : Prop :=
  match x with
  | Finite m e => 0 <= m <= 2 ^ 53 /\ (0 <= e -> m * 2 ^ e < 2 ^ 1024)
  | Inf | NaN => True
  end.

(** An [int] that a float holds exactly. *)
Definition representable (n : Z) : Prop :=
  0 <= n < 2 ^ 1024 /\ exists M E, n = M * 2 ^ E /\ 0 <= M <= 2 ^ 53 /\ 0 <= E.

(** The number a string of digits denotes, read from the left. *)
Definition digit_of (c : ascii) : Z := Z.of_N (PyStr.code c) - 48.

Fixpoint value_from (acc : Z) (s : string) : Z :=
  match s with
  | EmptyString => acc
  | String c s' => value_from (acc * 10 + digit_of c) s'
  end.

End PyFloat.

(** ** The regular expressions of the cleaners *)

Module Re.

(** The longest prefix of [s] in the class [p], and what follows it. *)
Fixpoint span (p : ascii -> bool) (s : string) : string * string :=
  match s with
  | EmptyString => (EmptyString, EmptyString)
  | String c s' =>
      if p c then let '(run, rest) := span p s' in (String c run, rest)
      else (EmptyString, s)
  end.

(** [re.search('[p]+', s)]: the leftmost, longest run of characters of the
    class [p], with the rest of [s]; [None] when [s] has no such character. *)
Fixpoint search_run (p : ascii -> bool) (s : string) : option (string * string) :=
  match s with
  | EmptyString => None
  | String c s' => if p c then Some (span p s) else search_run p s'
  end.

(** [[\d\.,]] *)
Definition digit_dot_comma (c : ascii) : bool :=
  PyStr.is_digit c || Ascii.eqb c "." || Ascii.eqb c ",".

(** [[\d\.]] *)
Definition digit_dot (c : ascii) : bool :=
  PyStr.is_digit c || Ascii.eqb c ".".

(** [re.search(r'([\d\.]+)(k?)', s)]: groups 1 and 2 of the match. *)
Definition search_number_k (s : string) : option (string * string) :=
  match search_run digit_dot s with
  | Some (number, String "k" _) => Some (number, "k")
  | Some (number, _) => Some (number, "")
  | None => None
  end.

End Re.

(** ** Field cleaners (scraper.py, lines 272-321) *)

(** [clean_price]: [None] is Python's [None]. *)
Definition clean_price (price_str : string) : option string :=
  if PyStr.falsy price_str then None
  else
    match Re.search_run Re.digit_dot_comma price_str with
    | Some (group0, _) => Some (PyStr.remove_char "," group0)
    | None => None
    end.

(** [clean_reviews]: it can return [None], return a string, or raise (from
    [float] on a malformed number or from [int] on infinity). *)
Definition clean_reviews (reviews_str : string) : result (option string) :=
  if PyStr.falsy reviews_str then Ok None
  else
    let reviews_str :=
      PyStr.remove_char ","
        (PyStr.remove_char ")" (PyStr.remove_char "(" (PyStr.lower reviews_str))) in
    match Re.search_number_k reviews_str with
    | Some (group1, group2) =>
        match PyFloat.of_str group1 with
        | Raise e => Raise e
        | Ok num =>
            let scaled :=
              if String.eqb group2 "k"
              then PyFloat.mul num (PyFloat.of_int 1000)
              else num in
            match PyFloat.to_int scaled with
            | Raise e => Raise e
            | Ok n => Ok (Some (PyStr.str_of_int n))
            end
        end
    | None => Ok (Some "0")
    end.

(** [clean_rating] *)
Definition clean_rating (rating_str : string) : option string :=
  if PyStr.falsy rating_str then None
  else
    match Re.search_run Re.digit_dot rating_str with
    | Some (group0, _) => Some group0
    | None => None
    end.

(** The text [clean_reviews] matches its regular expression against
    (scraper.py, line 299). *)
Definition normalised (reviews_str : string) : string :=
  PyStr.remove_char ","
    (PyStr.remove_char ")" (PyStr.remove_char "(" (PyStr.lower reviews_str))).

(** ** The BeautifulSoup tree and the selectors of [parse_gigs]

    [BeautifulSoup(html, 'html.parser')] yields a tree of tags and strings.
    A tag is addressed by its path from the root (the child indices), so that
    [parent] and [find_parent] can leave the card they started in, as they do
    in bs4.  Attribute values are kept as written; the multi-valued [class]
    attribute is split on whitespace where a selector asks for a class.  bs4
    shows a substring test on [class] the list of classes, one by one and
    joined by spaces; the substrings tested here hold no whitespace, so the
    answer on the written value is the same.  Tag and attribute names are in
    lower case, as [html.parser] leaves them. *)

Module Soup.

Inductive node : Type :=
  | Text (s : string)
  | Tag (name : string) (attrs : gmap string string) (children : list node).

Definition path : Type := list nat.

(** The node at a path. *)
Fixpoint get (n : node) (p : path) : option node :=
  match p with
  | [] => Some n
  | i :: p' =>
      match n with
      | Tag _ _ children =>
          match children !! i with
          | Some c => get c p'
          | None => None
          end
      | Text _ => None
      end
  end.

(** The paths of [n], when it is a tag, and of the tags below it, in document
    order. *)
Fixpoint tags (n : node) : list path :=
  match n with
  | Text _ => []
  | Tag _ _ children =>
      [] :: (fix below (i : nat) (l : list node) : list path :=
               match l with
               | [] => []
               | c :: l' => map (cons i) (tags c) ++ below (S i) l'
               end) O children
  end.

(** The tags strictly below the tag at [ctx], in document order. *)
Definition descendants (doc : node) (ctx : path) : list path :=
  match get doc ctx with
  | Some n => map (app ctx) (tail (tags n))
  | None => []
  end.

(** [tag.text]: the strings below the tag, concatenated. *)
Fixpoint text_of_node (n : node) : string :=
  match n with
  | Text s => s
  | Tag _ _ children =>
      (fix cat (l : list node) : string :=
         match l with
         | [] => EmptyString
         | c :: l' => text_of_node c +:+ cat l'
         end) children
  end.

Definition text (doc : node) (p : path) : string :=
  match get doc p with
  | Some n => text_of_node n
  | None => EmptyString
  end.

(** [tag.get(name)] *)
Definition attr (doc : node) (p : path) (name : string) : option string :=
  match get doc p with
  | Some (Tag _ attrs _) => attrs !! name
  | _ => None
  end.

Definition tag_name (doc : node) (p : path) : option string :=
  match get doc p with
  | Some (Tag name _ _) => Some name
  | _ => None
  end.

(** The whitespace-separated words of an attribute value. *)
Fixpoint words_from (cur : string) (s : string) : list string :=
  let flush := if PyStr.falsy cur then [] else [cur] in
  match s with
  | EmptyString => flush
  | String c s' =>
      if PyStr.is_space c then flush ++ words_from EmptyString s'
      else words_from (cur +:+ String c EmptyString) s'
  end.

Definition words (s : string) : list string := words_from EmptyString s.

(** One condition on a tag's attributes. *)
Inductive attr_test : Type :=
  | AttrIs (name value : string)        (* [name="value"] *)
  | AttrHas (name value : string)       (* [name*="value"] *)
  | Class (c : string).                 (* .c *)

(** A compound selector: a tag name and at most one condition. *)
Record compound : Type := { sel_tag : string; sel_test : option attr_test }.

(** A complex selector: a compound, possibly under an ancestor ([h3 a]). *)
Inductive selector : Type :=
  | One (c : compound)
  | Under (ancestor c : compound).

Definition test_holds (attrs : gmap string string) (t : attr_test) : bool :=
  match t with
  | AttrIs name value =>
      match attrs !! name with
      | Some v => String.eqb v value
      | None => false
      end
  | AttrHas name value =>
      match attrs !! name with
      | Some v => PyStr.contains value v
      | None => false
      end
  | Class c =>
      match attrs !! "class" with
      | Some v => existsb (String.eqb c) (words v)
      | None => false
      end
  end.

Definition matches_compound (doc : node) (p : path) (c : compound) : bool :=
  match get doc p with
  | Some (Tag name attrs _) =>
      String.eqb name (sel_tag c)
      && match sel_test c with
         | Some t => test_holds attrs t
         | None => true
         end
  | _ => false
  end.

(** The first [n] proper prefixes of [p], longest first. *)
Fixpoint prefixes_below (n : nat) (p : path) : list path :=
  match n with
  | O => []
  | S n' => take n' p :: prefixes_below n' p
  end.

(** The ancestors of the tag at [p], nearest first, up to the root. *)
Definition ancestors (p : path) : list path :=
  prefixes_below (List.length p) p.

Definition matches (doc : node) (p : path) (s : selector) : bool :=
  match s with
  | One c => matches_compound doc p c
  | Under a c =>
      matches_compound doc p c
      && existsb (fun q => matches_compound doc q a) (ancestors p)
  end.

(** [ctx.select(sels)]: the tags below [ctx] that match one of the
    comma-separated selectors, in document order. *)
Definition select (doc : node) (ctx : path) (sels : list selector) : list path :=
  filter (fun p => existsb (matches doc p) sels = true) (descendants doc ctx).

(** [ctx.select_one(sels)] *)
Definition select_one (doc : node) (ctx : path) (sels : list selector) : option path :=
  head (select doc ctx sels).

(** A [class_=f] filter: [f] sees [None] without a class attribute. *)
Definition class_satisfies (f : option string -> bool) (doc : node) (p : path) : bool :=
  f (attr doc p "class").

(** [soup.find_all(names, class_=f)] *)
Definition find_all (doc : node) (names : list string)
    (f : option string -> bool) : list path :=
  filter (fun p =>
            match tag_name doc p with
            | Some n => existsb (String.eqb n) names && class_satisfies f doc p
            | None => false
            end = true)
         (descendants doc []).

(** [tag.find_parent(name, class_=f)]: the nearest matching ancestor. *)
Definition find_parent (doc : node) (p : path) (name : string)
    (f : option string -> bool) : option path :=
  head (filter (fun q =>
                  match tag_name doc q with
                  | Some n => String.eqb n name && class_satisfies f doc q
                  | None => false
                  end = true)
               (ancestors p)).

(** [tag.parent] *)
Definition parent (p : path) : option path :=
  match p with
  | [] => None
  | _ :: _ => Some (take (Nat.pred (List.length p)) p)
  end.

End Soup.

(** ** Observable effects

    The scraper logs, navigates the browser, sleeps and saves files.  Each
    effect is recorded in a trace, in the order in which it happens.  A log
    record keeps its level and which [logger] call made it, with the values
    that call formats into its text. *)

Inductive level : Type := INFO | WARNING | ERROR | CRITICAL.

(** [card_identifier]: the position of a card (from 1) and the number of
    cards on the page. *)
Definition card_id : Type := (nat * nat)%type.

Inductive message : Type :=
  (* parse_gigs *)
  | HtmlContentEmpty                               (* line 117 *)
  | StartingToParse                                (* line 120 *)
  | FoundPrimary (n : nat)                         (* line 134 *)
  | TryingFallback                                 (* line 139 *)
  | FoundFallback (n : nat)                        (* line 141 *)
  | NoGigCardsFound                                (* line 144 *)
  | UnusualUrl (card : card_id) (raw : string)     (* line 172 *)
  | TitleNotFound (card : card_id)                 (* line 175 *)
  | SellerNameNotFound (card : card_id)            (* line 188 *)
  | SellerCountryNotFound (card : card_id)         (* line 217 *)
  | PriceNotFound (card : card_id)                 (* line 225 *)
  | RatingNotFoundInArea (card : card_id)          (* line 235 *)
  | ReviewCountNotFoundInArea (card : card_id)     (* line 241 *)
  | RatingNotFoundFallback (card : card_id)        (* line 248 *)
  | ErrorParsingCard (card : card_id) (e : exn)    (* line 259 *)
  | CardsFoundNoData                               (* line 267 *)
  | ParsedGigs (n : nat)                           (* line 269 *)
  (* get_page_html *)
  | Retrying (keyword : string) (page : nat) (e : exn) (attempt : nat) (* line 45 *)
  | AttemptingFetch (url : string)                 (* line 77 *)
  | WaitingForLoad                                 (* line 83 *)
  | AppearsEmptyOrError (page : nat)               (* line 89 *)
  | FetchedHtml (page : nat)                       (* line 93 *)
  | WebDriverError (page : nat) (e : exn)          (* line 97 *)
  | UnexpectedFetchError (page : nat) (e : exn)    (* line 101 *)
  (* main *)
  | ProcessingPage (page : nat)                    (* line 458 *)
  | FailedAfterRetries (page : nat) (e : exn)      (* line 464 *)
  | ExtractedGigs (n page : nat)                   (* line 472 *)
  | NoGigsOnPage (page : nat)                      (* line 475 *)
  | AssumingEndOfResults (page : nat)              (* line 478 *)
  | ContentWasNone (page : nat)                    (* line 483 *)
  | WaitingBeforeNextPage                          (* line 491 *)
  | ScrapingFinished (pages total : nat)           (* line 494 *)
  | PreparingToSave (total : nat)                  (* line 498 *)
  | SavingCompleted                                (* line 501 *)
  | NoGigsCollected                                (* line 503 *)
  | CriticalWebDriverError (e : exn)               (* line 507 *)
  | CriticalUnexpectedError (e : exn).             (* line 510 *)

(** The three timed waits of the program. *)
Inductive delay : Type :=
  | PageLoadWait                  (* time.sleep(PAGE_LOAD_WAIT_SECONDS) *)
  | Backoff (seconds : Z)         (* tenacity's wait between attempts *)
  | InterPageDelay.               (* time.sleep(random.uniform(5, 10)) *)

(** A gig record: a Python [dict] from field names to [str] or [None]. *)
Abbreviation dict := (gmap string (option string)).

Inductive event : Type :=
  | Log (l : level) (m : message)
  | Navigate (url : string)                       (* driver.get(url) *)
  | Sleep (d : delay)
  | SaveCsv (data : list dict)                    (* save_to_csv *)
  | SaveJson (data : list dict).                  (* save_to_json *)

(** The state: how many navigations the browser has served, and the trace. *)
Record world : Type := World { navigations : nat; trace : list event }.

(** ** The monad of the effectful functions: state and exceptions *)

Definition M (A : Type) : Type := world -> result A * world.

Definition ret {A} (a : A) : M A := fun w => (Ok a, w).

Definition bind {A B} (m : M A) (k : A -> M B) : M B :=
  fun w =>
    match m w with
    | (Ok a, w') => k a w'
    | (Raise e, w') => (Raise e, w')
    end.

(** [raise e] *)
Definition raise {A} (e : exn) : M A := fun w => (Raise e, w).

(** [try: m  except Exception as e: handler(e)]; the effects of [m] up to the
    exception stay. *)
Definition try_except {A} (m : M A) (handler : exn -> M A) : M A :=
  fun w =>
    match m w with
    | (Ok a, w') => (Ok a, w')
    | (Raise e, w') => handler e w'
    end.

Definition emit (ev : event) : M unit :=
  fun w => (Ok tt, World (navigations w) (trace w ++ [ev])).

Definition log (l : level) (m : message) : M unit := emit (Log l m).

(** A pure computation that can raise. *)
Definition lift {A} (r : result A) : M A := fun w => (r, w).

Notation "'let!' x ':=' m 'in' k" := (bind m (fun x => k))
  (at level 10, x name, m at level 100, k at level 200).
Notation "m ';>' k" := (bind m (fun _ => k))
  (at level 100, k at level 200, right associativity).

(** ** Constants (scraper.py, lines 33-39) *)

Definition MAX_PAGES_TO_SCRAPE : nat := 2.
Definition RETRY_ATTEMPTS : nat := 3.
Definition RETRY_WAIT_MIN_SECONDS : Z := 2.
Definition RETRY_WAIT_MAX_SECONDS : Z := 6.

(** ** The selectors of [parse_gigs] *)

Module Selectors.
Import Soup.

Definition tag (t : string) : compound := {| sel_tag := t; sel_test := None |}.
Definition tag_is (t a v : string) : compound :=
  {| sel_tag := t; sel_test := Some (AttrIs a v) |}.
Definition tag_has (t a v : string) : compound :=
  {| sel_tag := t; sel_test := Some (AttrHas a v) |}.
Definition tag_class (t c : string) : compound :=
  {| sel_tag := t; sel_test := Some (Class c) |}.

(** [div[data-testid="gig-card-layout"], div.gig-card, article.gig-card] *)
Definition gig_cards : list selector :=
  [ One (tag_is "div" "data-testid" "gig-card-layout");
    One (tag_class "div" "gig-card");
    One (tag_class "article" "gig-card") ].

(** [class_=lambda x: x and 'gig' in x.lower() and 'card' in x.lower()] *)
Definition gig_and_card (x : option string) : bool :=
  match x with
  | Some c =>
      negb (PyStr.falsy c)
      && PyStr.contains "gig" (PyStr.lower c)
      && PyStr.contains "card" (PyStr.lower c)
  | None => false
  end.

(** [a[data-testid="gig-title"], a.gig-title-link, h3 a, a[href*="/gigs/"]] *)
Definition title : list selector :=
  [ One (tag_is "a" "data-testid" "gig-title");
    One (tag_class "a" "gig-title-link");
    Under (tag "h3") (tag "a");
    One (tag_has "a" "href" "/gigs/") ].

(** [a[data-testid="seller-name"], a[href*="/users/"], p.seller-name] *)
Definition seller_name : list selector :=
  [ One (tag_is "a" "data-testid" "seller-name");
    One (tag_has "a" "href" "/users/");
    One (tag_class "p" "seller-name") ].

(** [class_=lambda x: x and ('seller-info' in x or 'seller-details' in x)] *)
Definition seller_info_class (x : option string) : bool :=
  match x with
  | Some c =>
      negb (PyStr.falsy c)
      && (PyStr.contains "seller-info" c || PyStr.contains "seller-details" c)
  | None => false
  end.

(** [span[data-testid="seller-level"], span.seller-level] *)
Definition seller_level : list selector :=
  [ One (tag_is "span" "data-testid" "seller-level");
    One (tag_class "span" "seller-level") ].

(** [span[data-testid*="country"], span[class*="country"],
    span[class*="location"]] *)
Definition country_in_container : list selector :=
  [ One (tag_has "span" "data-testid" "country");
    One (tag_has "span" "class" "country");
    One (tag_has "span" "class" "location") ].

(** The same, and [div.seller-location span]. *)
Definition country_in_card : list selector :=
  country_in_container ++ [ Under (tag_class "div" "seller-location") (tag "span") ].

(** [img[class*="flag"], span[class*="flag-icon"]] *)
Definition flag_icon : list selector :=
  [ One (tag_has "img" "class" "flag");
    One (tag_has "span" "class" "flag-icon") ].

(** [span[data-testid="price"], p.price, span[class*="price"]] *)
Definition price : list selector :=
  [ One (tag_is "span" "data-testid" "price");
    One (tag_class "p" "price");
    One (tag_has "span" "class" "price") ].

(** [div[data-testid="gig-rating"], span[class*="rating"], div[class*="rating"]] *)
Definition rating_review_area : list selector :=
  [ One (tag_is "div" "data-testid" "gig-rating");
    One (tag_has "span" "class" "rating");
    One (tag_has "div" "class" "rating") ].

(** [span[data-testid="star-rating-score"], span.rating-score, b] *)
Definition rating_in_area : list selector :=
  [ One (tag_is "span" "data-testid" "star-rating-score");
    One (tag_class "span" "rating-score");
    One (tag "b") ].

(** [span[data-testid="star-rating-score"], span.rating-score,
    b[class*="rating"]] *)
Definition rating_in_card : list selector :=
  [ One (tag_is "span" "data-testid" "star-rating-score");
    One (tag_class "span" "rating-score");
    One (tag_has "b" "class" "rating") ].

(** [span[data-testid="review-count"], span.rating-count,
    span[class*="reviews"]] *)
Definition review_count : list selector :=
  [ One (tag_is "span" "data-testid" "review-count");
    One (tag_class "span" "rating-count");
    One (tag_has "span" "class" "reviews") ].

End Selectors.

(** ** [parse_gigs] (scraper.py, lines 104-270) *)

(** The record every card starts from (lines 149-152). *)
Definition initial_gig_info : dict :=
  list_to_map
    [ ("title", None); ("seller_name", None); ("seller_level", None);
      ("seller_country", Some "N/A"); ("price", None); ("num_reviews", None);
      ("rating", None); ("gig_url", None) ].

(** The placeholder appended when a card raises (lines 260-263). *)
Definition error_record : dict :=
  list_to_map
    [ ("title", Some "Error parsing card"); ("seller_name", Some "Error");
      ("seller_level", Some "Error"); ("price", Some "Error");
      ("num_reviews", Some "Error"); ("rating", Some "Error");
      ("gig_url", Some "Error") ].

(** The URL stored for a non-empty [href] (lines 166-173), and whether the
    "unusual format" warning goes with it. *)
Definition normalize_gig_url (gig_url_raw : string) : string * bool :=
  if PyStr.startswith gig_url_raw "/"
  then ("https://www.fiverr.com" +:+ PyStr.split_head "?" gig_url_raw, false)
  else if PyStr.startswith gig_url_raw "http"
  then (PyStr.split_head "?" gig_url_raw, false)
  else (gig_url_raw, true).

Section Card.

Variable doc : Soup.node.
Variable card : Soup.path.
Variable card_identifier : card_id.

(** Gig title and URL (lines 156-175). *)
Definition extract_title_and_url (gig_info : dict) : M dict :=
  match Soup.select_one doc card Selectors.title with
  | Some title_element =>
      let gig_info :=
        <["title" := Some (PyStr.strip (Soup.text doc title_element))]> gig_info in
      match Soup.attr doc title_element "href" with
      | Some gig_url_raw =>
          if PyStr.falsy gig_url_raw then ret gig_info
          else
            let '(url, unusual) := normalize_gig_url gig_url_raw in
            (if unusual
             then log WARNING (UnusualUrl card_identifier gig_url_raw)
             else ret tt) ;>
            ret (<["gig_url" := Some url]> gig_info)
      | None => ret gig_info
      end
  | None =>
      log WARNING (TitleNotFound card_identifier) ;> ret gig_info
  end.

(** Seller name and the container searched for the country (lines 177-188). *)
Definition extract_seller_name (gig_info : dict) : M (dict * option Soup.path) :=
  match Soup.select_one doc card Selectors.seller_name with
  | Some seller_element =>
      let gig_info :=
        <["seller_name" := Some (PyStr.strip (Soup.text doc seller_element))]> gig_info in
      let seller_info_container :=
        match Soup.find_parent doc seller_element "div" Selectors.seller_info_class with
        | Some container => Some container
        | None => Soup.parent seller_element
        end in
      ret (gig_info, seller_info_container)
  | None =>
      log WARNING (SellerNameNotFound card_identifier) ;> ret (gig_info, None)
  end.

(** Seller level (lines 190-195). *)
Definition extract_seller_level (gig_info : dict) : M dict :=
  match Soup.select_one doc card Selectors.seller_level with
  | Some seller_level_element =>
      ret (<["seller_level" :=
               Some (PyStr.strip (Soup.text doc seller_level_element))]> gig_info)
  | None => ret (<["seller_level" := Some "N/A"]> gig_info)
  end.

(** Seller country (lines 197-218). *)
Definition extract_seller_country (seller_info_container : option Soup.path)
    (gig_info : dict) : M dict :=
  let country_element :=
    match seller_info_container with
    | Some container => Soup.select_one doc container Selectors.country_in_container
    | None => None
    end in
  let country_element :=
    match country_element with
    | Some e => Some e
    | None => Soup.select_one doc card Selectors.country_in_card
    end in
  match country_element with
  | Some e =>
      let country_text := PyStr.strip (Soup.text doc e) in
      let country_text :=
        if PyStr.startswith (PyStr.lower country_text) "from "
        then PyStr.strip (PyStr.drop 5 country_text)
        else country_text in
      ret (<["seller_country" := Some country_text]> gig_info)
  | None =>
      match Soup.select_one doc card Selectors.flag_icon with
      | Some flag_icon =>
          match Soup.attr doc flag_icon "title" with
          | Some title => ret (<["seller_country" := Some (PyStr.strip title)]> gig_info)
          | None =>
              log WARNING (SellerCountryNotFound card_identifier) ;> ret gig_info
          end
      | None =>
          log WARNING (SellerCountryNotFound card_identifier) ;> ret gig_info
      end
  end.

(** Price (lines 220-225). *)
Definition extract_price (gig_info : dict) : M dict :=
  match Soup.select_one doc card Selectors.price with
  | Some price_element =>
      ret (<["price" := clean_price (PyStr.strip (Soup.text doc price_element))]> gig_info)
  | None =>
      log WARNING (PriceNotFound card_identifier) ;> ret gig_info
  end.

(** Rating and number of reviews (lines 227-254). *)
Definition extract_rating_and_reviews (gig_info : dict) : M dict :=
  match Soup.select_one doc card Selectors.rating_review_area with
  | Some rating_review_area =>
      let! gig_info :=
        match Soup.select_one doc rating_review_area Selectors.rating_in_area with
        | Some rating_element =>
            ret (<["rating" :=
                     clean_rating (PyStr.strip (Soup.text doc rating_element))]> gig_info)
        | None =>
            log WARNING (RatingNotFoundInArea card_identifier) ;> ret gig_info
        end in
      match Soup.select_one doc rating_review_area Selectors.review_count with
      | Some review_count_element =>
          let! n := lift (clean_reviews (PyStr.strip (Soup.text doc review_count_element))) in
          ret (<["num_reviews" := n]> gig_info)
      | None =>
          log WARNING (ReviewCountNotFoundInArea card_identifier) ;> ret gig_info
      end
  | None =>
      let! gig_info :=
        match Soup.select_one doc card Selectors.rating_in_card with
        | Some rating_element =>
            ret (<["rating" :=
                     clean_rating (PyStr.strip (Soup.text doc rating_element))]> gig_info)
        | None =>
            log WARNING (RatingNotFoundFallback card_identifier) ;> ret gig_info
        end in
      match Soup.select_one doc card Selectors.review_count with
      | Some review_count_element =>
          let! n := lift (clean_reviews (PyStr.strip (Soup.text doc review_count_element))) in
          ret (<["num_reviews" := n]> gig_info)
      | None => ret (<["num_reviews" := Some "0"]> gig_info)
      end
  end.

(** The body of the [try] (lines 156-254). *)
Definition extract_fields : M dict :=
  let! gig_info := extract_title_and_url initial_gig_info in
  let! seller := extract_seller_name gig_info in
  let! gig_info := extract_seller_level (fst seller) in
  let! gig_info := extract_seller_country (snd seller) gig_info in
  let! gig_info := extract_price gig_info in
  extract_rating_and_reviews gig_info.

(** One turn of the loop over the cards (lines 148-263): the record that is
    appended to [gigs_data]. *)
Definition extract_card : M dict :=
  try_except extract_fields
    (fun e => log ERROR (ErrorParsingCard card_identifier e) ;> ret error_record).

End Card.

(** The loop over [enumerate(gig_cards)] (lines 147-263); [i] is the index of
    the first card of [cards], [total] is [len(gig_cards)]. *)
Fixpoint parse_cards (doc : Soup.node) (total i : nat) (cards : list Soup.path)
    (gigs_data : list dict) : M (list dict) :=
  match cards with
  | [] => ret gigs_data
  | card :: rest =>
      let! gig := extract_card doc card (S i, total) in
      parse_cards doc total (S i) rest (gigs_data ++ [gig])
  end.

Section Parser.

(** [BeautifulSoup(html_content, 'html.parser')]: the HTML parser is bs4's,
    not the scraper's; the model takes it as given.  Here it is a function
    that gives a tree for every text; [Guarded.parse_gigs] below has the
    parser that can raise (the call of line 128 is inside no [try]). *)
Variable BeautifulSoup : string -> Soup.node.

Definition parse_gigs (html_content : string) : M (list dict) :=
  if PyStr.falsy html_content
  then log WARNING HtmlContentEmpty ;> ret []
  else
    log INFO StartingToParse ;>
    let soup := BeautifulSoup html_content in
    let gig_cards := Soup.select soup [] Selectors.gig_cards in
    log INFO (FoundPrimary (List.length gig_cards)) ;>
    let! gig_cards :=
      match gig_cards with
      | [] =>
          log INFO TryingFallback ;>
          let gig_cards := Soup.find_all soup ["article"; "div"] Selectors.gig_and_card in
          log INFO (FoundFallback (List.length gig_cards)) ;>
          ret gig_cards
      | _ :: _ => ret gig_cards
      end in
    match gig_cards with
    | [] => log WARNING NoGigCardsFound ;> ret []
    | _ :: _ =>
        let! gigs_data := parse_cards soup (List.length gig_cards) O gig_cards [] in
        (match gigs_data with
         | [] => log WARNING CardsFoundNoData
         | _ :: _ => ret tt
         end) ;>
        log INFO (ParsedGigs (List.length gigs_data)) ;>
        ret gigs_data
    end.

End Parser.

(** ** tenacity's [retry] decorator (scraper.py, lines 41-49)

    tenacity is a library; this is its documented behaviour for the options
    the scraper passes. *)

Module Tenacity.

(** [wait_exponential(multiplier, min, max)] with the default base 2: the wait
    after attempt number [attempt_number] (from 1) has failed. *)
Definition wait_exponential (multiplier min max : Z) (attempt_number : nat) : Z :=
  let exp := 2 ^ (Z.of_nat attempt_number - 1) in
  let result := multiplier * exp in
  Z.max (Z.max 0 min) (Z.min result max).

(** [retry_if_exception_type((WebDriverException, TimeoutException))] *)
Definition retry_if_transient (e : exn) : bool :=
  match e with
  | WebDriverException | TimeoutException => true
  | _ => false
  end.

Section Retrying.

Context {A : Type}.
Variable wait : nat -> Z.
Variable retry_on : exn -> bool.
Variable before_sleep : exn -> nat -> M unit.
Variable fn : M A.

(** The loop of the decorator.  A returned value ends it.  An exception that
    [retry_on] rejects is re-raised.  Otherwise [stop_after_attempt(n)] ends
    the loop with [RetryError] once [attempt_number] has reached [n], that is
    when [retries_left = n - attempt_number] is 0; before that the decorator
    calls [before_sleep], sleeps and tries again. *)
Fixpoint retrying (retries_left attempt_number : nat) : M A :=
  try_except fn
    (fun e =>
       if retry_on e then
         match retries_left with
         | O => raise RetryError
         | S k =>
             before_sleep e attempt_number ;>
             emit (Sleep (Backoff (wait attempt_number))) ;>
             retrying k (S attempt_number)
         end
       else raise e).

(** [retry(stop=stop_after_attempt(n), ...)(fn)], for [n >= 1]. *)
Definition retry (n : nat) : M A := retrying (Nat.pred n) 1%nat.

End Retrying.

End Tenacity.

(** ** [get_page_html] (scraper.py, lines 41-102) *)

(** What the browser does with one navigation. *)
Inductive response : Type :=
  | GetRaises (e : exn)          (* [driver.get(url)] raises *)
  | SourceRaises (e : exn)       (* the page loads, [driver.page_source] raises *)
  | PageSource (html : string).  (* [driver.page_source] *)

Definition no_results_page : string := "<html><body></body></html>".

(** The address of a page of results (lines 72-75). *)
Definition fiverr_search_url (keyword : string) (page_number : nat) : string :=
  if (page_number =? 1)%nat
  then "https://www.fiverr.com/search/gigs?query=" +:+ keyword
  else "https://www.fiverr.com/search/gigs?query=" +:+ keyword
       +:+ "&page=" +:+ PyStr.str_of_int (Z.of_nat page_number).

(** The test of lines 87-88 for a page without results. *)
Definition says_no_results (page_html : string) : bool :=
  PyStr.contains "Hmm, something seems to have gone wrong" page_html
  || PyStr.contains "No services found for your search" page_html.

Section Browser.

(** The browser is selenium's: [driver n url] is its answer to navigation
    number [n] (from 0) of the run, to [url]. *)
Variable driver : nat -> string -> response.

(** [driver.get(url)]; the result says what [driver.page_source] will do. *)
Definition driver_get (url : string) : M (result string) :=
  fun w =>
    let w' := World (S (navigations w)) (trace w ++ [Navigate url]) in
    match driver (navigations w) url with
    | GetRaises e => (Raise e, w')
    | SourceRaises e => (Ok (Raise e), w')
    | PageSource html => (Ok (Ok html), w')
    end.

(** The function under the decorator (lines 72-102): one attempt. *)
Definition get_page_html_attempt (keyword : string) (page_number : nat)
    : M (option string) :=
  let url := fiverr_search_url keyword page_number in
  log INFO (AttemptingFetch url) ;>
  try_except
    (let! page := driver_get url in
     log INFO WaitingForLoad ;>
     emit (Sleep PageLoadWait) ;>
     let! page_html := lift page in
     if says_no_results page_html
     then log WARNING (AppearsEmptyOrError page_number) ;> ret (Some no_results_page)
     else log INFO (FetchedHtml page_number) ;> ret (Some page_html))
    (fun e =>
       match e with
       | WebDriverException | TimeoutException =>
           log WARNING (WebDriverError page_number e) ;> raise e
       | _ =>
           log ERROR (UnexpectedFetchError page_number e) ;> ret None
       end).

(** The decorated function. *)
Definition get_page_html (keyword : string) (page_number : nat) : M (option string) :=
  Tenacity.retry
    (Tenacity.wait_exponential 1 RETRY_WAIT_MIN_SECONDS RETRY_WAIT_MAX_SECONDS)
    Tenacity.retry_if_transient
    (fun e attempt_number => log INFO (Retrying keyword page_number e attempt_number))
    (get_page_html_attempt keyword page_number)
    RETRY_ATTEMPTS.

(** ** [main]: the pagination loop and the saving phase (lines 445-503)

    The set-up of the output directory and of the browser, and the clean-up,
    are outside the model.  With a parser that gives a tree for every text
    nothing raises out of the loop, and the handlers of lines 505-510 are not
    reached; [Guarded.main] below has them. *)

Variable BeautifulSoup : string -> Soup.node.

Definition search_keyword : string := "python developer".

(** The [for page_num in range(...)] loop (lines 457-492): the result is
    [all_gigs_data] and [pages_actually_scraped] when the loop ends, by
    exhaustion or by [break]. *)
Fixpoint pagination_loop (pages : list nat) (all_gigs_data : list dict)
    (pages_actually_scraped : nat) : M (list dict * nat) :=
  match pages with
  | [] => ret (all_gigs_data, pages_actually_scraped)
  | page_num :: rest =>
      let next (all_gigs_data : list dict) : M (list dict * nat) :=
        (if (page_num <? MAX_PAGES_TO_SCRAPE)%nat
         then log INFO WaitingBeforeNextPage ;> emit (Sleep InterPageDelay)
         else ret tt) ;>
        pagination_loop rest all_gigs_data page_num in
      log INFO (ProcessingPage page_num) ;>
      let! html_content :=
        try_except (get_page_html search_keyword page_num)
          (fun e => log ERROR (FailedAfterRetries page_num e) ;> ret None) in
      match html_content with
      | Some (String _ _ as html_content) =>
          let! gigs_on_page := parse_gigs BeautifulSoup html_content in
          match gigs_on_page with
          | _ :: _ =>
              log INFO (ExtractedGigs (List.length gigs_on_page) page_num) ;>
              next (all_gigs_data ++ gigs_on_page)
          | [] =>
              log INFO (NoGigsOnPage page_num) ;>
              if (1 <? page_num)%nat
              then log INFO (AssumingEndOfResults page_num) ;>
                   ret (all_gigs_data, page_num)
              else next all_gigs_data
          end
      | _ =>
          log ERROR (ContentWasNone page_num) ;>
          ret (all_gigs_data, page_num)
      end
  end.

Definition main : M unit :=
  let! r := pagination_loop (seq 1 MAX_PAGES_TO_SCRAPE) [] O in
  let '(all_gigs_data, pages_actually_scraped) := r in
  log INFO (ScrapingFinished pages_actually_scraped (List.length all_gigs_data)) ;>
  match all_gigs_data with
  | _ :: _ =>
      log INFO (PreparingToSave (List.length all_gigs_data)) ;>
      emit (SaveCsv all_gigs_data) ;>
      emit (SaveJson all_gigs_data) ;>
      log INFO SavingCompleted
  | [] => log WARNING NoGigsCollected
  end.

End Browser.

(** The state a run starts in. *)
Definition initial_world : world := World O [].

(** ** Vocabulary of the properties *)

(** The cards [parse_gigs] loops over (lines 133-141): the primary selectors'
    matches, or the fallback's when there are none. *)
Definition located_cards (soup : Soup.node) : list Soup.path :=
  match Soup.select soup [] Selectors.gig_cards with
  | [] => Soup.find_all soup ["article"; "div"] Selectors.gig_and_card
  | cards => cards
  end.

(** The cards of a text: none for the empty text, which [parse_gigs] does not
    parse (line 116). *)
Definition cards_of (BeautifulSoup : string -> Soup.node) (html_content : string)
    : list Soup.path :=
  if PyStr.falsy html_content then [] else located_cards (BeautifulSoup html_content).

(** The record [extract_card] appends for a card. *)
Definition record_of (doc : Soup.node) (card : Soup.path) : dict :=
  match extract_card doc card (O, O) initial_world with
  | (Ok gig, _) => gig
  | (Raise _, _) => error_record
  end.

(** [m] can only return values that satisfy [Q]. *)
Definition yields {A} (m : M A) (Q : A -> Prop) : Prop :=
  forall w a w', m w = (Ok a, w') -> Q a.

(** [m1] and [m2] end the same way, with the same value or exception,
    whatever the state. *)
Definition same_outcome {A} (m1 m2 : M A) : Prop :=
  forall w1 w2, fst (m1 w1) = fst (m2 w2).

(** [m] navigates nowhere and adds to the trace only events in [P]. *)
Definition emits {A} (P : event -> Prop) (m : M A) : Prop :=
  forall w, exists evs,
    trace (snd (m w)) = trace w ++ evs
    /\ Forall P evs
    /\ navigations (snd (m w)) = navigations w.

(** The log records of [extract_card]: warnings and errors about one card. *)
Definition about_a_card (ev : event) : Prop :=
  match ev with
  | Log _ (UnusualUrl _ _) | Log _ (TitleNotFound _) | Log _ (SellerNameNotFound _)
  | Log _ (SellerCountryNotFound _) | Log _ (PriceNotFound _)
  | Log _ (RatingNotFoundInArea _) | Log _ (ReviewCountNotFoundInArea _)
  | Log _ (RatingNotFoundFallback _) | Log _ (ErrorParsingCard _ _) => True
  | _ => False
  end.

(** The exception a navigation ends in, if any. *)
Definition raises (r : response) : option exn :=
  match r with
  | GetRaises e | SourceRaises e => Some e
  | PageSource _ => None
  end.

(** The waits between attempts that a trace records, in order. *)
Fixpoint backoff_waits (evs : list event) : list Z :=
  match evs with
  | [] => []
  | Sleep (Backoff seconds) :: evs' => seconds :: backoff_waits evs'
  | _ :: evs' => backoff_waits evs'
  end.

(** The navigations that a trace records. *)
Fixpoint navigations_in (evs : list event) : nat :=
  match evs with
  | [] => O
  | Navigate _ :: evs' => S (navigations_in evs')
  | _ :: evs' => navigations_in evs'
  end.

(** Whether a navigation ends in an exception that [retry] retries. *)
Definition transient (r : response) : bool :=
  match raises r with
  | Some e => Tenacity.retry_if_transient e
  | None => false
  end.

(** The wait of [get_page_html] after a failed attempt. *)
Definition backoff (attempt_number : nat) : Z :=
  Tenacity.wait_exponential 1 RETRY_WAIT_MIN_SECONDS RETRY_WAIT_MAX_SECONDS
    attempt_number.

(** ** Example pages and browsers *)

Module Examples.
Import Soup.

(** A results page around the given cards. *)
Definition page (cards : list node) : node :=
  Tag "[document]" ∅ [Tag "html" ∅ [Tag "body" ∅ cards]].

(** The text of a results page around the given cards. *)
Definition html_page (cards : string) : string :=
  "<html><body>" +:+ cards +:+ "</body></html>".

(** A card with a rating area that holds no review count. *)
Definition rated_html : string :=
  html_page
    ("<div class='gig-card'><a href='/gigs/foo?source=x'>Logo design</a>"
     +:+ "<div class='rating'><b>4.9</b></div></div>").

Definition rated_card : node :=
  Tag "div" {[ "class" := "gig-card" ]}
    [ Tag "a" {[ "href" := "/gigs/foo?source=x" ]} [Text "Logo design"];
      Tag "div" {[ "class" := "rating" ]} [Tag "b" ∅ [Text "4.9"]] ].

(** A card whose review count is a lone point. *)
Definition broken_html : string :=
  html_page
    ("<div class='gig-card'><a href='/gigs/foo?source=x'>Logo design</a>"
     +:+ "<span data-testid='review-count'>.</span></div>").

Definition broken_card : node :=
  Tag "div" {[ "class" := "gig-card" ]}
    [ Tag "a" {[ "href" := "/gigs/foo?source=x" ]} [Text "Logo design"];
      Tag "span" {[ "data-testid" := "review-count" ]} [Text "."] ].

(** A card with a review count outside any rating area. *)
Definition counted_html : string :=
  html_page
    ("<div class='gig-card'><a href='/gigs/bar'>Web design</a>"
     +:+ "<span data-testid='review-count'>(1.2k)</span></div>").

Definition counted_card : node :=
  Tag "div" {[ "class" := "gig-card" ]}
    [ Tag "a" {[ "href" := "/gigs/bar" ]} [Text "Web design"];
      Tag "span" {[ "data-testid" := "review-count" ]} [Text "(1.2k)"] ].

(** The two cards above on one page. *)
Definition two_cards_html : string :=
  html_page
    ("<div class='gig-card'><a href='/gigs/bar'>Web design</a>"
     +:+ "<span data-testid='review-count'>(1.2k)</span></div>"
     +:+ "<div class='gig-card'><a href='/gigs/foo?source=x'>Logo design</a>"
     +:+ "<span data-testid='review-count'>.</span></div>").

(** What [html.parser] makes of the example pages; any other text is taken
    for a page without cards, as [no_results_page] is. *)
Definition html_parser (html : string) : node :=
  if String.eqb html rated_html then page [rated_card]
  else if String.eqb html broken_html then page [broken_card]
  else if String.eqb html counted_html then page [counted_card]
  else if String.eqb html two_cards_html then page [counted_card; broken_card]
  else page [].

(** A browser that shows the page without services first and then fails with an
    error that is not a WebDriver error. *)
Definition browser_without_results (n : nat) (url : string) : response :=
  match n with
  | O => PageSource "<html><body>No services found for your search</body></html>"
  | S _ => GetRaises OtherException
  end.

(** A browser that times out twice and then shows a page of one card. *)
Definition browser_slow_start (n : nat) (url : string) : response :=
  match n with
  | O => GetRaises TimeoutException
  | S O => SourceRaises WebDriverException
  | S (S _) => PageSource counted_html
  end.

(** A browser that always times out. *)
Definition browser_down (n : nat) (url : string) : response :=
  GetRaises TimeoutException.

(** A browser that fails at once with an unknown error. *)
Definition browser_broken (n : nat) (url : string) : response :=
  GetRaises OtherException.

End Examples.

(** ** The parser that rejects markup, and the handlers of [main]

    [parse_gigs], the loop over the pages and [main] above take the HTML
    parser as a function that accepts every text.  [BeautifulSoup] can also
    raise: bs4 raises [ParserRejectedMarkup] when [html.parser] rejects the
    text.  The call (line 128) is inside no [try] of [parse_gigs], and the
    call of [parse_gigs] in [main] (line 469) is inside the outer [try] only,
    so that the exception ends the run in the handlers of lines 505-510,
    before the saving phase.  [Guarded] has the three functions with a parser
    that can raise, and [main] with those handlers; the set-up of the browser
    and the clean-up of the [finally] block stay outside the model. *)

Module Guarded.

Section Parser.

(** [BeautifulSoup(html_content, 'html.parser')], which returns a tree or
    raises. *)
Variable BeautifulSoup : string -> result Soup.node.

Definition parse_gigs (html_content : string) : M (list dict) :=
  if PyStr.falsy html_content
  then log WARNING HtmlContentEmpty ;> ret []
  else
    log INFO StartingToParse ;>
    let! soup := lift (BeautifulSoup html_content) in
    let gig_cards := Soup.select soup [] Selectors.gig_cards in
    log INFO (FoundPrimary (List.length gig_cards)) ;>
    let! gig_cards :=
      match gig_cards with
      | [] =>
          log INFO TryingFallback ;>
          let gig_cards := Soup.find_all soup ["article"; "div"] Selectors.gig_and_card in
          log INFO (FoundFallback (List.length gig_cards)) ;>
          ret gig_cards
      | _ :: _ => ret gig_cards
      end in
    match gig_cards with
    | [] => log WARNING NoGigCardsFound ;> ret []
    | _ :: _ =>
        let! gigs_data := parse_cards soup (List.length gig_cards) O gig_cards [] in
        (match gigs_data with
         | [] => log WARNING CardsFoundNoData
         | _ :: _ => ret tt
         end) ;>
        log INFO (ParsedGigs (List.length gigs_data)) ;>
        ret gigs_data
    end.

End Parser.

Section Browser.

Variable driver : nat -> string -> response.
Variable BeautifulSoup : string -> result Soup.node.

(** The loop over the pages (lines 457-492): an exception of [parse_gigs]
    (line 469) is caught by no handler of the loop. *)
Fixpoint pagination_loop (pages : list nat) (all_gigs_data : list dict)
    (pages_actually_scraped : nat) : M (list dict * nat) :=
  match pages with
  | [] => ret (all_gigs_data, pages_actually_scraped)
  | page_num :: rest =>
      let next (all_gigs_data : list dict) : M (list dict * nat) :=
        (if (page_num <? MAX_PAGES_TO_SCRAPE)%nat
         then log INFO WaitingBeforeNextPage ;> emit (Sleep InterPageDelay)
         else ret tt) ;>
        pagination_loop rest all_gigs_data page_num in
      log INFO (ProcessingPage page_num) ;>
      let! html_content :=
        try_except (get_page_html driver search_keyword page_num)
          (fun e => log ERROR (FailedAfterRetries page_num e) ;> ret None) in
      match html_content with
      | Some (String _ _ as html_content) =>
          let! gigs_on_page := parse_gigs BeautifulSoup html_content in
          match gigs_on_page with
          | _ :: _ =>
              log INFO (ExtractedGigs (List.length gigs_on_page) page_num) ;>
              next (all_gigs_data ++ gigs_on_page)
          | [] =>
              log INFO (NoGigsOnPage page_num) ;>
              if (1 <? page_num)%nat
              then log INFO (AssumingEndOfResults page_num) ;>
                   ret (all_gigs_data, page_num)
              else next all_gigs_data
          end
      | _ =>
          log ERROR (ContentWasNone page_num) ;>
          ret (all_gigs_data, page_num)
      end
  end.

(** [main] from the loop to the handlers (lines 456-510): an exception in
    the loop skips the saving phase and is logged as critical by the handler
    of its class; [TimeoutException] is a [WebDriverException]. *)
Definition main : M unit :=
  try_except
    (let! r := pagination_loop (seq 1 MAX_PAGES_TO_SCRAPE) [] O in
     let '(all_gigs_data, pages_actually_scraped) := r in
     log INFO (ScrapingFinished pages_actually_scraped (List.length all_gigs_data)) ;>
     match all_gigs_data with
     | _ :: _ =>
         log INFO (PreparingToSave (List.length all_gigs_data)) ;>
         emit (SaveCsv all_gigs_data) ;>
         emit (SaveJson all_gigs_data) ;>
         log INFO SavingCompleted
     | [] => log WARNING NoGigsCollected
     end)
    (fun e =>
       match e with
       | WebDriverException | TimeoutException =>
           log CRITICAL (CriticalWebDriverError e)
       | _ => log CRITICAL (CriticalUnexpectedError e)
       end).

End Browser.

End Guarded.

(** ** Saving (scraper.py, lines 343-401): the keyword in the name of a file
    and the columns of the CSV file

    The files are written by pandas and by the json module; what the scraper
    computes itself is the name of a file and the list of columns. *)

Module Output.

(** [s.replace(a, b)] for one-character [a] and [b]. *)
Fixpoint replace_char (a b : ascii) (s : string) : string :=
  match s with
  | EmptyString => EmptyString
  | String c s' => String (if Ascii.eqb c a then b else c) (replace_char a b s')
  end.

(** [keyword.replace(" ", "_").lower()] (lines 360 and 393). *)
Definition sanitized_keyword (keyword : string) : string :=
  PyStr.lower (replace_char " " "_" keyword).

(** The order of the columns in the CSV file (line 366). *)
Definition column_order : list string :=
  [ "title"; "seller_name"; "seller_level"; "seller_country"; "price"; "rating";
    "num_reviews"; "gig_url" ].

(** [col in pd.DataFrame(data).columns]: the frame of a list of records has a
    column for every key of every record. *)
Definition in_columns (data : list dict) (col : string) : bool :=
  existsb (fun record => bool_decide (is_Some (record !! col))) data.

(** [df_columns] (line 368): the columns that are written, in their order. *)
Definition df_columns (data : list dict) : list string :=
  List.filter (in_columns data) column_order.

End Output.

(** ** Vocabulary of the properties of the fields, the fetch and the run *)

(** [s.count(c)] *)
Fixpoint count_char (c : ascii) (s : string) : nat :=
  match s with
  | EmptyString => O
  | String d s' => if Ascii.eqb d c then S (count_char c s') else count_char c s'
  end.

(** A run of digits and points that [float] takes for a number: at least one
    digit and at most one point. *)
Definition float_literal (run : string) : bool :=
  negb (PyStr.forallb (fun c => negb (PyStr.is_digit c)) run)
  && (count_char "." run <=? 1)%nat.

(** Text without white space at either end: [s == s.strip()]. *)
Definition trimmed (s : string) : Prop := PyStr.strip s = s.

(** The records [extract_fields] can build: the initial record, changed by
    the assignments of lines 160-254. *)
Inductive filled : dict -> Prop :=
  | filled_initial : filled initial_gig_info
  | filled_title d text :
      filled d -> filled (<["title" := Some (PyStr.strip text)]> d)
  | filled_gig_url d gig_url_raw :
      filled d -> gig_url_raw <> "" ->
      filled (<["gig_url" := Some (fst (normalize_gig_url gig_url_raw))]> d)
  | filled_seller_name d text :
      filled d -> filled (<["seller_name" := Some (PyStr.strip text)]> d)
  | filled_seller_level d text :
      filled d -> filled (<["seller_level" := Some (PyStr.strip text)]> d)
  | filled_no_seller_level d :
      filled d -> filled (<["seller_level" := Some "N/A"]> d)
  | filled_seller_country d text :
      filled d -> filled (<["seller_country" := Some (PyStr.strip text)]> d)
  | filled_price d text :
      filled d -> filled (<["price" := clean_price text]> d)
  | filled_rating d text :
      filled d -> filled (<["rating" := clean_rating text]> d)
  | filled_num_reviews d text n :
      filled d -> clean_reviews text = Ok n -> filled (<["num_reviews" := n]> d)
  | filled_no_reviews d :
      filled d -> filled (<["num_reviews" := Some "0"]> d).

(** The text fields hold stripped text. *)
Definition text_fields_trimmed (d : dict) : Prop :=
  Forall (fun k => forall v, d !! k = Some (Some v) -> trimmed v)
    ["title"; "seller_name"; "seller_level"; "seller_country"].

(** The number fields hold numbers as text. *)
Definition number_fields_numeric (d : dict) : Prop :=
  (forall price, d !! "price" = Some (Some price) ->
     PyStr.forallb Re.digit_dot price = true)
  /\ (forall rating, d !! "rating" = Some (Some rating) ->
        rating <> "" /\ PyStr.forallb Re.digit_dot rating = true)
  /\ (forall num_reviews, d !! "num_reviews" = Some (Some num_reviews) ->
        num_reviews <> "" /\ PyStr.forallb PyStr.is_digit num_reviews = true).

(** The log records among the events. *)
Definition is_log (ev : event) : Prop :=
  match ev with Log _ _ => True | _ => False end.

(** The warnings among the events. *)
Definition is_warning (ev : event) : Prop :=
  match ev with Log WARNING _ => True | _ => False end.

(** The cards whose extraction a trace reports as failed (line 259), in
    order. *)
Fixpoint error_cards (evs : list event) : list card_id :=
  match evs with
  | [] => []
  | Log ERROR (ErrorParsingCard card _) :: evs' => card :: error_cards evs'
  | _ :: evs' => error_cards evs'
  end.

(** The positions, counted from [i + 1], of the placeholder among records. *)
Fixpoint placeholders (i : nat) (gigs : list dict) : list nat :=
  match gigs with
  | [] => []
  | gig :: gigs' =>
      if bool_decide (gig = error_record)
      then S i :: placeholders (S i) gigs'
      else placeholders (S i) gigs'
  end.

(** The records of a page: what [parse_gigs] returns for its text. *)
Definition records_of (BeautifulSoup : string -> Soup.node) (html_content : string)
    : list dict :=
  map (record_of (BeautifulSoup html_content)) (cards_of BeautifulSoup html_content).

(** What [get_page_html] returns for a page source (lines 88-94). *)
Definition document_of (page_source : string) : string :=
  if says_no_results page_source then no_results_page else page_source.

(** The events of one fetch: log records, navigations, the wait for the page
    and the waits between attempts. *)
Definition fetch_event (ev : event) : Prop :=
  match ev with
  | Log _ _ | Navigate _ | Sleep PageLoadWait | Sleep (Backoff _) => True
  | _ => False
  end.

(** The events of scraping: every event but the saving of a file. *)
Definition scraping_event (ev : event) : Prop :=
  match ev with
  | SaveCsv _ | SaveJson _ => False
  | _ => True
  end.

(** The files a trace saves, in order. *)
Fixpoint saves (evs : list event) : list event :=
  match evs with
  | [] => []
  | (SaveCsv _ | SaveJson _) as ev :: evs' => ev :: saves evs'
  | _ :: evs' => saves evs'
  end.

(** The delays between pages that a trace records. *)
Fixpoint inter_page_delays (evs : list event) : nat :=
  match evs with
  | [] => O
  | Sleep InterPageDelay :: evs' => S (inter_page_delays evs')
  | _ :: evs' => inter_page_delays evs'
  end.

(** [m] adds to the trace only events in [P], and navigates as often as the
    trace records. *)
Definition performs {A} (P : event -> Prop) (m : M A) : Prop :=
  forall w, exists evs,
    snd (m w) = World (navigations w + navigations_in evs) (trace w ++ evs)
    /\ Forall P evs.

(** The end of one turn of the loop over the pages (lines 487-492): the delay
    before the next page, if there is one, and the turns that follow. *)
Definition next_page (driver : nat -> string -> response)
    (BeautifulSoup : string -> Soup.node) (page_num : nat) (rest : list nat)
    (all_gigs_data : list dict) : M (list dict * nat) :=
  (if (page_num <? MAX_PAGES_TO_SCRAPE)%nat
   then log INFO WaitingBeforeNextPage ;> emit (Sleep InterPageDelay)
   else ret tt) ;>
  pagination_loop driver BeautifulSoup rest all_gigs_data page_num.

(** What the loop over [pages] does, for every state it starts in: it
    returns, with the records it was given and more; it only scrapes; it
    navigates at most [RETRY_ATTEMPTS] times a page; it waits between pages
    at most once for every page before the last; and it ends at one of the
    pages, after a navigation. *)
Definition loop_contract (driver : nat -> string -> response)
    (BeautifulSoup : string -> Soup.node) (pages : list nat) : Prop :=
  forall (all_gigs_data : list dict) (pages_actually_scraped n : nat) (t : list event),
  exists collected last_page evs,
    pagination_loop driver BeautifulSoup pages all_gigs_data pages_actually_scraped
      (World n t)
    = (Ok (all_gigs_data ++ collected, last_page),
       World (n + navigations_in evs) (t ++ evs))
    /\ Forall scraping_event evs
    /\ (navigations_in evs <= RETRY_ATTEMPTS * List.length pages)%nat
    /\ (inter_page_delays evs
        <= List.length (filter (fun p => (p < MAX_PAGES_TO_SCRAPE)%nat) pages))%nat
    /\ match pages with
       | [] => last_page = pages_actually_scraped
       | _ :: _ => In last_page pages /\ (1 <= navigations_in evs)%nat
       end.

(** ** Further browsers *)

Module Scenarios.

(** A browser that shows a page of one card and then another. *)
Definition browser_two_pages (n : nat) (url : string) : response :=
  match n with
  | O => PageSource Examples.counted_html
  | S _ => PageSource Examples.rated_html
  end.

(** A browser that shows an empty page. *)
Definition browser_blank (n : nat) (url : string) : response := PageSource "".

(** A browser that times out once and then shows the page without
    services. *)
Definition browser_slow_without_results (n : nat) (url : string) : response :=
  match n with
  | O => GetRaises TimeoutException
  | S _ => PageSource "<html><body>No services found for your search</body></html>"
  end.

(** A parser of HTML that rejects the page of [Examples.rated_html]. *)
Definition strict_parser (html : string) : result Soup.node :=
  if String.eqb html Examples.rated_html then Raise OtherException
  else Ok (Examples.html_parser html).

End Scenarios.

(** * Properties *)

(** ** Strings and regular expressions *)

Module PyStrFacts.
Import PyStr.

Lemma string_of_uint_digits (d : Decimal.uint) :
  forallb is_digit (NilEmpty.string_of_uint d) = true.
Proof. induction d; simpl; auto. Qed.

Lemma string_of_uint_empty (d : Decimal.uint) :
  NilEmpty.string_of_uint d = "" -> d = Decimal.Nil.
Proof. destruct d; simpl; congruence. Qed.

Lemma str_of_int_digits (n : Z) : forallb is_digit (str_of_int n) = true.
Proof. apply string_of_uint_digits. Qed.

Lemma str_of_int_nonempty (n : Z) : str_of_int n <> "".
Proof.
  unfold str_of_int. intros H. apply string_of_uint_empty in H.
  destruct (Z.to_N n) as [|p]; simpl in H; [discriminate|].
  exact (DecimalPos.Unsigned.to_uint_nonnil p H).
Qed.

Lemma forallb_weaken (p q : ascii -> bool) (s : string) :
  (forall c, p c = true -> q c = true) ->
  forallb p s = true -> forallb q s = true.
Proof.
  intros Hpq. induction s as [|c s IH]; simpl; [done|].
  intros [Hc Hs]%andb_true_iff. rewrite (Hpq c Hc). simpl. auto.
Qed.

(** A digit is no capital letter, bracket or comma: cleaning leaves it. *)
Lemma lower_char_digit (c : ascii) : is_digit c = true -> lower_char c = c.
Proof.
  destruct c as [[] [] [] [] [] [] [] []]; vm_compute; congruence.
Qed.

Lemma lower_digits (s : string) : forallb is_digit s = true -> lower s = s.
Proof.
  induction s as [|c s IH]; simpl; [done|].
  intros [Hc Hs]%andb_true_iff. by rewrite lower_char_digit, IH.
Qed.

Lemma remove_char_absent (c : ascii) (s : string) :
  forallb (fun d => negb (Ascii.eqb d c)) s = true -> remove_char c s = s.
Proof.
  induction s as [|d s IH]; simpl; [done|].
  intros [Hd Hs]%andb_true_iff. apply negb_true_iff in Hd.
  by rewrite Hd, IH.
Qed.

Lemma remove_char_forallb (p : ascii -> bool) (c : ascii) (s : string) :
  forallb p s = true -> forallb p (remove_char c s) = true.
Proof.
  induction s as [|d s IH]; simpl; [done|].
  intros [Hd Hs]%andb_true_iff.
  destruct (Ascii.eqb d c); simpl; [auto|]. by rewrite Hd, IH.
Qed.

Lemma remove_char_removed (c : ascii) (s : string) :
  forallb (fun d => negb (Ascii.eqb d c)) (remove_char c s) = true.
Proof.
  induction s as [|d s IH]; simpl; [done|].
  destruct (Ascii.eqb d c) eqn:E; simpl; [done|]. by rewrite E, IH.
Qed.

Lemma split_head_absent (c : ascii) (s : string) :
  forallb (fun d => negb (Ascii.eqb d c)) s = true -> split_head c s = s.
Proof.
  induction s as [|d s IH]; simpl; [done|].
  intros [Hd Hs]%andb_true_iff. apply negb_true_iff in Hd.
  by rewrite Hd, IH.
Qed.

Lemma forallb_and (p q : ascii -> bool) (s : string) :
  forallb p s = true -> forallb q s = true ->
  forallb (fun c => p c && q c) s = true.
Proof.
  induction s as [|c s IH]; simpl; [done|].
  intros [-> Hp]%andb_true_iff [-> Hq]%andb_true_iff. simpl. auto.
Qed.

End PyStrFacts.

Module ReFacts.
Import PyStr Re.

Lemma span_all (p : ascii -> bool) (s : string) :
  forallb p s = true -> span p s = (s, "").
Proof.
  induction s as [|c s IH]; simpl; [done|].
  intros [-> Hs]%andb_true_iff. by rewrite IH.
Qed.

Lemma span_run (p : ascii -> bool) (s run rest : string) :
  span p s = (run, rest) -> forallb p run = true.
Proof.
  revert run rest. induction s as [|c s IH]; simpl; intros run rest.
  - by intros [= <- <-].
  - destruct (p c) eqn:Hc.
    + destruct (span p s) as [run' rest'] eqn:E. intros [= <- <-].
      simpl. rewrite Hc. simpl. eauto.
    + by intros [= <- <-].
Qed.

(** A string of the class is its own first run. *)
Lemma search_run_all (p : ascii -> bool) (s : string) :
  s <> "" -> forallb p s = true -> search_run p s = Some (s, "").
Proof.
  destruct s as [|c s]; [done|]. intros _ H.
  pose proof H as H'. simpl in H'. apply andb_true_iff in H' as [Hc _].
  unfold search_run. rewrite Hc. by rewrite span_all.
Qed.

(** The run that [search_run] finds is not empty and lies in the class. *)
Lemma search_run_some (p : ascii -> bool) (s run rest : string) :
  search_run p s = Some (run, rest) -> run <> "" /\ forallb p run = true.
Proof.
  induction s as [|c s IH]; simpl; [done|].
  destruct (p c) eqn:Hc; [|done].
  destruct (span p s) as [run' rest'] eqn:E. intros [= <- <-]. split; [done|].
  simpl. rewrite Hc. simpl. eauto using span_run.
Qed.

(** Without a character of the class there is no match. *)
Lemma search_run_none (p : ascii -> bool) (s : string) :
  forallb (fun c => negb (p c)) s = true -> search_run p s = None.
Proof.
  induction s as [|c s IH]; simpl; [done|].
  intros [Hc Hs]%andb_true_iff. apply negb_true_iff in Hc. rewrite Hc. auto.
Qed.

End ReFacts.

(** ** Binary64 rounding *)

Module PyFloatFacts.
Import PyFloat.

(** *** Rounding to the nearest integer *)

Lemma rne_bounds (p q : Z) : 0 < q -> p / q <= rne p q <= p / q + 1.
Proof.
  intros Hq. unfold rne.
  destruct (2 * (p mod q) ?= q); [destruct (Z.even (p / q))|..]; lia.
Qed.

Lemma rne_multiple (k q : Z) : 0 < q -> rne (k * q) q = k.
Proof.
  intros Hq. unfold rne.
  rewrite Z.mod_mul, Z.div_mul by lia.
  replace (2 * 0) with 0 by lia.
  destruct (Z.compare_spec 0 q); lia.
Qed.

(** Below the midpoint the quotient is rounded down. *)
Lemma rne_down (p q : Z) : 0 < q -> 2 * (p mod q) < q -> rne p q = p / q.
Proof.
  intros Hq H. unfold rne.
  destruct (Z.compare_spec (2 * (p mod q)) q); lia.
Qed.

(** *** The binary magnitude of a rational *)

Lemma log2_bounds (n : Z) : 0 < n -> 2 ^ Z.log2 n <= n < 2 ^ (Z.log2 n + 1).
Proof.
  intros Hn. pose proof (Z.log2_spec n Hn). rewrite <- Z.add_1_r in H. lia.
Qed.

Lemma pow2_pos (k : Z) : 0 <= k -> 0 < 2 ^ k.
Proof. intros. apply Z.pow_pos_nonneg; lia. Qed.

Lemma pow2_split (a b : Z) : 0 <= a -> 0 <= b -> 2 ^ (a + b) = 2 ^ a * 2 ^ b.
Proof. intros. apply Z.pow_add_r; lia. Qed.

Lemma mag_upper (p q K : Z) :
  0 < p -> 0 < q -> 0 <= K -> 0 <= K + mag p q ->
  p * 2 ^ K < q * 2 ^ (K + mag p q).
Proof.
  intros Hp Hq HK. unfold mag, le_scaled.
  pose proof (log2_bounds p Hp) as [Hp1 Hp2].
  pose proof (log2_bounds q Hq) as [Hq1 Hq2].
  pose proof (Z.log2_nonneg p) as Ha. pose proof (Z.log2_nonneg q) as Hb.
  set (a := Z.log2 p) in *. set (b := Z.log2 q) in *.
  pose proof (pow2_pos K HK) as HK2.
  destruct (0 <=? a - b) eqn:Hd.
  - apply Z.leb_le in Hd.
    destruct (q * 2 ^ (a - b) <=? p) eqn:Hc; intros Hex.
    + (* the magnitude is a - b + 1 *)
      replace (K + (a - b + 1)) with (K + (a + 1 - b)) by lia.
      assert (2 ^ (a + 1) = 2 ^ b * 2 ^ (a + 1 - b)) as E.
      { rewrite <- pow2_split by lia. f_equal. lia. }
      rewrite pow2_split by lia.
      pose proof (pow2_pos (a + 1 - b) ltac:(lia)).
      set (X := 2 ^ (a + 1 - b)) in *.
      assert (p < q * X) by nia. nia.
    + apply Z.leb_gt in Hc. rewrite pow2_split by lia.
      pose proof (pow2_pos (a - b) Hd). nia.
  - apply Z.leb_gt in Hd.
    destruct (q <=? p * 2 ^ (- (a - b))) eqn:Hc; intros Hex.
    + replace (K + (a - b + 1)) with (K + a + 1 - b) in * by lia.
      assert (2 ^ (K + a + 1) = 2 ^ b * 2 ^ (K + a + 1 - b)) as E.
      { rewrite <- pow2_split by lia. f_equal. lia. }
      assert (2 ^ (K + a + 1) = 2 ^ K * 2 ^ (a + 1)) as E'.
      { rewrite <- pow2_split by lia. f_equal. lia. }
      pose proof (pow2_pos (K + a + 1 - b) ltac:(lia)).
      set (X := 2 ^ (K + a + 1 - b)) in *.
      assert (p * 2 ^ K < 2 ^ b * X) by nia. nia.
    + apply Z.leb_gt in Hc.
      assert (2 ^ K = 2 ^ (- (a - b)) * 2 ^ (K + (a - b))) as E.
      { rewrite <- pow2_split by lia. f_equal. lia. }
      pose proof (pow2_pos (K + (a - b)) ltac:(lia)).
      pose proof (pow2_pos (- (a - b)) ltac:(lia)).
      rewrite E. set (X := 2 ^ (K + (a - b))) in *.
      set (Y := 2 ^ (- (a - b))) in *. nia.
Qed.

Lemma mag_lower (p q K : Z) :
  0 < p -> 0 < q -> 0 <= K -> 0 <= K + mag p q - 1 ->
  q * 2 ^ (K + mag p q - 1) <= p * 2 ^ K.
Proof.
  intros Hp Hq HK. unfold mag, le_scaled.
  pose proof (log2_bounds p Hp) as [Hp1 Hp2].
  pose proof (log2_bounds q Hq) as [Hq1 Hq2].
  pose proof (Z.log2_nonneg p) as Ha. pose proof (Z.log2_nonneg q) as Hb.
  set (a := Z.log2 p) in *. set (b := Z.log2 q) in *.
  pose proof (pow2_pos K HK) as HK2.
  destruct (0 <=? a - b) eqn:Hd.
  - apply Z.leb_le in Hd.
    destruct (q * 2 ^ (a - b) <=? p) eqn:Hc; intros Hex.
    + apply Z.leb_le in Hc.
      replace (K + (a - b + 1) - 1) with (K + (a - b)) by lia.
      rewrite pow2_split by lia. nia.
    + (* the magnitude is a - b *)
      assert (2 ^ (K + a) = 2 ^ (b + 1) * 2 ^ (K + (a - b) - 1)) as E.
      { rewrite <- pow2_split by lia. f_equal. lia. }
      assert (2 ^ (K + a) = 2 ^ K * 2 ^ a) as E'.
      { rewrite <- pow2_split by lia. f_equal. }
      pose proof (pow2_pos (K + (a - b) - 1) ltac:(lia)).
      set (X := 2 ^ (K + (a - b) - 1)) in *.
      assert (q * X <= 2 ^ (b + 1) * X) by nia. nia.
  - apply Z.leb_gt in Hd.
    destruct (q <=? p * 2 ^ (- (a - b))) eqn:Hc; intros Hex.
    + apply Z.leb_le in Hc.
      replace (K + (a - b + 1) - 1) with (K + (a - b)) by lia.
      assert (2 ^ K = 2 ^ (- (a - b)) * 2 ^ (K + (a - b))) as E.
      { rewrite <- pow2_split by lia. f_equal. lia. }
      pose proof (pow2_pos (K + (a - b)) ltac:(lia)).
      rewrite E. set (X := 2 ^ (K + (a - b))) in *.
      set (Y := 2 ^ (- (a - b))) in *. nia.
    + assert (2 ^ (K + a) = 2 ^ (b + 1) * 2 ^ (K + (a - b) - 1)) as E.
      { rewrite <- pow2_split by lia. f_equal. lia. }
      assert (2 ^ (K + a) = 2 ^ K * 2 ^ a) as E'.
      { rewrite <- pow2_split by lia. f_equal. }
      pose proof (pow2_pos (K + (a - b) - 1) ltac:(lia)).
      set (X := 2 ^ (K + (a - b) - 1)) in *.
      assert (q * X <= 2 ^ (b + 1) * X) by nia. nia.
Qed.

(** *** Rounding to a float *)

Lemma fexp_cases (ex : Z) :
  (fexp ex = ex - 53 /\ -1074 <= ex - 53) \/ (fexp ex = -1074 /\ ex - 53 < -1074).
Proof. unfold fexp. lia. Qed.

Lemma round_wf (p q : Z) : 0 <= p -> 0 < q -> wf (round p q).
Proof.
  intros Hp Hq. unfold round.
  destruct (p =? 0) eqn:Hp0; [simpl; lia|].
  apply Z.eqb_neq in Hp0. assert (0 < p) as Hp' by lia.
  set (ex := mag p q). set (e := fexp ex).
  destruct (0 <=? e) eqn:He.
  - apply Z.leb_le in He.
    destruct (2 ^ 1024 <=? rne p (q * 2 ^ e) * 2 ^ e) eqn:Ho; [done|].
    apply Z.leb_gt in Ho. simpl. split; [|done].
    pose proof (pow2_pos e He) as H2e.
    assert (0 < q * 2 ^ e) as Hqe by nia.
    pose proof (rne_bounds p (q * 2 ^ e) Hqe) as [Hlo Hhi].
    pose proof (Z.div_pos p (q * 2 ^ e) ltac:(lia) Hqe).
    destruct (fexp_cases ex) as [[E _]|[E _]]; fold e in E; [|lia].
    pose proof (mag_upper p q 0 Hp' Hq ltac:(lia) ltac:(fold ex; lia)) as Hu.
    fold ex in Hu. rewrite Z.add_0_l, Z.mul_1_r in Hu.
    replace ex with (e + 53) in Hu by lia. rewrite pow2_split in Hu by lia.
    assert (p / (q * 2 ^ e) < 2 ^ 53); [|lia].
    apply Z.div_lt_upper_bound; [lia|]. lia.
  - apply Z.leb_gt in He.
    destruct (2 ^ 1024 <=? rne (p * 2 ^ (- e)) q * 2 ^ e) eqn:Ho; [done|].
    simpl. split; [|lia].
    pose proof (pow2_pos (- e) ltac:(lia)) as H2e.
    pose proof (rne_bounds (p * 2 ^ (- e)) q Hq) as [Hlo Hhi].
    pose proof (Z.div_pos (p * 2 ^ (- e)) q ltac:(nia) Hq).
    assert ((p * 2 ^ (- e)) / q < 2 ^ 53); [|lia].
    apply Z.div_lt_upper_bound; [lia|].
    destruct (Z.le_gt_cases 0 (- e + ex)) as [Hs|Hs].
    + pose proof (mag_upper p q (- e) Hp' Hq ltac:(lia) ltac:(fold ex; lia)) as Hu.
      fold ex in Hu.
      assert (2 ^ (- e + ex) <= 2 ^ 53).
      { apply Z.pow_le_mono_r; [lia|]. destruct (fexp_cases ex); lia. }
      nia.
    + pose proof (mag_upper p q (- ex) Hp' Hq ltac:(lia) ltac:(fold ex; lia)) as Hu.
      fold ex in Hu. rewrite Z.add_opp_diag_l, Z.mul_1_r in Hu.
      assert (2 ^ (- e) <= 2 ^ (- ex)) by (apply Z.pow_le_mono_r; lia).
      nia.
Qed.

Lemma mag_int (n : Z) : 0 < n -> mag n 1 = Z.log2 n + 1.
Proof.
  intros Hn. unfold mag, le_scaled. simpl Z.log2. rewrite Z.sub_0_r.
  pose proof (Z.log2_nonneg n). pose proof (log2_bounds n Hn) as [Hlo _].
  destruct (0 <=? Z.log2 n) eqn:E; [|apply Z.leb_gt in E; lia].
  rewrite Z.mul_1_l. by apply Z.leb_le in Hlo as ->.
Qed.

(** A representable [int] goes through [float] and [int] unchanged. *)
Lemma round_representable (n : Z) : representable n -> to_int (round n 1) = Ok n.
Proof.
  intros [[Hn0 Hn] (M & E & -> & HM & HE)]. unfold round.
  destruct (M * 2 ^ E =? 0) eqn:H0.
  { apply Z.eqb_eq in H0. rewrite H0. reflexivity. }
  apply Z.eqb_neq in H0. set (n := M * 2 ^ E) in *.
  assert (0 < n) as Hpos by lia.
  rewrite (mag_int n Hpos).
  pose proof (Z.log2_nonneg n) as Hl. pose proof (log2_bounds n Hpos) as [Hlo Hhi].
  destruct (fexp_cases (Z.log2 n + 1)) as [[-> _]|[_ ?]]; [|lia].
  set (e := Z.log2 n + 1 - 53).
  destruct (0 <=? e) eqn:He.
  - apply Z.leb_le in He. rewrite Z.mul_1_l.
    assert (exists k, n = k * 2 ^ e) as [k Hk].
    { destruct (Z.le_gt_cases e E) as [HeE|HeE].
      - exists (M * 2 ^ (E - e)). unfold n.
        replace E with (E - e + e) at 1 by lia. rewrite pow2_split by lia. lia.
      - assert (2 ^ (E + 53) <= n) as Hge.
        { etransitivity; [|exact Hlo]. apply Z.pow_le_mono_r; lia. }
        rewrite pow2_split in Hge by lia. pose proof (pow2_pos E HE).
        assert (M = 2 ^ 53) as HM' by (unfold n in Hge; nia).
        assert (Z.log2 n = 53 + E) as Hlog.
        { unfold n. rewrite HM', <- pow2_split by lia. apply Z.log2_pow2. lia. }
        exists (2 ^ 52). unfold n. rewrite HM', <- !pow2_split by lia.
        f_equal. lia. }
    assert (rne n (2 ^ e) = k) as ->.
    { rewrite Hk. apply rne_multiple, pow2_pos, He. }
    rewrite <- Hk. apply Z.ltb_lt in Hn. rewrite Z.leb_antisym, Hn. simpl.
    by rewrite Z.shiftl_mul_pow2, <- Hk by lia.
  - apply Z.leb_gt in He.
    replace (n * 2 ^ (- e)) with (n * 2 ^ (- e) * 1) by lia.
    rewrite rne_multiple by lia.
    rewrite (Z.pow_neg_r 2 e He), Z.mul_0_r. simpl.
    rewrite Z.shiftl_div_pow2 by lia.
    rewrite Z.div_mul; [done|]. pose proof (pow2_pos (- e)). lia.
Qed.

(** Truncating a float gives a representable [int]. *)
Lemma to_int_representable (x : float) (n : Z) :
  wf x -> to_int x = Ok n -> representable n.
Proof.
  destruct x as [m e| |]; simpl; [|done..].
  intros [Hm Hov] [= <-].
  destruct (Z.le_gt_cases 0 e) as [He|He].
  - rewrite Z.shiftl_mul_pow2 by lia. pose proof (pow2_pos e He).
    split; [split; [nia|auto]|]. exists m, e. lia.
  - rewrite Z.shiftl_div_pow2 by lia.
    pose proof (pow2_pos (- e) ltac:(lia)) as H2.
    pose proof (Z.div_pos m (2 ^ (- e)) ltac:(lia) H2).
    assert (m / (2 ^ (- e)) <= m) by (apply Z.div_le_upper_bound; nia).
    assert (2 ^ 53 < 2 ^ 1024) by (apply Z.pow_lt_mono_r; lia).
    split; [lia|]. exists (m / (2 ^ (- e))), 0. rewrite Z.mul_1_r. lia.
Qed.

Lemma mul_wf (x y : float) : wf x -> wf y -> wf (mul x y).
Proof.
  destruct x as [m1 e1| |], y as [m2 e2| |]; simpl; try done;
    try (intros; by case_match).
  intros [H1 _] [H2 _].
  destruct (0 <=? e1 + e2) eqn:E.
  - apply Z.leb_le in E. pose proof (pow2_pos _ E).
    apply round_wf; nia.
  - apply Z.leb_gt in E. apply round_wf; [nia|]. apply pow2_pos. lia.
Qed.

Lemma of_decimal_wf (v : Z) (k : nat) : 0 <= v -> wf (of_decimal v k).
Proof.
  intros. apply round_wf; [done|]. apply Z.pow_pos_nonneg; lia.
Qed.

Lemma digits_value_nonneg (s : string) (v : Z) : digits_value s = Some v -> 0 <= v.
Proof. unfold digits_value. case_match; [|done]. intros [= <-]. lia. Qed.

Lemma of_str_wf (s : string) (x : float) : of_str s = Ok x -> wf x.
Proof.
  unfold of_str. repeat case_match; try done; intros [= <-];
    eauto using of_decimal_wf, digits_value_nonneg.
Qed.

Lemma of_int_wf (n : Z) : 0 <= n -> wf (of_int n).
Proof. intros. by apply round_wf. Qed.

(** A quotient of two numbers below 2^50 is rounded to a float with the same
    integer part: the float cannot reach the next integer, because the
    quotient stays at least [1 / q] below it and the floats there are less
    than [2 / q] apart. *)
Lemma round_floor (p q : Z) :
  0 <= p < 2 ^ 50 -> 0 < q < 2 ^ 50 -> to_int (round p q) = Ok (p / q).
Proof.
  intros [Hp0 Hp] [Hq0 Hq]. unfold round.
  destruct (p =? 0) eqn:E0.
  { apply Z.eqb_eq in E0. subst p. by rewrite Z.div_0_l by lia. }
  apply Z.eqb_neq in E0. assert (0 < p) as Hpos by lia.
  set (ex := mag p q). set (e := fexp ex).
  (* the magnitude is at most 50, so the last place is below the point *)
  assert (ex <= 50) as Hex.
  { destruct (Z.le_gt_cases ex 50) as [|Hgt]; [done|exfalso].
    pose proof (mag_lower p q 0 Hpos Hq0 ltac:(lia) ltac:(fold ex; lia)) as Hl.
    fold ex in Hl. rewrite Z.add_0_l, Z.mul_1_r in Hl.
    assert (2 ^ 50 <= 2 ^ (ex - 1)) by (apply Z.pow_le_mono_r; lia). nia. }
  assert (e < 0) as He by (destruct (fexp_cases ex); lia).
  destruct (0 <=? e) eqn:E1; [apply Z.leb_le in E1; lia|].
  rewrite (Z.pow_neg_r 2 e He), Z.mul_0_r. simpl. f_equal.
  rewrite Z.shiftl_div_pow2 by lia.
  set (S := 2 ^ (- e)). assert (0 < S) as HS by (apply pow2_pos; lia).
  (* the quotient is further than half a last place from the next integer *)
  assert (q < 2 * S) as HqS.
  { destruct (Z.le_gt_cases 1 ex) as [H1|H1].
    - pose proof (mag_lower p q 0 Hpos Hq0 ltac:(lia) ltac:(fold ex; lia)) as Hl.
      fold ex in Hl. rewrite Z.add_0_l, Z.mul_1_r in Hl.
      assert (2 ^ 50 = 2 ^ (ex - 1) * 2 ^ (51 - ex)) as E50.
      { rewrite <- pow2_split by lia. f_equal. lia. }
      assert (2 ^ (51 - ex) <= S).
      { apply Z.pow_le_mono_r; [lia|]. destruct (fexp_cases ex); lia. }
      pose proof (pow2_pos (ex - 1) ltac:(lia)).
      assert (q < 2 ^ (51 - ex)) by nia. lia.
    - assert (2 ^ 50 <= S).
      { apply Z.pow_le_mono_r; [lia|]. destruct (fexp_cases ex); lia. }
      lia. }
  set (N := p / q). set (r := p mod q).
  assert (p = q * N + r) as Hdiv by (apply Z.div_mod; lia).
  assert (0 <= r < q) as Hr by (apply Z.mod_pos_bound; lia).
  assert (0 <= N) as HN by (apply Z.div_pos; lia).
  set (t := (r * S) / q).
  assert (r * S = q * t + (r * S) mod q) as Ht by (apply Z.div_mod; lia).
  assert (0 <= (r * S) mod q < q) as Htr by (apply Z.mod_pos_bound; lia).
  assert (0 <= t) as Ht0 by (apply Z.div_pos; nia).
  assert (t < S) as HtS by (apply Z.div_lt_upper_bound; nia).
  assert (p * S = (N * S + t) * q + (r * S) mod q) as Hy by nia.
  assert ((p * S) / q = N * S + t) as Hyq.
  { symmetry. apply (Z.div_unique _ _ _ ((r * S) mod q)); lia. }
  assert ((p * S) mod q = (r * S) mod q) as Hym.
  { symmetry. apply (Z.mod_unique _ _ (N * S + t)); lia. }
  assert (N * S <= rne (p * S) q < (N + 1) * S) as Hm.
  { pose proof (rne_bounds (p * S) q Hq0) as [Hlo Hhi]. rewrite Hyq in *.
    split; [lia|].
    destruct (Z.le_gt_cases (S - 1) t) as [Hlast|]; [|lia].
    rewrite rne_down, Hyq; [lia|lia|]. rewrite Hym. nia. }
  symmetry. apply (Z.div_unique _ _ _ (rne (p * S) q - N * S)); lia.
Qed.

End PyFloatFacts.

(** ** Decimal digits *)

Module DigitFacts.
Import PyStr PyFloat PyStrFacts.

Lemma of_uint_acc_value (d : Decimal.uint) (acc : positive) :
  Z.pos (Pos.of_uint_acc d acc) = value_from (Z.pos acc) (NilEmpty.string_of_uint d).
Proof.
  revert acc. induction d; intros acc; simpl; [done|..];
    rewrite IHd; f_equal; unfold digit_of; simpl; lia.
Qed.

Lemma of_uint_value (d : Decimal.uint) :
  Z.of_N (N.of_uint d) = value_from 0 (NilEmpty.string_of_uint d).
Proof.
  unfold N.of_uint. induction d; simpl; [done|exact IHd|..];
    rewrite of_uint_acc_value; reflexivity.
Qed.

Lemma uint_of_digits (s : string) :
  forallb is_digit s = true -> exists d, NilEmpty.uint_of_string s = Some d.
Proof.
  induction s as [|c s IH]; simpl; [eauto|].
  intros [Hc Hs]%andb_true_iff. destruct (IH Hs) as [d ->].
  destruct c as [[] [] [] [] [] [] [] []]; try discriminate Hc; simpl; eauto.
Qed.

(** On a string of digits, [digits_value] is the value read from the left. *)
Lemma digits_value_spec (s : string) :
  forallb is_digit s = true -> digits_value s = Some (value_from 0 s).
Proof.
  intros H. unfold digits_value. destruct (uint_of_digits s H) as [d Hd].
  rewrite Hd, of_uint_value. by rewrite (NilEmpty.sus s d Hd).
Qed.

Lemma digits_value_str_of_int (n : Z) :
  0 <= n -> digits_value (str_of_int n) = Some n.
Proof.
  intros Hn. unfold digits_value, str_of_int.
  by rewrite NilEmpty.usu, DecimalN.Unsigned.of_to, Z2N.id.
Qed.

Lemma value_from_app (acc : Z) (s1 s2 : string) :
  value_from acc (s1 +:+ s2) = value_from (value_from acc s1) s2.
Proof. revert acc. induction s1 as [|c s1 IH]; intros acc; simpl; auto. Qed.

Lemma value_from_shift (acc : Z) (s : string) :
  value_from acc s = acc * 10 ^ Z.of_nat (String.length s) + value_from 0 s.
Proof.
  revert acc. induction s as [|c s IH]; intros acc.
  - simpl. lia.
  - cbn [value_from String.length]. rewrite IH, (IH (0 * 10 + digit_of c)).
    rewrite Nat2Z.inj_succ, Z.pow_succ_r by lia. lia.
Qed.

Lemma digit_of_range (c : ascii) : is_digit c = true -> 0 <= digit_of c <= 9.
Proof.
  unfold is_digit, in_range, digit_of.
  intros [H1 H2]%andb_true_iff. apply N.leb_le in H1, H2. lia.
Qed.

Lemma value_from_bounds (acc : Z) (s : string) :
  0 <= acc -> forallb is_digit s = true ->
  0 <= value_from acc s < (acc + 1) * 10 ^ Z.of_nat (String.length s).
Proof.
  revert acc. induction s as [|c s IH]; intros acc Hacc.
  - simpl. lia.
  - cbn [value_from String.length forallb]. intros [Hc Hs]%andb_true_iff.
    pose proof (digit_of_range c Hc).
    destruct (IH (acc * 10 + digit_of c) ltac:(lia) Hs) as [Hlo Hhi].
    rewrite Nat2Z.inj_succ, Z.pow_succ_r by lia.
    assert (0 < 10 ^ Z.of_nat (String.length s)) by (apply Z.pow_pos_nonneg; lia).
    split; [done|]. nia.
Qed.

Lemma value_from_range (s : string) :
  forallb is_digit s = true ->
  0 <= value_from 0 s < 10 ^ Z.of_nat (String.length s).
Proof.
  intros H. pose proof (value_from_bounds 0 s ltac:(lia) H). lia.
Qed.

Lemma pow10_le_15 (k : nat) : (k <= 15)%nat -> 10 ^ Z.of_nat k < 2 ^ 50.
Proof.
  intros Hk. apply Z.le_lt_trans with (10 ^ 15); [|reflexivity].
  apply Z.pow_le_mono_r; lia.
Qed.

End DigitFacts.

(** ** The field cleaners *)

Module CleanerFacts.
Import PyStr PyFloat Re PyStrFacts ReFacts PyFloatFacts DigitFacts.

Lemma digit_is_digit_dot (c : ascii) : is_digit c = true -> digit_dot c = true.
Proof. unfold digit_dot. by intros ->. Qed.

Lemma digit_is_digit_dot_comma (c : ascii) :
  digit_dot c = true -> digit_dot_comma c = true.
Proof. unfold digit_dot, digit_dot_comma. by intros ->. Qed.

Lemma digit_is_not (d : ascii) :
  is_digit d = false ->
  forall c, is_digit c = true -> negb (Ascii.eqb c d) = true.
Proof.
  intros Hd c Hc. apply negb_true_iff, Ascii.eqb_neq. congruence.
Qed.

Lemma digits_without (d : ascii) (s : string) :
  is_digit d = false -> forallb is_digit s = true ->
  forallb (fun c => negb (Ascii.eqb c d)) s = true.
Proof. intros Hd. apply forallb_weaken, digit_is_not, Hd. Qed.

Lemma after_absent (c : ascii) (s : string) :
  forallb (fun d => negb (Ascii.eqb d c)) s = true -> after c s = None.
Proof.
  induction s as [|d s IH]; simpl; [done|].
  intros [Hd Hs]%andb_true_iff. apply negb_true_iff in Hd. rewrite Hd. auto.
Qed.

Lemma normalised_digits (s : string) :
  forallb is_digit s = true -> normalised s = s.
Proof.
  intros H. unfold normalised. rewrite lower_digits by done.
  by rewrite (remove_char_absent "(" s), (remove_char_absent ")" s),
    (remove_char_absent "," s) by by apply digits_without.
Qed.

Lemma representable_0 : representable 0.
Proof. split; [split; [done|reflexivity]|]. exists 0, 0. lia. Qed.

(** Whatever string [clean_reviews] returns is [str] of an [int] that a float
    holds exactly. *)
Lemma clean_reviews_image (s y : string) :
  clean_reviews s = Ok (Some y) -> exists n, representable n /\ y = str_of_int n.
Proof.
  unfold clean_reviews. destruct (falsy s); [done|].
  destruct (search_number_k _) as [[group1 group2]|].
  - destruct (of_str group1) as [num|] eqn:Hnum; [|done].
    apply of_str_wf in Hnum.
    set (scaled := if String.eqb group2 "k" then _ else _).
    assert (wf scaled) as Hwf.
    { unfold scaled. destruct (String.eqb group2 "k"); [|done].
      apply mul_wf; [done|]. by apply of_int_wf. }
    destruct (to_int scaled) as [n|] eqn:Hn; [|done].
    intros [= <-]. eauto using to_int_representable.
  - intros [= <-]. exists 0. split; [apply representable_0|done].
Qed.

(** On a non-empty input [clean_reviews] never returns [None]. *)
Lemma clean_reviews_some (s : string) (r : option string) :
  s <> "" -> clean_reviews s = Ok r -> exists y, r = Some y.
Proof.
  unfold clean_reviews. destruct s; [done|]. intros _. simpl falsy. cbv iota.
  repeat case_match; try done; intros [= <-]; eauto.
Qed.

(** [clean_reviews] returns its own results unchanged. *)
Lemma clean_reviews_canonical (n : Z) :
  representable n -> clean_reviews (str_of_int n) = Ok (Some (str_of_int n)).
Proof.
  intros Hn. pose proof (str_of_int_digits n) as Hd.
  pose proof (str_of_int_nonempty n) as Hne.
  unfold clean_reviews. fold (normalised (str_of_int n)).
  rewrite normalised_digits by done.
  destruct (falsy (str_of_int n)) eqn:Hf.
  { destruct (str_of_int n); done. }
  unfold search_number_k.
  rewrite search_run_all;
    [|done|by eapply forallb_weaken; [apply digit_is_digit_dot|]].
  simpl String.eqb. cbv iota. unfold of_str.
  rewrite after_absent, split_head_absent by by apply digits_without.
  destruct Hn as [[Hn0 Hn1] Hrep].
  destruct (str_of_int n) as [|a s0] eqn:E; [done|].
  rewrite <- E, digits_value_str_of_int by done.
  unfold of_decimal. simpl Z.of_nat. rewrite Z.pow_0_r.
  by rewrite round_representable by (split; done).
Qed.

Lemma clean_reviews_idempotent (x y : string) :
  clean_reviews x = Ok (Some y) -> clean_reviews y = Ok (Some y).
Proof.
  intros (n & Hn & ->)%clean_reviews_image. by apply clean_reviews_canonical.
Qed.

(** [clean_rating] returns its own results unchanged. *)
Lemma clean_rating_idempotent (raw s : string) :
  clean_rating raw = Some s -> clean_rating s = Some s.
Proof.
  unfold clean_rating. destruct (falsy raw); [done|].
  destruct (search_run digit_dot raw) as [[group0 rest]|] eqn:E; [|done].
  intros [= <-]. apply search_run_some in E as [Hne Hall].
  destruct group0; [done|]. simpl falsy. cbv iota.
  by rewrite search_run_all.
Qed.

(** [clean_price] returns its non-empty results unchanged. *)
Lemma clean_price_idempotent_nonempty (raw s : string) :
  clean_price raw = Some s -> s <> "" -> clean_price s = Some s.
Proof.
  unfold clean_price. destruct (falsy raw); [done|].
  destruct (search_run digit_dot_comma raw) as [[group0 rest]|] eqn:E; [|done].
  intros [= <-] Hne. apply search_run_some in E as [_ Hall].
  destruct (remove_char "," group0) eqn:Es; [done|]. simpl falsy. cbv iota.
  rewrite <- Es. rewrite search_run_all; [|by rewrite Es|by apply remove_char_forallb].
  f_equal. apply remove_char_absent, remove_char_removed.
Qed.

Lemma digit_dot_lower (c : ascii) : digit_dot (lower_char c) = digit_dot c.
Proof. destruct c as [[] [] [] [] [] [] [] []]; reflexivity. Qed.

Lemma lower_no_digit_dot (s : string) :
  forallb (fun c => negb (digit_dot c)) s = true ->
  forallb (fun c => negb (digit_dot c)) (lower s) = true.
Proof.
  induction s as [|c s IH]; simpl; [done|].
  intros [Hc Hs]%andb_true_iff. by rewrite digit_dot_lower, Hc, IH.
Qed.

(** Without a digit or a point in the input there is no match, and the
    result is ["0"]. *)
Lemma clean_reviews_no_number (s : string) :
  s <> "" -> forallb (fun c => negb (digit_dot c)) s = true ->
  clean_reviews s = Ok (Some "0").
Proof.
  intros Hne H. unfold clean_reviews. destruct s; [done|]. simpl falsy. cbv iota.
  unfold search_number_k. rewrite search_run_none; [done|].
  by do 3 apply remove_char_forallb; apply lower_no_digit_dot.
Qed.

Lemma split_head_app (c : ascii) (s1 s2 : string) :
  forallb (fun d => negb (Ascii.eqb d c)) s1 = true ->
  split_head c (s1 +:+ String c s2) = s1.
Proof.
  induction s1 as [|d s1 IH]; simpl.
  - by rewrite Ascii.eqb_refl.
  - intros [Hd Hs]%andb_true_iff. apply negb_true_iff in Hd. by rewrite Hd, IH.
Qed.

Lemma after_app (c : ascii) (s1 s2 : string) :
  forallb (fun d => negb (Ascii.eqb d c)) s1 = true ->
  after c (s1 +:+ String c s2) = Some s2.
Proof.
  induction s1 as [|d s1 IH]; simpl.
  - by rewrite Ascii.eqb_refl.
  - intros [Hd Hs]%andb_true_iff. apply negb_true_iff in Hd. by rewrite Hd, IH.
Qed.

Lemma forallb_app (p : ascii -> bool) (s1 s2 : string) :
  forallb p s1 = true -> forallb p s2 = true -> forallb p (s1 +:+ s2) = true.
Proof.
  induction s1 as [|c s1 IH]; simpl; [done|].
  intros [-> Hs]%andb_true_iff H2. simpl. auto.
Qed.

Lemma length_app (s1 s2 : string) :
  String.length (s1 +:+ s2) = (String.length s1 + String.length s2)%nat.
Proof. induction s1 as [|c s1 IH]; simpl; auto. Qed.

(** The float of a literal [i.f] of at most 15 digits truncates to the number
    that [i] denotes. *)
Lemma of_str_short_decimal (i f : string) :
  forallb is_digit i = true -> forallb is_digit f = true ->
  i +:+ f <> "" -> (String.length i + String.length f <= 15)%nat ->
  exists num, of_str (i +:+ String "." f) = Ok num
              /\ to_int num = Ok (value_from 0 i).
Proof.
  intros Hi Hf Hne Hlen. unfold of_str.
  rewrite split_head_app, after_app by by apply digits_without.
  destruct (i +:+ f) as [|a s0] eqn:E; [done|]. rewrite <- E.
  rewrite digits_value_spec by by apply forallb_app.
  eexists. split; [reflexivity|].
  rewrite value_from_app, value_from_shift.
  pose proof (value_from_range i Hi) as Hvi.
  pose proof (value_from_range f Hf) as Hvf.
  set (q := 10 ^ Z.of_nat (String.length f)) in *.
  set (vi := value_from 0 i) in *. set (vf := value_from 0 f) in *.
  assert (0 < q) by (apply Z.pow_pos_nonneg; lia).
  assert (q < 2 ^ 50) by (apply pow10_le_15; lia).
  assert (vi * q + vf < 2 ^ 50).
  { apply Z.lt_trans with (10 ^ Z.of_nat (String.length i + String.length f));
      [|apply pow10_le_15; lia].
    rewrite Nat2Z.inj_add, Z.pow_add_r by lia. fold q. nia. }
  unfold of_decimal. fold q. rewrite round_floor by lia. f_equal.
  symmetry. apply (Z.div_unique _ _ _ vf); lia.
Qed.

End CleanerFacts.

Import PyStr PyFloat Re PyStrFacts ReFacts PyFloatFacts DigitFacts CleanerFacts.

(** The values the docstrings and the specification give. *)
Example clean_price_values :
  clean_price "$10.50" = Some "10.50" /\ clean_price "1,200" = Some "1200"
  /\ clean_price "" = None.
Proof. repeat split; reflexivity. Qed.

Example clean_rating_values :
  clean_rating "4.9 stars" = Some "4.9" /\ clean_rating "" = None.
Proof. repeat split; reflexivity. Qed.

(** Where [clean_reviews] raises: a run of digits and points that is no
    number, and a number beyond the floats. *)
Example clean_reviews_raises :
  clean_reviews "." = Raise ValueError
  /\ clean_reviews "1.2.3" = Raise ValueError
  /\ clean_reviews ("1" +:+ PyStr.str_of_int (10 ^ 308) +:+ "k") = Raise OverflowError.
Proof. repeat split; vm_compute; reflexivity. Qed.

(** Rounding shows in the thousands: 1.005 is no float, and the float next
    to it times 1000 is just below 1005. *)
Example clean_reviews_rounding :
  clean_reviews "1.005k" = Ok (Some "1004")
  /\ clean_reviews "12345678901234567890" = Ok (Some "12345678901234567168").
Proof. repeat split; vm_compute; reflexivity. Qed.

(** [clean_reviews] returns [None] for the empty string (line 297).  For
    every other input it never returns [None]: when it returns, it returns a
    non-empty string of decimal digits.  An input without digit and without
    point, such as "garbage", gives "0"; "(1.2k)" gives "1200" and "25"
    gives "25". *)
Theorem clean_reviews_defined_unless_empty :
  clean_reviews "" = Ok None
  /\ (forall s r, s <> "" -> clean_reviews s = Ok r ->
        exists d, r = Some d /\ d <> "" /\ forallb is_digit d = true)
  /\ (forall s, s <> "" -> forallb (fun c => negb (digit_dot c)) s = true ->
        clean_reviews s = Ok (Some "0"))
  /\ clean_reviews "garbage" = Ok (Some "0")
  /\ clean_reviews "(1.2k)" = Ok (Some "1200")
  /\ clean_reviews "25" = Ok (Some "25").
Proof.
  split; [reflexivity|]. split; [|split; [exact clean_reviews_no_number|]].
  - intros s r Hne Hr. destruct (clean_reviews_some s r Hne Hr) as [d ->].
    exists d. split; [done|].
    apply clean_reviews_image in Hr as (n & _ & ->).
    split; [apply str_of_int_nonempty|apply str_of_int_digits].
  - repeat split; vm_compute; reflexivity.
Qed.

(** C2 at its failing input: [clean_reviews("")] is [None], not "0",
    although the docstring promises the count as a string, "0" if parsing
    fails (line 295), and line 306 gives "0" for every other input without
    a number. *)
Theorem clean_reviews_empty_is_None :
  clean_reviews "" = Ok None /\ clean_reviews "" <> Ok (Some "0").
Proof. split; [reflexivity|discriminate]. Qed.

(** C10, as the code has it.  When the first run of digits and points in the
    cleaned input is a literal [i.f] with at most 15 digits and no "k" follows
    it, [clean_reviews] returns the integer part [i] in canonical form and
    drops the fraction. *)
Theorem clean_reviews_truncates_short_decimal (s i f : string) :
  search_number_k (normalised s) = Some (i +:+ String "." f, "") ->
  forallb is_digit i = true -> forallb is_digit f = true ->
  i +:+ f <> "" -> (String.length i + String.length f <= 15)%nat ->
  clean_reviews s = Ok (Some (str_of_int (value_from 0 i))).
Proof.
  intros Hm Hi Hf Hne Hlen. unfold clean_reviews.
  destruct s as [|c s]; [done|]. simpl falsy. cbv iota.
  fold (normalised (String c s)). rewrite Hm.
  destruct (of_str_short_decimal i f Hi Hf Hne Hlen) as (num & -> & Hn).
  simpl String.eqb. cbv iota. by rewrite Hn.
Qed.

Lemma clean_reviews_truncates_short_decimal_witness :
  clean_reviews "4.7" = Ok (Some "4").
Proof.
  apply (clean_reviews_truncates_short_decimal "4.7" "4" "7");
    [reflexivity|reflexivity|reflexivity|discriminate|simpl; lia].
Defined.

(** C10, as the spec states it, fails on a long literal: the float nearest to
    4.99999999999999999999 is 5.0, and the result is "5", not "4". *)
Lemma clean_reviews_long_decimal_rounds_up :
  search_number_k (normalised "4.99999999999999999999")
    = Some ("4" +:+ String "." "99999999999999999999", "")
  /\ clean_reviews "4.99999999999999999999" = Ok (Some "5").
Proof. split; vm_compute; reflexivity. Qed.

(** C8 at its failing input: [clean_price] turns "," into the empty string,
    and cleaning that again gives [None]. *)
Theorem clean_price_not_idempotent_on_comma :
  clean_price "," = Some "" /\ clean_price "" = None.
Proof. split; reflexivity. Qed.

(** ** The monad *)

Module MonadFacts.

Lemma yields_ret {A} (a : A) (Q : A -> Prop) : Q a -> yields (ret a) Q.
Proof. intros H w a' w' [= <- _]. done. Qed.

Lemma yields_bind {A B} (m : M A) (k : A -> M B) (P : A -> Prop) (Q : B -> Prop) :
  yields m P -> (forall a, P a -> yields (k a) Q) -> yields (bind m k) Q.
Proof.
  intros Hm Hk w b w'. unfold bind.
  destruct (m w) as [[a|e] w1] eqn:E; [|done].
  intros H. eapply Hk; [|exact H]. eapply Hm, E.
Qed.

Lemma yields_seq {A B} (m : M A) (k : M B) (Q : B -> Prop) :
  yields k Q -> yields (bind m (fun _ => k)) Q.
Proof.
  intros Hk. apply (yields_bind m _ (fun _ => True)); [done|auto].
Qed.

Lemma yields_lift {A} (r : result A) (Q : A -> Prop) :
  (forall a, r = Ok a -> Q a) -> yields (lift r) Q.
Proof. intros H w a w' [= -> _]. auto. Qed.

Lemma yields_weaken {A} (m : M A) (P Q : A -> Prop) :
  yields m P -> (forall a, P a -> Q a) -> yields m Q.
Proof. intros Hm HPQ w a w' H. eauto. Qed.

Lemma same_ret {A} (a : A) : same_outcome (ret a) (ret a).
Proof. done. Qed.

Lemma same_log (l1 l2 : level) (m1 m2 : message) : same_outcome (log l1 m1) (log l2 m2).
Proof. done. Qed.

Lemma same_lift {A} (r : result A) : same_outcome (lift r) (lift r).
Proof. done. Qed.

Lemma same_bind {A B} (m1 m2 : M A) (k1 k2 : A -> M B) :
  same_outcome m1 m2 -> (forall a, same_outcome (k1 a) (k2 a)) ->
  same_outcome (bind m1 k1) (bind m2 k2).
Proof.
  intros Hm Hk w1 w2. unfold bind. specialize (Hm w1 w2).
  destruct (m1 w1) as [[a1|e1] w1'], (m2 w2) as [[a2|e2] w2'];
    simpl in Hm; simplify_eq; [apply Hk|done].
Qed.

Lemma same_try_except {A} (m1 m2 : M A) (h1 h2 : exn -> M A) :
  same_outcome m1 m2 -> (forall e, same_outcome (h1 e) (h2 e)) ->
  same_outcome (try_except m1 h1) (try_except m2 h2).
Proof.
  intros Hm Hh w1 w2. unfold try_except. specialize (Hm w1 w2).
  destruct (m1 w1) as [[a1|e1] w1'], (m2 w2) as [[a2|e2] w2'];
    simpl in Hm; simplify_eq; [done|apply Hh].
Qed.

Lemma emits_ret {A} (P : event -> Prop) (a : A) : emits P (ret a).
Proof. intros w. exists []. by rewrite app_nil_r. Qed.

Lemma emits_lift {A} (P : event -> Prop) (r : result A) : emits P (lift r).
Proof. intros w. exists []. by rewrite app_nil_r. Qed.

Lemma emits_raise {A} (P : event -> Prop) (e : exn) : emits P (@raise A e).
Proof. intros w. exists []. by rewrite app_nil_r. Qed.

Lemma emits_log (P : event -> Prop) (l : level) (m : message) :
  P (Log l m) -> emits P (log l m).
Proof. intros H w. exists [Log l m]. simpl. auto. Qed.

Lemma emits_bind {A B} (P : event -> Prop) (m : M A) (k : A -> M B) :
  emits P m -> (forall a, emits P (k a)) -> emits P (bind m k).
Proof.
  intros Hm Hk w. unfold bind. destruct (Hm w) as (evs & Ht & HP & Hn).
  destruct (m w) as [[a|e] w1]; simpl in *.
  - destruct (Hk a w1) as (evs' & Ht' & HP' & Hn').
    exists (evs ++ evs'). rewrite Ht', Ht, Hn', Hn, app_assoc.
    split; [done|]. split; [by apply Forall_app|done].
  - eauto.
Qed.

Lemma emits_try_except {A} (P : event -> Prop) (m : M A) (h : exn -> M A) :
  emits P m -> (forall e, emits P (h e)) -> emits P (try_except m h).
Proof.
  intros Hm Hh w. unfold try_except. destruct (Hm w) as (evs & Ht & HP & Hn).
  destruct (m w) as [[a|e] w1]; simpl in *.
  - eauto.
  - destruct (Hh e w1) as (evs' & Ht' & HP' & Hn').
    exists (evs ++ evs'). rewrite Ht', Ht, Hn', Hn, app_assoc.
    split; [done|]. split; [by apply Forall_app|done].
Qed.

Lemma emits_weaken {A} (P Q : event -> Prop) (m : M A) :
  (forall ev, P ev -> Q ev) -> emits P m -> emits Q m.
Proof.
  intros HPQ Hm w. destruct (Hm w) as (evs & Ht & HP & Hn).
  exists evs. split; [done|]. split; [|done]. eapply Forall_impl; eauto.
Qed.

End MonadFacts.

(** ** [parse_gigs] *)

Module ParseFacts.
Import MonadFacts.

Ltac same_step :=
  first [ apply same_ret | apply same_log | apply same_lift
        | apply same_bind; [|intros ?] | apply same_try_except; [|intros ?] ].

Ltac emits_step :=
  first [ apply emits_ret | apply emits_lift | apply emits_raise
        | apply emits_log; exact I
        | apply emits_bind; [|intros ?] | apply emits_try_except; [|intros ?] ].

Section Card.

Variable doc : Soup.node.
Variable card : Soup.path.

(** The card's position only shows in the log: the outcome is the same. *)
Lemma extract_fields_same (c1 c2 : card_id) :
  same_outcome (extract_fields doc card c1) (extract_fields doc card c2).
Proof.
  unfold extract_fields, extract_title_and_url, extract_seller_name,
    extract_seller_level, extract_seller_country, extract_price,
    extract_rating_and_reviews.
  repeat (repeat same_step; repeat case_match).
Qed.

Lemma extract_card_same (c1 c2 : card_id) :
  same_outcome (extract_card doc card c1) (extract_card doc card c2).
Proof.
  unfold extract_card. apply same_try_except; [apply extract_fields_same|].
  intros e. repeat same_step.
Qed.

(** [extract_card] does not raise: it returns the record of the card. *)
Lemma extract_card_returns (c : card_id) (w : world) :
  fst (extract_card doc card c w) = Ok (record_of doc card).
Proof.
  rewrite (extract_card_same c (O, O) w initial_world). unfold record_of.
  unfold extract_card, try_except.
  destruct (extract_fields doc card (O, O) initial_world) as [[gig|e] w']; done.
Qed.

Lemma extract_fields_emits (c : card_id) :
  emits about_a_card (extract_fields doc card c).
Proof.
  unfold extract_fields, extract_title_and_url, extract_seller_name,
    extract_seller_level, extract_seller_country, extract_price,
    extract_rating_and_reviews.
  repeat (repeat emits_step; repeat case_match).
Qed.

Lemma extract_card_emits (c : card_id) :
  emits about_a_card (extract_card doc card c).
Proof.
  unfold extract_card. apply emits_try_except; [apply extract_fields_emits|].
  intros e. repeat emits_step.
Qed.

End Card.

(** The loop over the cards appends the record of each card, in order. *)
Lemma parse_cards_spec (doc : Soup.node) (total : nat) (cards : list Soup.path) :
  forall (i : nat) (gigs_data : list dict) (w : world),
  exists evs,
    parse_cards doc total i cards gigs_data w
      = (Ok (gigs_data ++ map (record_of doc) cards),
         World (navigations w) (trace w ++ evs))
    /\ Forall about_a_card evs.
Proof.
  induction cards as [|card rest IH]; intros i gigs_data w.
  - exists []. simpl. rewrite !app_nil_r. by destruct w.
  - cbn [parse_cards]. unfold bind at 1.
    pose proof (extract_card_returns doc card (S i, total) w) as Hr.
    destruct (extract_card_emits doc card (S i, total) w) as (evs1 & Ht & HP & Hn).
    destruct (extract_card doc card (S i, total) w) as [r w1]. simpl in *.
    subst r. destruct (IH (S i) (gigs_data ++ [record_of doc card]) w1)
      as (evs2 & -> & HP2).
    exists (evs1 ++ evs2). rewrite Hn, Ht, <- !app_assoc. simpl.
    split; [done|]. by apply Forall_app.
Qed.

End ParseFacts.

Import MonadFacts ParseFacts.

Module GigFacts.
Import PyStr.

Ltac yields_step :=
  first [ apply yields_ret
        | apply yields_seq
        | eapply yields_bind; [|intros ? ?] ].

(** [split_head] keeps what comes before the first [c]. *)
Lemma split_head_spec (c : ascii) (s : string) :
  forallb (fun d => negb (Ascii.eqb d c)) (split_head c s) = true
  /\ (s = split_head c s \/ exists rest, s = split_head c s +:+ String c rest).
Proof.
  induction s as [|d s [IH1 IH2]]; simpl; [auto|].
  destruct (Ascii.eqb d c) eqn:E; simpl.
  - split; [done|]. right. apply Ascii.eqb_eq in E as ->. eauto.
  - rewrite E, IH1. split; [done|].
    destruct IH2 as [IH2|[rest IH2]].
    + left. f_equal. exact IH2.
    + right. exists rest.
      change (String d s = String d (split_head c s +:+ String c rest)).
      f_equal. exact IH2.
Qed.

Section Card.

Variable doc : Soup.node.
Variable card : Soup.path.
Variable card_identifier : card_id.

(** Each step after the title leaves the fields of the other steps alone. *)
Lemma extract_seller_name_keeps (k : string) (gig_info : dict) :
  k <> "seller_name" ->
  yields (extract_seller_name doc card card_identifier gig_info)
    (fun r => fst r !! k = gig_info !! k).
Proof.
  intros Hk. unfold extract_seller_name.
  repeat case_match; repeat yields_step; simpl; by rewrite ?lookup_insert_ne.
Qed.

Lemma extract_seller_level_keeps (k : string) (gig_info : dict) :
  k <> "seller_level" ->
  yields (extract_seller_level doc card gig_info) (fun d => d !! k = gig_info !! k).
Proof.
  intros Hk. unfold extract_seller_level.
  repeat case_match; repeat yields_step; by rewrite ?lookup_insert_ne.
Qed.

Lemma extract_seller_country_keeps (k : string) (container : option Soup.path)
    (gig_info : dict) :
  k <> "seller_country" ->
  yields (extract_seller_country doc card card_identifier container gig_info)
    (fun d => d !! k = gig_info !! k).
Proof.
  intros Hk. unfold extract_seller_country.
  repeat case_match; repeat yields_step; by rewrite ?lookup_insert_ne.
Qed.

Lemma extract_price_keeps (k : string) (gig_info : dict) :
  k <> "price" ->
  yields (extract_price doc card card_identifier gig_info)
    (fun d => d !! k = gig_info !! k).
Proof.
  intros Hk. unfold extract_price.
  repeat case_match; repeat yields_step; by rewrite ?lookup_insert_ne.
Qed.

Lemma extract_rating_and_reviews_keeps (k : string) (gig_info : dict) :
  k <> "rating" -> k <> "num_reviews" ->
  yields (extract_rating_and_reviews doc card card_identifier gig_info)
    (fun d => d !! k = gig_info !! k).
Proof.
  intros Hk1 Hk2 w d w'.
  unfold extract_rating_and_reviews, bind, ret, log, emit, lift.
  repeat case_match; intros; simplify_eq; by rewrite ?lookup_insert_ne.
Qed.

(** The country step leaves a country in the record when one was there. *)
Lemma extract_seller_country_defined (container : option Soup.path)
    (gig_info : dict) :
  (exists c, gig_info !! "seller_country" = Some (Some c)) ->
  yields (extract_seller_country doc card card_identifier container gig_info)
    (fun d => exists c, d !! "seller_country" = Some (Some c)).
Proof.
  intros H. unfold extract_seller_country.
  repeat case_match; repeat yields_step; rewrite ?lookup_insert_eq; eauto.
Qed.

(** The steps in sequence: what [extract_fields] returns for each step's
    result. *)
Lemma extract_fields_steps (w w' : world) (gig : dict) :
  extract_fields doc card card_identifier w = (Ok gig, w') ->
  exists d0 d1 container d2 d3 d4 w0 w1 w2 w3 w4,
    extract_title_and_url doc card card_identifier initial_gig_info w = (Ok d0, w0)
    /\ extract_seller_name doc card card_identifier d0 w0 = (Ok (d1, container), w1)
    /\ extract_seller_level doc card d1 w1 = (Ok d2, w2)
    /\ extract_seller_country doc card card_identifier container d2 w2 = (Ok d3, w3)
    /\ extract_price doc card card_identifier d3 w3 = (Ok d4, w4)
    /\ extract_rating_and_reviews doc card card_identifier d4 w4 = (Ok gig, w').
Proof.
  unfold extract_fields, bind.
  destruct (extract_title_and_url _ _ _ _ w) as [[d0|] w0] eqn:E0; [|done].
  destruct (extract_seller_name _ _ _ d0 w0) as [[[d1 container]|] w1] eqn:E1;
    [|done].
  simpl fst. simpl snd.
  destruct (extract_seller_level _ _ d1 w1) as [[d2|] w2] eqn:E2; [|done].
  destruct (extract_seller_country _ _ _ container d2 w2) as [[d3|] w3] eqn:E3;
    [|done].
  destruct (extract_price _ _ _ d3 w3) as [[d4|] w4] eqn:E4; [|done].
  intros H. exists d0, d1, container, d2, d3, d4, w0, w1, w2, w3, w4.
  repeat split; done.
Qed.

(** A record that is not the placeholder always names a country. *)
Lemma seller_country_defined :
  yields (extract_fields doc card card_identifier)
    (fun d => exists c, d !! "seller_country" = Some (Some c)).
Proof.
  intros w gig w' H.
  apply extract_fields_steps in H
    as (d0 & d1 & container & d2 & d3 & d4 & w0 & w1 & w2 & w3 & w4
        & H0 & H1 & H2 & H3 & H4 & H5).
  apply extract_rating_and_reviews_keeps with (k := "seller_country") in H5;
    [|done..].
  apply extract_price_keeps with (k := "seller_country") in H4; [|done].
  rewrite H5, H4.
  eapply extract_seller_country_defined; [|exact H3].
  apply extract_seller_level_keeps with (k := "seller_country") in H2; [|done].
  apply extract_seller_name_keeps with (k := "seller_country") in H1; [|done].
  simpl in H1. rewrite H2, H1. clear -H0. revert H0.
  unfold extract_title_and_url, bind, ret, log, emit.
  repeat case_match; intros; simplify_eq;
    rewrite ?lookup_insert_ne by done; by eexists.
Qed.

(** Without a rating area and without a review count in the card, the
    number of reviews is "0" (line 254). *)
Lemma num_reviews_default_without_area (w w' : world) (gig : dict) :
  Soup.select_one doc card Selectors.rating_review_area = None ->
  Soup.select_one doc card Selectors.review_count = None ->
  extract_fields doc card card_identifier w = (Ok gig, w') ->
  gig !! "num_reviews" = Some (Some "0").
Proof.
  intros Harea Hcount H.
  apply extract_fields_steps in H
    as (d0 & d1 & container & d2 & d3 & d4 & w0 & w1 & w2 & w3 & w4
        & _ & _ & _ & _ & _ & H5).
  revert H5. unfold extract_rating_and_reviews. rewrite Harea, Hcount.
  unfold bind, ret, log, emit. repeat case_match; intros; simplify_eq;
    by rewrite lookup_insert_eq.
Qed.

(** With a rating area that holds no review count, the number of reviews
    stays [None] (lines 240-241). *)
Lemma num_reviews_absent_in_area (w w' : world) (gig : dict) (area : Soup.path) :
  Soup.select_one doc card Selectors.rating_review_area = Some area ->
  Soup.select_one doc area Selectors.review_count = None ->
  extract_fields doc card card_identifier w = (Ok gig, w') ->
  gig !! "num_reviews" = Some None.
Proof.
  intros Harea Hcount H.
  apply extract_fields_steps in H
    as (d0 & d1 & container & d2 & d3 & d4 & w0 & w1 & w2 & w3 & w4
        & H0 & H1 & H2 & H3 & H4 & H5).
  revert H5. unfold extract_rating_and_reviews. rewrite Harea, Hcount.
  apply extract_price_keeps with (k := "num_reviews") in H4; [|done].
  apply extract_seller_country_keeps with (k := "num_reviews") in H3; [|done].
  apply extract_seller_level_keeps with (k := "num_reviews") in H2; [|done].
  apply extract_seller_name_keeps with (k := "num_reviews") in H1; [|done].
  simpl in H1.
  assert (d0 !! "num_reviews" = Some None) as Hd0.
  { clear -H0. revert H0. unfold extract_title_and_url, bind, ret, log, emit.
    repeat case_match; intros; simplify_eq; by rewrite ?lookup_insert_ne. }
  unfold bind, ret, log, emit. repeat case_match; intros; simplify_eq;
    rewrite ?lookup_insert_ne by done; congruence.
Qed.

End Card.

End GigFacts.

Import GigFacts.

Lemma located_cards_in_document_order (soup : Soup.node) :
  located_cards soup `sublist_of` Soup.descendants soup [].
Proof.
  unfold located_cards, Soup.select, Soup.find_all.
  destruct (filter _ (Soup.descendants soup [])) eqn:E.
  - apply sublist_filter.
  - rewrite <- E. apply sublist_filter.
Qed.

Lemma not_about_a_card (evs : list event) (ev : event) :
  Forall about_a_card evs -> ~ about_a_card ev -> ~ In ev evs.
Proof.
  intros Hall Hev Hin. rewrite Forall_forall in Hall.
  apply Hev, Hall. by apply list_elem_of_In.
Qed.

(** C9.  [parse_gigs] returns the record of every located card, one for one
    and in the order of the cards, which is document order; a card that
    raises counts with its placeholder.  Without a located card it returns the
    empty list and logs a warning: that of line 144 when both selector tiers
    found nothing, that of line 117 when the text is empty.  With a card it
    logs neither.  The warning of line 267, for cards found but none parsed,
    is a different one, and is never logged. *)
Theorem parse_gigs_one_record_per_card
    (BeautifulSoup : string -> Soup.node) (html_content : string) (w : world) :
  exists evs,
    parse_gigs BeautifulSoup html_content w
      = (Ok (map (record_of (BeautifulSoup html_content))
               (cards_of BeautifulSoup html_content)),
         World (navigations w) (trace w ++ evs))
    /\ cards_of BeautifulSoup html_content
         `sublist_of` Soup.descendants (BeautifulSoup html_content) []
    /\ (cards_of BeautifulSoup html_content = [] ->
        In (Log WARNING (if PyStr.falsy html_content
                         then HtmlContentEmpty else NoGigCardsFound)) evs)
    /\ (cards_of BeautifulSoup html_content <> [] ->
        ~ In (Log WARNING NoGigCardsFound) evs
        /\ ~ In (Log WARNING HtmlContentEmpty) evs)
    /\ ~ In (Log WARNING CardsFoundNoData) evs.
Proof.
  unfold cards_of. set (soup := BeautifulSoup html_content).
  pose proof (located_cards_in_document_order soup) as Hsub.
  destruct w as [n t]. unfold parse_gigs. fold soup.
  destruct html_content as [|c0 s0]; simpl PyStr.falsy; cbv iota.
  { exists [Log WARNING HtmlContentEmpty]. split; [done|].
    split; [apply sublist_nil_l|]. split; [simpl; tauto|]. split; [done|].
    simpl. intros [H|[]]. discriminate H. }
  unfold located_cards in *.
  generalize (parse_cards_spec soup). generalize (parse_cards soup).
  intros loop Hloop.
  destruct (Soup.select soup [] Selectors.gig_cards) as [|c1 primary];
    [destruct (Soup.find_all soup ["article"; "div"] Selectors.gig_and_card)
       as [|c2 fallback]|];
    unfold bind, log, emit, ret; simpl.
  - eexists. split; [by rewrite <- !app_assoc|].
    split; [done|]. simpl. split; [intros _; tauto|]. split; [done|].
    intros H. repeat destruct H as [H|H]; done.
  - match goal with
    | |- context [loop ?total ?i ?cards ?acc ?w0] =>
        destruct (Hloop total cards i acc w0) as (evs & -> & Hall)
    end.
    simpl. eexists. split; [by rewrite <- !app_assoc|].
    split; [done|]. split; [done|].
    split; [intros _; split|]; (simpl; intros H; repeat destruct H as [H|H]; try done;
      apply in_app_or in H as [H|H]; [|repeat destruct H as [H|H]; done];
      revert H; apply not_about_a_card; [exact Hall|intros []]).
  - match goal with
    | |- context [loop ?total ?i ?cards ?acc ?w0] =>
        destruct (Hloop total cards i acc w0) as (evs & -> & Hall)
    end.
    simpl. eexists. split; [by rewrite <- !app_assoc|].
    split; [done|]. split; [done|].
    split; [intros _; split|]; (simpl; intros H; repeat destruct H as [H|H]; try done;
      apply in_app_or in H as [H|H]; [|repeat destruct H as [H|H]; done];
      revert H; apply not_about_a_card; [exact Hall|intros []]).
Qed.

Lemma parse_gigs_one_record_per_card_witness :
  exists evs,
    parse_gigs Examples.html_parser Examples.two_cards_html initial_world
      = (Ok [record_of (Examples.page [Examples.counted_card; Examples.broken_card])
               [0; 0; 0]%nat;
             error_record],
         World O evs).
Proof.
  destruct (parse_gigs_one_record_per_card Examples.html_parser
              Examples.two_cards_html initial_world)
    as (evs & Hrun & _).
  exists evs. exact Hrun.
Defined.

(** C1 at its failing input: a card whose rating area holds no review count
    gets a record that is not the placeholder and whose [num_reviews] is
    [None]; its [seller_country] is the default. *)
Theorem num_reviews_missing_for_rated_card :
  exists gig w',
    parse_gigs Examples.html_parser Examples.rated_html initial_world = (Ok [gig], w')
    /\ gig <> error_record
    /\ gig !! "num_reviews" = Some None
    /\ gig !! "seller_country" = Some (Some "N/A").
Proof.
  eexists _, _. split; [vm_compute; reflexivity|].
  split; [|split; vm_compute; reflexivity].
  intros H. apply (f_equal (fun d : dict => d !! "num_reviews")) in H.
  vm_compute in H. discriminate.
Qed.

(** C3, as the code has it.  When the extraction of a card raises, the loop
    logs the error and appends the placeholder for that card: it holds
    "Error parsing card" as title and "Error" in the six fields seller_name,
    seller_level, price, num_reviews, rating and gig_url. *)
Theorem error_record_replaces_raising_card
    (doc : Soup.node) (card : Soup.path) (card_identifier : card_id)
    (w w1 : world) (e : exn) :
  extract_fields doc card card_identifier w = (Raise e, w1) ->
  extract_card doc card card_identifier w
    = (Ok error_record,
       World (navigations w1) (trace w1 ++ [Log ERROR (ErrorParsingCard card_identifier e)]))
  /\ record_of doc card = error_record
  /\ error_record !! "title" = Some (Some "Error parsing card")
  /\ Forall (fun k => error_record !! k = Some (Some "Error"))
       ["seller_name"; "seller_level"; "price"; "num_reviews"; "rating"; "gig_url"].
Proof.
  intros H.
  assert (extract_card doc card card_identifier w
          = (Ok error_record,
             World (navigations w1)
               (trace w1 ++ [Log ERROR (ErrorParsingCard card_identifier e)]))) as Hcard.
  { unfold extract_card, try_except. by rewrite H. }
  split; [exact Hcard|]. split.
  - pose proof (extract_card_returns doc card card_identifier w) as Hr.
    rewrite Hcard in Hr. simpl in Hr. congruence.
  - split; [reflexivity|]. repeat constructor.
Qed.

Lemma error_record_replaces_raising_card_witness :
  record_of (Examples.page [Examples.broken_card]) [0; 0; 0]%nat = error_record.
Proof.
  refine (proj1 (proj2 (error_record_replaces_raising_card
                          (Examples.page [Examples.broken_card]) [0; 0; 0]%nat
                          (1, 1)%nat initial_world _ ValueError _))).
  vm_compute. reflexivity.
Defined.

(** C3, as the spec states it, fails: the placeholder does not hold one
    marker in every field (its title differs from the rest), and it lacks the
    field seller_country that every other record has. *)
Lemma error_record_fields_differ :
  error_record !! "title" = Some (Some "Error parsing card")
  /\ error_record !! "gig_url" = Some (Some "Error")
  /\ error_record !! "seller_country" = None
  /\ initial_gig_info !! "seller_country" = Some (Some "N/A").
Proof. repeat split; vm_compute; reflexivity. Qed.

(** C7.  Take a card whose title link has a non-empty [href].  When the
    extraction of the card does not raise, the record stores the link, and its
    [gig_url] is: the site origin followed by the [href] up to its first "?"
    when the [href] starts with "/"; the [href] up to its first "?" when it
    starts with "http"; the [href] itself otherwise.  When the extraction
    raises, the record is the placeholder and its [gig_url] is "Error". *)
Theorem gig_url_normalised
    (doc : Soup.node) (card : Soup.path) (card_identifier : card_id)
    (w : world) (title_element : Soup.path) (gig_url_raw : string) :
  Soup.select_one doc card Selectors.title = Some title_element ->
  Soup.attr doc title_element "href" = Some gig_url_raw ->
  gig_url_raw <> "" ->
  (forall gig w',
     extract_fields doc card card_identifier w = (Ok gig, w') ->
     record_of doc card = gig
     /\ exists url,
          gig !! "gig_url" = Some (Some url)
          /\ (PyStr.startswith gig_url_raw "/" = true ->
              url = "https://www.fiverr.com" +:+ PyStr.split_head "?" gig_url_raw)
          /\ (PyStr.startswith gig_url_raw "/" = false ->
              PyStr.startswith gig_url_raw "http" = true ->
              url = PyStr.split_head "?" gig_url_raw)
          /\ (PyStr.startswith gig_url_raw "/" = false ->
              PyStr.startswith gig_url_raw "http" = false ->
              url = gig_url_raw))
  /\ (forall e w',
        extract_fields doc card card_identifier w = (Raise e, w') ->
        record_of doc card !! "gig_url" = Some (Some "Error")).
Proof.
  intros Htitle Hhref Hne.
  pose proof (extract_card_returns doc card card_identifier w) as Hr.
  unfold extract_card, try_except in Hr.
  split; [intros gig w' H|intros e w' H]; rewrite H in Hr.
  2: { unfold bind, log, emit, ret in Hr. simpl in Hr.
       injection Hr as Hr. by rewrite <- Hr. }
  simpl in Hr. split; [congruence|]. clear Hr.
  exists (fst (normalize_gig_url gig_url_raw)). split.
  - apply extract_fields_steps in H
      as (d0 & d1 & container & d2 & d3 & d4 & w0 & w1 & w2 & w3 & w4
          & H0 & H1 & H2 & H3 & H4 & H5).
    apply extract_rating_and_reviews_keeps with (k := "gig_url") in H5; [|done..].
    apply extract_price_keeps with (k := "gig_url") in H4; [|done].
    apply extract_seller_country_keeps with (k := "gig_url") in H3; [|done].
    apply extract_seller_level_keeps with (k := "gig_url") in H2; [|done].
    apply extract_seller_name_keeps with (k := "gig_url") in H1; [|done].
    simpl in H1. rewrite H5, H4, H3, H2, H1. clear -H0 Htitle Hhref Hne.
    revert H0. unfold extract_title_and_url. rewrite Htitle, Hhref.
    destruct gig_url_raw as [|c raw]; [done|].
    change (PyStr.falsy (String c raw)) with false. cbv iota.
    destruct (normalize_gig_url _) as [url unusual].
    unfold bind, ret, log, emit. destruct unusual; intros; simplify_eq;
      by rewrite lookup_insert_eq.
  - unfold normalize_gig_url.
    destruct (PyStr.startswith gig_url_raw "/");
      [|destruct (PyStr.startswith gig_url_raw "http")]; simpl;
      repeat split; intros; done.
Qed.

Lemma gig_url_normalised_witness :
  record_of (Examples.page [Examples.rated_card]) [0; 0; 0]%nat !! "gig_url"
    = Some (Some "https://www.fiverr.com/gigs/foo").
Proof.
  destruct (gig_url_normalised (Examples.page [Examples.rated_card]) [0; 0; 0]%nat
              (1, 1)%nat initial_world [0; 0; 0; 0]%nat "/gigs/foo?source=x")
    as (Hok & _);
    [vm_compute; reflexivity | vm_compute; reflexivity | discriminate |].
  destruct (Hok (record_of (Examples.page [Examples.rated_card]) [0; 0; 0]%nat)
              (snd (extract_fields (Examples.page [Examples.rated_card])
                      [0; 0; 0]%nat (1, 1)%nat initial_world)))
    as (_ & url & Hurl & Hrel & _); [vm_compute; reflexivity|].
  rewrite Hurl, (Hrel eq_refl). reflexivity.
Defined.

(** A card that raises after its link was read stores no link: the link
    "/gigs/foo?source=x" is there, and the record is the placeholder with
    "Error" as URL. *)
Lemma gig_url_replaced_when_card_raises :
  Soup.select_one (Examples.page [Examples.broken_card]) [0; 0; 0]%nat Selectors.title
    = Some [0; 0; 0; 0]%nat
  /\ Soup.attr (Examples.page [Examples.broken_card]) [0; 0; 0; 0]%nat "href"
     = Some "/gigs/foo?source=x"
  /\ (exists w', parse_gigs Examples.html_parser Examples.broken_html initial_world
                 = (Ok [error_record], w'))
  /\ error_record !! "gig_url" = Some (Some "Error").
Proof.
  split; [vm_compute; reflexivity|]. split; [vm_compute; reflexivity|].
  split; [eexists; vm_compute; reflexivity|vm_compute; reflexivity].
Qed.

(** ** Fetching with retries *)

Module FetchFacts.
Import MonadFacts.

Lemma backoff_waits_app (evs1 evs2 : list event) :
  backoff_waits (evs1 ++ evs2) = backoff_waits evs1 ++ backoff_waits evs2.
Proof.
  induction evs1 as [|ev evs1 IH]; [done|].
  destruct ev as [| |[]| |]; simpl; by rewrite ?IH.
Qed.

Lemma navigations_in_app (evs1 evs2 : list event) :
  navigations_in (evs1 ++ evs2) = (navigations_in evs1 + navigations_in evs2)%nat.
Proof.
  induction evs1 as [|ev evs1 IH]; [done|].
  destruct ev; simpl; by rewrite ?IH.
Qed.

(** *** The waits of [wait_exponential] *)

Lemma wait_exponential_bounded (multiplier min max : Z) (attempt_number : nat) :
  0 <= min <= max ->
  min <= Tenacity.wait_exponential multiplier min max attempt_number <= max.
Proof. unfold Tenacity.wait_exponential. lia. Qed.

Lemma wait_exponential_monotone (multiplier min max : Z) (attempt_number : nat) :
  0 <= multiplier -> (1 <= attempt_number)%nat ->
  Tenacity.wait_exponential multiplier min max attempt_number
  <= Tenacity.wait_exponential multiplier min max (S attempt_number).
Proof.
  intros Hm Ha. unfold Tenacity.wait_exponential.
  assert (2 ^ (Z.of_nat attempt_number - 1)
          <= 2 ^ (Z.of_nat (S attempt_number) - 1)).
  { apply Z.pow_le_mono_r; lia. }
  nia.
Qed.

Section Browser.

Variable driver : nat -> string -> response.
Variable keyword : string.
Variable page_number : nat.

Let url : string := fiverr_search_url keyword page_number.

(** *** One attempt *)

Lemma attempt_page (n : nat) (t : list event) (html : string) :
  driver n url = PageSource html ->
  get_page_html_attempt driver keyword page_number (World n t)
    = (Ok (Some (if says_no_results html then no_results_page else html)),
       World (S n)
         (t ++ [ Log INFO (AttemptingFetch url); Navigate url;
                 Log INFO WaitingForLoad; Sleep PageLoadWait;
                 if says_no_results html
                 then Log WARNING (AppearsEmptyOrError page_number)
                 else Log INFO (FetchedHtml page_number) ])).
Proof.
  intros H. unfold get_page_html_attempt, bind, try_except, driver_get, log, emit,
    lift, ret. fold url. simpl. rewrite H.
  destruct (says_no_results html); simpl; by rewrite <- !app_assoc.
Qed.

(** An attempt that ends in an exception: a transient one is raised again,
    any other one becomes [None]. *)
Lemma attempt_raises (n : nat) (t : list event) (e : exn) :
  raises (driver n url) = Some e ->
  exists evs,
    get_page_html_attempt driver keyword page_number (World n t)
      = (if Tenacity.retry_if_transient e then Raise e else Ok None,
         World (S n) (t ++ evs))
    /\ navigations_in evs = 1%nat
    /\ backoff_waits evs = [].
Proof.
  intros H. unfold get_page_html_attempt, bind, try_except, driver_get, log, emit,
    lift, ret, raise. fold url. simpl.
  destruct (driver n url) as [e'|e'|html]; simpl in H; simplify_eq;
    destruct e; simpl; eexists; (split; [by rewrite <- !app_assoc|done]).
Qed.

(** *** The retry loop *)

Let retrying : nat -> nat -> M (option string) :=
  Tenacity.retrying backoff Tenacity.retry_if_transient
    (fun e attempt_number => log INFO (Retrying keyword page_number e attempt_number))
    (get_page_html_attempt driver keyword page_number).

Lemma get_page_html_retrying :
  get_page_html driver keyword page_number = retrying 2 1.
Proof. reflexivity. Qed.

Lemma retrying_unfold (retries_left attempt_number : nat) :
  retrying retries_left attempt_number
  = try_except (get_page_html_attempt driver keyword page_number)
      (fun e =>
         if Tenacity.retry_if_transient e then
           match retries_left with
           | O => raise RetryError
           | S k =>
               log INFO (Retrying keyword page_number e attempt_number) ;>
               emit (Sleep (Backoff (backoff attempt_number))) ;>
               retrying k (S attempt_number)
           end
         else raise e).
Proof. by destruct retries_left. Qed.

(** A page ends the loop with the page. *)
Lemma retrying_page (retries_left attempt_number n : nat) (t : list event)
    (html : string) :
  driver n url = PageSource html ->
  exists evs,
    retrying retries_left attempt_number (World n t)
      = (Ok (Some (if says_no_results html then no_results_page else html)),
         World (S n) (t ++ evs))
    /\ navigations_in evs = 1%nat
    /\ backoff_waits evs = [].
Proof.
  intros H. rewrite retrying_unfold. unfold try_except.
  rewrite (attempt_page n t html H). eexists. split; [done|].
  by destruct (says_no_results html).
Qed.

(** An unknown error ends the loop with [None]. *)
Lemma retrying_fatal (retries_left attempt_number n : nat) (t : list event)
    (e : exn) :
  raises (driver n url) = Some e -> Tenacity.retry_if_transient e = false ->
  exists evs,
    retrying retries_left attempt_number (World n t) = (Ok None, World (S n) (t ++ evs))
    /\ navigations_in evs = 1%nat
    /\ backoff_waits evs = [].
Proof.
  intros H He. rewrite retrying_unfold. unfold try_except.
  destruct (attempt_raises n t e H) as (evs & -> & Hn & Hb). rewrite He.
  exists evs. simpl. auto.
Qed.

(** A transient failure of the last attempt ends the loop with [RetryError]. *)
Lemma retrying_exhausted (attempt_number n : nat) (t : list event) :
  transient (driver n url) = true ->
  exists evs,
    retrying O attempt_number (World n t) = (Raise RetryError, World (S n) (t ++ evs))
    /\ navigations_in evs = 1%nat
    /\ backoff_waits evs = [].
Proof.
  unfold transient. destruct (raises (driver n url)) as [e|] eqn:H; [|done].
  intros He. rewrite retrying_unfold. unfold try_except.
  destruct (attempt_raises n t e H) as (evs & -> & Hn & Hb). rewrite !He.
  exists evs. auto.
Qed.

(** After [j] transient failures the loop has navigated [j] times, has slept
    after each failure, and goes on with [j] retries less. *)
Lemma retrying_after_failures (j : nat) :
  forall (retries_left attempt_number n : nat) (t : list event),
  (forall i, (i < j)%nat -> transient (driver (n + i) url) = true) ->
  exists evs,
    retrying (j + retries_left) attempt_number (World n t)
      = retrying retries_left (attempt_number + j) (World (n + j) (t ++ evs))
    /\ navigations_in evs = j
    /\ backoff_waits evs = map backoff (seq attempt_number j).
Proof.
  induction j as [|j IH]; intros retries_left attempt_number n t Hfail.
  - exists []. by rewrite !Nat.add_0_r, app_nil_r.
  - pose proof (Hfail O ltac:(lia)) as H0. rewrite Nat.add_0_r in H0.
    unfold transient in H0.
    destruct (raises (driver n url)) as [e|] eqn:He; [|done].
    destruct (attempt_raises n t e He) as (evs0 & Hrun & Hn0 & Hb0).
    rewrite H0 in Hrun.
    destruct (IH retries_left (S attempt_number) (S n)
                (((t ++ evs0)
                    ++ [Log INFO (Retrying keyword page_number e attempt_number)])
                   ++ [Sleep (Backoff (backoff attempt_number))]))
      as (evs1 & Hrest & Hn1 & Hb1).
    { intros i Hi. replace (S n + i)%nat with (n + S i)%nat by lia.
      apply Hfail. lia. }
    exists (evs0 ++ [Log INFO (Retrying keyword page_number e attempt_number);
                     Sleep (Backoff (backoff attempt_number))] ++ evs1).
    split; [|split].
    + change (S j + retries_left)%nat with (S (j + retries_left)).
      rewrite retrying_unfold. unfold try_except. rewrite Hrun. cbv beta iota.
      rewrite H0. unfold bind at 1 2, log, emit. cbn [navigations trace].
      rewrite Hrest.
      replace (S attempt_number + j)%nat with (attempt_number + S j)%nat by lia.
      replace (S n + j)%nat with (n + S j)%nat by lia.
      do 2 f_equal. by rewrite <- !app_assoc.
    + rewrite !navigations_in_app, Hn0, Hn1. simpl. lia.
    + rewrite !backoff_waits_app, Hb0, Hb1. reflexivity.
Qed.

End Browser.

End FetchFacts.

Import FetchFacts.

(** ** The pagination loop *)

Module LoopFacts.

Section Loop.

Variable driver : nat -> string -> response.
Variable BeautifulSoup : string -> Soup.node.

(** A page whose fetch gave [None] ends the loop. *)
Lemma pagination_stops_on_none (page_num : nat) (rest : list nat)
    (all_gigs_data : list dict) (pages_actually_scraped n n1 : nat)
    (t t1 : list event) :
  get_page_html driver search_keyword page_num
    (World n (t ++ [Log INFO (ProcessingPage page_num)])) = (Ok None, World n1 t1) ->
  pagination_loop driver BeautifulSoup (page_num :: rest) all_gigs_data
    pages_actually_scraped (World n t)
  = (Ok (all_gigs_data, page_num),
     World n1 (t1 ++ [Log ERROR (ContentWasNone page_num)])).
Proof.
  intros H. cbn [pagination_loop]. unfold bind at 1, log at 1, emit at 1.
  cbn [navigations trace]. unfold bind at 1, try_except. rewrite H.
  reflexivity.
Qed.

(** A page whose fetch raised, after the last retry, ends the loop. *)
Lemma pagination_stops_on_raise (page_num : nat) (rest : list nat)
    (all_gigs_data : list dict) (pages_actually_scraped n n1 : nat)
    (t t1 : list event) (e : exn) :
  get_page_html driver search_keyword page_num
    (World n (t ++ [Log INFO (ProcessingPage page_num)])) = (Raise e, World n1 t1) ->
  pagination_loop driver BeautifulSoup (page_num :: rest) all_gigs_data
    pages_actually_scraped (World n t)
  = (Ok (all_gigs_data, page_num),
     World n1 ((t1 ++ [Log ERROR (FailedAfterRetries page_num e)])
               ++ [Log ERROR (ContentWasNone page_num)])).
Proof.
  intros H. cbn [pagination_loop]. unfold bind at 1, log at 1, emit at 1.
  cbn [navigations trace]. unfold bind at 1, try_except. rewrite H.
  reflexivity.
Qed.

(** On a text without cards [parse_gigs] returns the empty list. *)
Lemma parse_gigs_no_cards (html_content : string) (n : nat) (t : list event) :
  html_content <> "" ->
  located_cards (BeautifulSoup html_content) = [] ->
  parse_gigs BeautifulSoup html_content (World n t)
  = (Ok [],
     World n (t ++ [ Log INFO StartingToParse; Log INFO (FoundPrimary 0);
                     Log INFO TryingFallback; Log INFO (FoundFallback 0);
                     Log WARNING NoGigCardsFound ])).
Proof.
  intros Hne. unfold located_cards, parse_gigs.
  destruct html_content; [done|].
  destruct (Soup.select _ [] Selectors.gig_cards); [|done]. intros ->.
  unfold bind, log, emit, ret. simpl. by rewrite <- !app_assoc.
Qed.

End Loop.

End LoopFacts.

Import LoopFacts.

(** C5.  With the 3 attempts of [RETRY_ATTEMPTS], after two transient failures
    in a row: a page at the third navigation is returned, after exactly 3
    navigations; a third transient failure ends in [RetryError], again after
    exactly 3 navigations, and the pagination loop then stops at this page.
    Either way the loop has waited twice, 2 seconds each time.  Every wait of
    the schedule lies between [RETRY_WAIT_MIN_SECONDS] and
    [RETRY_WAIT_MAX_SECONDS] and is at most the next one. *)
Theorem retry_twice_then_succeed
    (driver : nat -> string -> response) (BeautifulSoup : string -> Soup.node)
    (page_number : nat) (rest : list nat) (all_gigs_data : list dict)
    (pages_actually_scraped : nat) (w : world) :
  transient (driver (navigations w) (fiverr_search_url search_keyword page_number)) = true ->
  transient (driver (S (navigations w)) (fiverr_search_url search_keyword page_number)) = true ->
  (forall html,
     driver (S (S (navigations w))) (fiverr_search_url search_keyword page_number)
       = PageSource html ->
     exists evs,
       get_page_html driver search_keyword page_number w
         = (Ok (Some (if says_no_results html then no_results_page else html)),
            World (navigations w + 3) (trace w ++ evs))
       /\ navigations_in evs = 3%nat
       /\ backoff_waits evs = [2; 2])
  /\ (transient (driver (S (S (navigations w)))
                   (fiverr_search_url search_keyword page_number)) = true ->
      (exists evs,
         get_page_html driver search_keyword page_number w
           = (Raise RetryError, World (navigations w + 3) (trace w ++ evs))
         /\ navigations_in evs = 3%nat
         /\ backoff_waits evs = [2; 2])
      /\ (exists evs,
            pagination_loop driver BeautifulSoup (page_number :: rest) all_gigs_data
              pages_actually_scraped w
              = (Ok (all_gigs_data, page_number),
                 World (navigations w + 3) (trace w ++ evs))
            /\ navigations_in evs = 3%nat))
  /\ (forall attempt_number, (1 <= attempt_number)%nat ->
        RETRY_WAIT_MIN_SECONDS <= backoff attempt_number <= RETRY_WAIT_MAX_SECONDS
        /\ backoff attempt_number <= backoff (S attempt_number)).
Proof.
  intros H1 H2.
  assert (forall t, exists evs,
            get_page_html driver search_keyword page_number (World (navigations w) t)
            = Tenacity.retrying backoff Tenacity.retry_if_transient
                (fun e attempt_number =>
                   log INFO (Retrying search_keyword page_number e attempt_number))
                (get_page_html_attempt driver search_keyword page_number)
                O 3%nat (World (navigations w + 2) (t ++ evs))
            /\ navigations_in evs = 2%nat
            /\ backoff_waits evs = [2; 2]) as Hfirst.
  { intros t.
    destruct (retrying_after_failures driver search_keyword page_number 2 O 1%nat
                (navigations w) t) as (evs & Hrun & Hn & Hb).
    { intros [|[|i]] Hi; rewrite ?Nat.add_0_r, ?Nat.add_1_r; [done..|lia]. }
    exists evs. split; [exact Hrun|]. split; [done|]. rewrite Hb. reflexivity. }
  split; [|split].
  - intros html Hpage. destruct w as [n t]. cbn [navigations trace] in *.
    destruct (Hfirst t) as (evs & -> & Hn & Hb).
    destruct (retrying_page driver search_keyword page_number O 3%nat (n + 2)%nat
                (t ++ evs) html) as (evs' & -> & Hn' & Hb').
    { by replace (n + 2)%nat with (S (S n)) by lia. }
    exists (evs ++ evs'). rewrite <- app_assoc.
    replace (S (n + 2)) with (n + 3)%nat by lia. split; [done|].
    rewrite navigations_in_app, backoff_waits_app, Hn, Hb, Hn', Hb'. done.
  - intros H3.
    assert (forall t, exists evs,
              get_page_html driver search_keyword page_number (World (navigations w) t)
              = (Raise RetryError, World (navigations w + 3) (t ++ evs))
              /\ navigations_in evs = 3%nat
              /\ backoff_waits evs = [2; 2]) as Hraise.
    { intros t. destruct (Hfirst t) as (evs & -> & Hn & Hb).
      destruct (retrying_exhausted driver search_keyword page_number 3%nat
                  (navigations w + 2)%nat (t ++ evs)) as (evs' & -> & Hn' & Hb').
      { by replace (navigations w + 2)%nat with (S (S (navigations w))) by lia. }
      exists (evs ++ evs'). rewrite <- app_assoc.
      replace (S (navigations w + 2)) with (navigations w + 3)%nat by lia.
      split; [done|].
      rewrite navigations_in_app, backoff_waits_app, Hn, Hb, Hn', Hb'. done. }
    destruct w as [n t]. cbn [navigations trace] in *. split; [apply Hraise|].
    destruct (Hraise (t ++ [Log INFO (ProcessingPage page_number)]))
      as (evs & Hrun & Hn & Hb).
    rewrite (pagination_stops_on_raise driver BeautifulSoup _ _ _ _ _ _ _ _ _ Hrun).
    eexists. rewrite <- !app_assoc. split; [reflexivity|].
    rewrite !navigations_in_app, Hn. reflexivity.
  - intros a Ha. split.
    + apply wait_exponential_bounded. done.
    + apply wait_exponential_monotone; [done|lia].
Qed.

Lemma retry_twice_then_succeed_witness :
  exists evs,
    get_page_html Examples.browser_slow_start search_keyword 1 initial_world
      = (Ok (Some Examples.counted_html), World 3 evs)
    /\ navigations_in evs = 3%nat
    /\ backoff_waits evs = [2; 2].
Proof.
  destruct (retry_twice_then_succeed Examples.browser_slow_start Examples.html_parser
              1 [] [] O initial_world eq_refl eq_refl) as (Hpage & _).
  exact (Hpage Examples.counted_html eq_refl).
Defined.

(** C6.  An exception of a navigation that is neither a WebDriver error nor a
    timeout makes [get_page_html] return [None] with that navigation as its
    last: nothing is retried after it, whether it came at the first attempt
    or after transient failures.  The pagination loop then stops at this
    page, with the records collected so far. *)
Theorem unknown_error_is_fatal
    (driver : nat -> string -> response) (BeautifulSoup : string -> Soup.node)
    (page_number : nat) (rest : list nat) (all_gigs_data : list dict)
    (pages_actually_scraped : nat) (w : world) (j : nat) (e : exn) :
  (j < RETRY_ATTEMPTS)%nat ->
  (forall i, (i < j)%nat ->
     transient (driver (navigations w + i)%nat (fiverr_search_url search_keyword page_number))
     = true) ->
  raises (driver (navigations w + j)%nat (fiverr_search_url search_keyword page_number))
    = Some e ->
  Tenacity.retry_if_transient e = false ->
  (exists evs,
     get_page_html driver search_keyword page_number w
       = (Ok None, World (navigations w + j + 1) (trace w ++ evs))
     /\ navigations_in evs = (j + 1)%nat)
  /\ (exists evs,
        pagination_loop driver BeautifulSoup (page_number :: rest) all_gigs_data
          pages_actually_scraped w
          = (Ok (all_gigs_data, page_number),
             World (navigations w + j + 1) (trace w ++ evs))
        /\ navigations_in evs = (j + 1)%nat
        /\ last evs = Some (Log ERROR (ContentWasNone page_number))).
Proof.
  intros Hj Hfail He Hfatal.
  assert (forall t, exists evs,
            get_page_html driver search_keyword page_number (World (navigations w) t)
            = (Ok None, World (navigations w + j + 1) (t ++ evs))
            /\ navigations_in evs = (j + 1)%nat) as Hnone.
  { intros t.
    destruct (retrying_after_failures driver search_keyword page_number j
                (2 - j) 1%nat (navigations w) t Hfail) as (evs & Hrun & Hn & _).
    replace (j + (2 - j))%nat with 2%nat in Hrun by (unfold RETRY_ATTEMPTS in Hj; lia).
    rewrite get_page_html_retrying, Hrun.
    destruct (retrying_fatal driver search_keyword page_number (2 - j) (1 + j)
                (navigations w + j)%nat (t ++ evs) e He Hfatal)
      as (evs' & -> & Hn' & _).
    exists (evs ++ evs'). rewrite <- app_assoc.
    replace (S (navigations w + j)) with (navigations w + j + 1)%nat by lia.
    split; [done|]. rewrite navigations_in_app, Hn, Hn'. done. }
  destruct w as [n t]. cbn [navigations trace] in *. split; [apply Hnone|].
  destruct (Hnone (t ++ [Log INFO (ProcessingPage page_number)])) as (evs & Hrun & Hn).
  rewrite (pagination_stops_on_none driver BeautifulSoup _ _ _ _ _ _ _ _ Hrun).
  eexists. rewrite <- !app_assoc. split; [reflexivity|].
  rewrite !navigations_in_app, Hn. split; [simpl; lia|].
  rewrite app_assoc. apply last_snoc.
Qed.

Lemma unknown_error_is_fatal_witness :
  exists evs,
    pagination_loop Examples.browser_broken Examples.html_parser [1; 2]%nat [] O
      initial_world
      = (Ok ([], 1%nat), World 1 evs)
    /\ navigations_in evs = 1%nat
    /\ last evs = Some (Log ERROR (ContentWasNone 1)).
Proof.
  destruct (unknown_error_is_fatal Examples.browser_broken Examples.html_parser
              1 [2]%nat [] O initial_world O OtherException)
    as (_ & Hloop); [unfold RETRY_ATTEMPTS; lia|intros i Hi; lia|reflexivity..|].
  exact Hloop.
Defined.

(** C4, as the code has it.  A page that holds one of the two marker phrases,
    fetched at the first attempt or after transient failures, makes
    [get_page_html] return the minimal document with that navigation as its
    last: nothing is retried after it.  The pagination loop hands this
    document to [parse_gigs], which finds no card in it and returns the empty
    list; the loop then ends at a page after the first and goes on to the
    next page at the first. *)
Theorem no_results_page_is_parsed_to_nothing
    (driver : nat -> string -> response) (BeautifulSoup : string -> Soup.node)
    (page_number : nat) (rest : list nat) (all_gigs_data : list dict)
    (pages_actually_scraped : nat) (w : world) (j : nat) (html : string) :
  (j < RETRY_ATTEMPTS)%nat ->
  (forall i, (i < j)%nat ->
     transient (driver (navigations w + i)%nat (fiverr_search_url search_keyword page_number))
     = true) ->
  driver (navigations w + j)%nat (fiverr_search_url search_keyword page_number)
    = PageSource html ->
  says_no_results html = true ->
  located_cards (BeautifulSoup no_results_page) = [] ->
  (exists failures,
     navigations_in failures = j
     /\ backoff_waits failures = replicate j 2
     /\ get_page_html driver search_keyword page_number w
        = (Ok (Some no_results_page),
           World (navigations w + j + 1)
             (trace w ++ failures
                ++ [ Log INFO (AttemptingFetch (fiverr_search_url search_keyword page_number));
                     Navigate (fiverr_search_url search_keyword page_number);
                     Log INFO WaitingForLoad; Sleep PageLoadWait;
                     Log WARNING (AppearsEmptyOrError page_number) ])))
  /\ (exists failures,
        navigations_in failures = j
        /\ backoff_waits failures = replicate j 2
        /\ pagination_loop driver BeautifulSoup (page_number :: rest) all_gigs_data
             pages_actually_scraped w
           = (if (1 <? page_number)%nat
              then log INFO (AssumingEndOfResults page_number) ;>
                   ret (all_gigs_data, page_number)
              else (if (page_number <? MAX_PAGES_TO_SCRAPE)%nat
                    then log INFO WaitingBeforeNextPage ;> emit (Sleep InterPageDelay)
                    else ret tt) ;>
                   pagination_loop driver BeautifulSoup rest all_gigs_data page_number)
               (World (navigations w + j + 1)
                  (trace w ++ [Log INFO (ProcessingPage page_number)] ++ failures
                     ++ [ Log INFO (AttemptingFetch (fiverr_search_url search_keyword page_number));
                          Navigate (fiverr_search_url search_keyword page_number);
                          Log INFO WaitingForLoad; Sleep PageLoadWait;
                          Log WARNING (AppearsEmptyOrError page_number);
                          Log INFO StartingToParse; Log INFO (FoundPrimary 0);
                          Log INFO TryingFallback; Log INFO (FoundFallback 0);
                          Log WARNING NoGigCardsFound;
                          Log INFO (NoGigsOnPage page_number) ]))).
Proof.
  intros Hj Hfail Hpage Hmarker Hcards. destruct w as [n t].
  cbn [navigations trace] in *.
  assert (forall t0, exists failures,
            navigations_in failures = j
            /\ backoff_waits failures = replicate j 2
            /\ get_page_html driver search_keyword page_number (World n t0)
               = (Ok (Some no_results_page),
                  World (n + j + 1)
                    ((t0 ++ failures)
                       ++ [ Log INFO (AttemptingFetch (fiverr_search_url search_keyword page_number));
                            Navigate (fiverr_search_url search_keyword page_number);
                            Log INFO WaitingForLoad; Sleep PageLoadWait;
                            Log WARNING (AppearsEmptyOrError page_number) ]))) as Hfetch.
  { intros t0.
    destruct (retrying_after_failures driver search_keyword page_number j
                (2 - j) 1%nat n t0 Hfail) as (failures & Hrun & Hn & Hb).
    replace (j + (2 - j))%nat with 2%nat in Hrun by (unfold RETRY_ATTEMPTS in Hj; lia).
    exists failures. split; [done|]. split.
    { rewrite Hb. unfold RETRY_ATTEMPTS in Hj.
      destruct j as [|[|[|j]]]; [done..|lia]. }
    rewrite get_page_html_retrying, Hrun, retrying_unfold. unfold try_except.
    rewrite (attempt_page driver search_keyword page_number (n + j) (t0 ++ failures)
               html Hpage), Hmarker.
    by replace (S (n + j)) with (n + j + 1)%nat by lia. }
  split.
  - destruct (Hfetch t) as (failures & Hn & Hb & ->).
    exists failures. by rewrite <- app_assoc.
  - destruct (Hfetch (t ++ [Log INFO (ProcessingPage page_number)]))
      as (failures & Hn & Hb & Hrun).
    exists failures. split; [done|]. split; [done|].
    cbn [pagination_loop]. unfold bind at 1, log at 1, emit at 1.
    cbn [navigations trace]. unfold bind at 1, try_except. rewrite Hrun.
    change no_results_page with (String "<" "html><body></body></html>") at 1.
    cbv iota. unfold bind at 1.
    rewrite (parse_gigs_no_cards BeautifulSoup no_results_page _ _ ltac:(done) Hcards).
    unfold bind at 1, log at 1, emit at 1. cbn [navigations trace].
    rewrite <- !app_assoc. reflexivity.
Qed.

Lemma no_results_page_is_parsed_to_nothing_witness :
  exists failures,
    navigations_in failures = 1%nat
    /\ backoff_waits failures = [2]
    /\ get_page_html Scenarios.browser_slow_without_results search_keyword 1
         initial_world
       = (Ok (Some no_results_page),
          World 2
            (failures
               ++ [ Log INFO (AttemptingFetch (fiverr_search_url search_keyword 1));
                    Navigate (fiverr_search_url search_keyword 1);
                    Log INFO WaitingForLoad; Sleep PageLoadWait;
                    Log WARNING (AppearsEmptyOrError 1) ])).
Proof.
  refine (proj1 (no_results_page_is_parsed_to_nothing
                   Scenarios.browser_slow_without_results Examples.html_parser
                   1 [2]%nat [] O initial_world 1 _ _ _ eq_refl eq_refl eq_refl)).
  - unfold RETRY_ATTEMPTS. lia.
  - intros [|i] Hi; [reflexivity|lia].
Defined.

(** C4, as the spec states it, fails: after a page with a marker phrase the
    parser does run.  In this run only the first navigation gives a page, the
    page without services; the trace shows the parser start on it and find no
    card. *)
Lemma no_results_page_reaches_parser :
  Examples.browser_without_results 0 (fiverr_search_url search_keyword 1)
    = PageSource "<html><body>No services found for your search</body></html>"
  /\ In (Log INFO StartingToParse)
       (trace (snd (main Examples.browser_without_results Examples.html_parser
                      initial_world)))
  /\ In (Log WARNING NoGigCardsFound)
       (trace (snd (main Examples.browser_without_results Examples.html_parser
                      initial_world)))
  /\ navigations (snd (main Examples.browser_without_results Examples.html_parser
                         initial_world)) = 2%nat.
Proof.
  split; [reflexivity|]. split; [|split]; vm_compute; tauto.
Qed.

(** * Further properties

    What follows covers the code around the claims above: the field cleaners
    as functions of every input, the fields of every record, the fetch and
    the run for every browser, and the saving. *)

(** ** The first run of a class in a string *)

Module SearchFacts.

Lemma search_run_none_iff (p : ascii -> bool) (s : string) :
  search_run p s = None <-> forallb (fun c => negb (p c)) s = true.
Proof.
  split; [|apply search_run_none].
  induction s as [|c s IH]; simpl; [done|].
  destruct (p c); [done|]. simpl. exact IH.
Qed.

Lemma span_split (p : ascii -> bool) (s run rest : string) :
  span p s = (run, rest) ->
  s = run +:+ rest /\ forallb p run = true
  /\ match rest with String c _ => p c = false | EmptyString => True end.
Proof.
  revert run rest. induction s as [|c s IH]; simpl; intros run rest.
  - by intros [= <- <-].
  - destruct (p c) eqn:Hc.
    + destruct (span p s) as [run' rest'] eqn:E. intros [= <- <-].
      destruct (IH run' rest' eq_refl) as (-> & Hrun & Hrest).
      simpl. rewrite Hc. auto.
    + intros [= <- <-]. simpl. auto.
Qed.

Lemma search_run_split (p : ascii -> bool) (s run rest : string) :
  search_run p s = Some (run, rest) ->
  exists before,
    s = before +:+ run +:+ rest
    /\ forallb (fun c => negb (p c)) before = true
    /\ run <> "" /\ forallb p run = true
    /\ match rest with String c _ => p c = false | EmptyString => True end.
Proof.
  induction s as [|c s IH]; [done|].
  change (search_run p (String c s))
    with (if p c then Some (span p (String c s)) else search_run p s).
  pose proof (span_split p (String c s)) as Hspan.
  destruct (p c) eqn:Hc.
  - destruct (span p (String c s)) as [run0 rest0] eqn:E. intros [= <- <-].
    exists "". destruct (Hspan _ _ eq_refl) as (-> & Hrun & Hrest).
    repeat split; try done. intros ->. simpl in E. rewrite Hc in E.
    by destruct (span p s).
  - clear Hspan. intros H. destruct (IH H) as (before & -> & Hb & Hne & Hrun & Hrest).
    exists (String c before). simpl. rewrite Hc. simpl. auto.
Qed.

End SearchFacts.

Import SearchFacts.

Module CleanedFacts.

Lemma remove_comma_digit_dot (run : string) :
  forallb digit_dot_comma run = true ->
  forallb digit_dot (remove_char "," run) = true.
Proof.
  induction run as [|c run IH]; simpl; [done|].
  intros [Hc Hrun]%andb_true_iff.
  destruct (Ascii.eqb c ",") eqn:E; [auto|]. simpl.
  rewrite IH by done. unfold digit_dot_comma in Hc. unfold digit_dot.
  rewrite E, orb_false_r in Hc. by rewrite Hc.
Qed.

End CleanedFacts.

Import CleanedFacts.

(** X1.  [clean_price] returns [None] exactly when the raw price holds no
    digit, point or comma.  Otherwise it returns the first run of digits,
    points and commas of the raw price, the longest one that starts there,
    without its commas: a string of digits and points only. *)
Theorem clean_price_first_run (price_str : string) :
  (clean_price price_str = None
   <-> forallb (fun c => negb (digit_dot_comma c)) price_str = true)
  /\ (forall cleaned, clean_price price_str = Some cleaned ->
        forallb digit_dot cleaned = true
        /\ exists before run rest,
             price_str = before +:+ run +:+ rest
             /\ forallb (fun c => negb (digit_dot_comma c)) before = true
             /\ run <> "" /\ forallb digit_dot_comma run = true
             /\ match rest with
                | String c _ => digit_dot_comma c = false
                | EmptyString => True
                end
             /\ cleaned = remove_char "," run).
Proof.
  unfold clean_price. destruct price_str as [|c0 s0]; [done|].
  simpl falsy. cbv iota. set (s := String c0 s0). split.
  - rewrite <- search_run_none_iff.
    destruct (search_run digit_dot_comma s) as [[group0 rest]|]; done.
  - intros cleaned.
    destruct (search_run digit_dot_comma s) as [[group0 rest]|] eqn:E; [|done].
    intros [= <-].
    apply search_run_split in E as (before & Hs & Hb & Hne & Hrun & Hrest).
    split; [by apply remove_comma_digit_dot|].
    by exists before, group0, rest.
Qed.

(** X2.  [clean_rating] returns [None] exactly when the raw rating holds no
    digit and no point.  Otherwise it returns the first run of digits and
    points of the raw rating, the longest one that starts there, as it
    stands. *)
Theorem clean_rating_first_run (rating_str : string) :
  (clean_rating rating_str = None
   <-> forallb (fun c => negb (digit_dot c)) rating_str = true)
  /\ (forall cleaned, clean_rating rating_str = Some cleaned ->
        cleaned <> "" /\ forallb digit_dot cleaned = true
        /\ exists before rest,
             rating_str = before +:+ cleaned +:+ rest
             /\ forallb (fun c => negb (digit_dot c)) before = true
             /\ match rest with
                | String c _ => digit_dot c = false
                | EmptyString => True
                end).
Proof.
  unfold clean_rating. destruct rating_str as [|c0 s0]; [done|].
  simpl falsy. cbv iota. set (s := String c0 s0). split.
  - rewrite <- search_run_none_iff.
    destruct (search_run digit_dot s) as [[group0 rest]|]; done.
  - intros cleaned.
    destruct (search_run digit_dot s) as [[group0 rest]|] eqn:E; [|done].
    intros [= <-].
    apply search_run_split in E as (before & Hs & Hb & Hne & Hrun & Hrest).
    split; [done|]. split; [done|]. by exists before, rest.
Qed.

(** X3.  Cleaning a cleaned value again changes nothing: [clean_rating] and
    [clean_reviews] return each of their results unchanged, and so does
    [clean_price] for each result that is not the empty string. *)
Theorem cleaners_keep_cleaned_values (raw cleaned : string) :
  (clean_rating raw = Some cleaned -> clean_rating cleaned = Some cleaned)
  /\ (clean_reviews raw = Ok (Some cleaned) ->
      clean_reviews cleaned = Ok (Some cleaned))
  /\ (clean_price raw = Some cleaned -> cleaned <> "" ->
      clean_price cleaned = Some cleaned).
Proof.
  split; [apply clean_rating_idempotent|].
  split; [apply clean_reviews_idempotent|apply clean_price_idempotent_nonempty].
Qed.

(** ** Numbers that floats hold exactly *)

Module ExactFacts.

(** An [int] below 2^52, given as a quotient by a power of two, is a float:
    rounding changes nothing. *)
Lemma round_exact (n K : Z) :
  0 < n < 2 ^ 52 -> 0 <= K ->
  round (n * 2 ^ K) (2 ^ K) = Finite (n * 2 ^ (52 - Z.log2 n)) (Z.log2 n - 52).
Proof.
  intros [Hn0 Hn] HK. pose proof (pow2_pos K HK) as H2K.
  pose proof (Z.log2_nonneg n) as Hl. pose proof (log2_bounds n Hn0) as [Hlo Hhi].
  assert (Z.log2 n < 52) as Hl52.
  { apply Z.log2_lt_pow2; lia. }
  unfold round. destruct (n * 2 ^ K =? 0) eqn:E0; [apply Z.eqb_eq in E0; nia|].
  assert (mag (n * 2 ^ K) (2 ^ K) = Z.log2 n + 1) as ->.
  { unfold mag, le_scaled. rewrite Z.log2_mul_pow2, Z.log2_pow2 by lia.
    replace (K + Z.log2 n - K) with (Z.log2 n) by lia.
    destruct (0 <=? Z.log2 n) eqn:E; [|apply Z.leb_gt in E; lia].
    assert ((2 ^ K * 2 ^ Z.log2 n <=? n * 2 ^ K) = true) as ->; [|done].
    apply Z.leb_le. nia. }
  destruct (fexp_cases (Z.log2 n + 1)) as [[-> _]|[_ ?]]; [|lia].
  replace (Z.log2 n + 1 - 53) with (Z.log2 n - 52) by lia.
  destruct (0 <=? Z.log2 n - 52) eqn:E; [apply Z.leb_le in E; lia|].
  replace (- (Z.log2 n - 52)) with (52 - Z.log2 n) by lia.
  replace (n * 2 ^ K * 2 ^ (52 - Z.log2 n))
    with (n * 2 ^ (52 - Z.log2 n) * 2 ^ K) by lia.
  rewrite rne_multiple by done.
  rewrite (Z.pow_neg_r 2 (Z.log2 n - 52)) by lia. by rewrite Z.mul_0_r.
Qed.

Lemma to_int_exact (n : Z) :
  0 < n < 2 ^ 52 ->
  to_int (Finite (n * 2 ^ (52 - Z.log2 n)) (Z.log2 n - 52)) = Ok n.
Proof.
  intros [Hn0 Hn]. pose proof (Z.log2_nonneg n) as Hl.
  assert (Z.log2 n < 52) as Hl52 by (apply Z.log2_lt_pow2; lia).
  simpl. f_equal. rewrite Z.shiftl_div_pow2 by lia.
  replace (- (Z.log2 n - 52)) with (52 - Z.log2 n) by lia.
  apply Z.div_mul. pose proof (pow2_pos (52 - Z.log2 n)). lia.
Qed.

(** The float of an [int] below 2^52. *)
Lemma of_int_exact (n : Z) :
  0 < n < 2 ^ 52 ->
  round n 1 = Finite (n * 2 ^ (52 - Z.log2 n)) (Z.log2 n - 52).
Proof.
  intros Hn. rewrite <- (round_exact n 0) by lia. f_equal. simpl. lia.
Qed.

(** A thousand times an [int], when the product is below 2^52, is exact. *)
Lemma times_1000_exact (n : Z) :
  0 <= n -> n * 1000 < 2 ^ 52 ->
  to_int (mul (round n 1) (of_int 1000)) = Ok (n * 1000).
Proof.
  intros Hn0 Hn.
  assert (of_int 1000 = Finite (1000 * 2 ^ 43) (- 43)) as -> by reflexivity.
  destruct (Z.eq_dec n 0) as [->|Hne]; [reflexivity|].
  assert (0 < n < 2 ^ 52) as Hn' by lia.
  rewrite of_int_exact by done. unfold mul.
  pose proof (Z.log2_nonneg n) as Hl.
  assert (Z.log2 n < 52) as Hl52 by (apply Z.log2_lt_pow2; lia).
  destruct (0 <=? Z.log2 n - 52 + - 43) eqn:E; [apply Z.leb_le in E; lia|].
  replace (- (Z.log2 n - 52 + - 43)) with (95 - Z.log2 n) by lia.
  replace (n * 2 ^ (52 - Z.log2 n) * (1000 * 2 ^ 43))
    with (n * 1000 * 2 ^ (95 - Z.log2 n)).
  - rewrite round_exact by lia. apply to_int_exact. lia.
  - replace (95 - Z.log2 n) with (52 - Z.log2 n + 43) by lia.
    rewrite pow2_split by lia. lia.
Qed.

Lemma pow10_le_12 (k : nat) : (k <= 12)%nat -> 10 ^ Z.of_nat k * 1000 < 2 ^ 50.
Proof.
  intros Hk. apply Z.le_lt_trans with (10 ^ 12 * 1000); [|reflexivity].
  apply Z.mul_le_mono_nonneg_r; [lia|]. apply Z.pow_le_mono_r; lia.
Qed.

End ExactFacts.

Import ExactFacts.

(** X4.  When the first run of digits and points in the cleaned input is a
    string of at most 12 digits, [clean_reviews] returns the number it
    denotes, a thousand times that number when a "k" follows, in canonical
    decimal form: leading zeros are dropped. *)
Theorem clean_reviews_of_digits (reviews_str digits suffix : string) :
  search_number_k (normalised reviews_str) = Some (digits, suffix) ->
  forallb is_digit digits = true ->
  (String.length digits <= 12)%nat ->
  clean_reviews reviews_str
  = Ok (Some (str_of_int (if String.eqb suffix "k"
                          then value_from 0 digits * 1000
                          else value_from 0 digits))).
Proof.
  intros Hm Hd Hlen. unfold clean_reviews.
  destruct reviews_str as [|c s]; [done|]. simpl falsy. cbv iota.
  fold (normalised (String c s)). rewrite Hm.
  assert (digits <> "") as Hne.
  { unfold search_number_k in Hm.
    destruct (search_run digit_dot (normalised (String c s))) as [[run rest]|] eqn:E;
      [|done].
    apply search_run_some in E as [Hne _].
    by destruct rest as [|[[] [] [] [] [] [] [] []] rest]; simplify_eq. }
  assert (of_str digits = Ok (round (value_from 0 digits) 1)) as ->.
  { unfold of_str.
    rewrite after_absent, split_head_absent by by apply digits_without.
    pose proof (digits_value_spec digits Hd) as Hv.
    destruct digits; [done|]. by rewrite Hv. }
  pose proof (value_from_range digits Hd) as [Hv0 Hv].
  pose proof (pow10_le_12 _ Hlen) as Hpow.
  assert (0 < 10 ^ Z.of_nat (String.length digits)) by (apply Z.pow_pos_nonneg; lia).
  set (v := value_from 0 digits) in *.
  destruct (String.eqb suffix "k").
  - rewrite times_1000_exact; [done|lia|].
    apply Z.lt_trans with (2 ^ 50); [lia|reflexivity].
  - rewrite round_floor; [|lia|split; [lia|reflexivity]].
    by rewrite Z.div_1_r.
Qed.

Lemma clean_reviews_of_digits_witness :
  clean_reviews "(0,042k reviews)" = Ok (Some "42000").
Proof.
  apply (clean_reviews_of_digits "(0,042k reviews)" "0042" "k");
    [reflexivity|reflexivity|simpl; lia].
Defined.

(** ** What [float] takes for a number *)

Module LiteralFacts.

Lemma uint_of_string_digits (s : string) (d : Decimal.uint) :
  NilEmpty.uint_of_string s = Some d -> forallb is_digit s = true.
Proof.
  revert d. induction s as [|c s IH]; intros d; simpl; [done|].
  destruct (NilEmpty.uint_of_string s) as [d'|] eqn:E.
  - rewrite (IH d' eq_refl), andb_true_r.
    destruct c as [[] [] [] [] [] [] [] []]; simpl; done.
  - destruct c as [[] [] [] [] [] [] [] []]; simpl; done.
Qed.

Lemma digits_value_some (s : string) (v : Z) :
  digits_value s = Some v -> forallb is_digit s = true.
Proof.
  unfold digits_value. destruct (NilEmpty.uint_of_string s) eqn:E; [|done].
  intros _. eapply uint_of_string_digits, E.
Qed.

Lemma count_absent (c : ascii) (s : string) :
  count_char c s = O <-> forallb (fun d => negb (Ascii.eqb d c)) s = true.
Proof.
  induction s as [|d s IH]; simpl; [done|].
  destruct (Ascii.eqb d c); simpl; [done|exact IH].
Qed.

Lemma count_after (c : ascii) (s rest : string) :
  after c s = Some rest -> count_char c s = S (count_char c rest).
Proof.
  induction s as [|d s IH]; simpl; [done|].
  destruct (Ascii.eqb d c); [by intros [= ->]|exact IH].
Qed.

Lemma after_none (c : ascii) (s : string) :
  after c s = None -> count_char c s = O.
Proof.
  induction s as [|d s IH]; simpl; [done|].
  destruct (Ascii.eqb d c); [done|exact IH].
Qed.

(** In a run of digits and points, the digits are what is not a point. *)
Lemma digits_of_run (run : string) :
  forallb digit_dot run = true ->
  forallb is_digit run = true <-> count_char "." run = O.
Proof.
  intros Hrun. rewrite count_absent.
  induction run as [|c run IH]; simpl; [done|].
  simpl in Hrun. apply andb_true_iff in Hrun as [Hc Hrun].
  rewrite !andb_true_iff, (IH Hrun). unfold digit_dot in Hc.
  destruct (Ascii.eqb c ".") eqn:E.
  - apply Ascii.eqb_eq in E as ->. simpl. intuition congruence.
  - rewrite orb_false_r in Hc. rewrite Hc. simpl. tauto.
Qed.

Lemma after_suffix (p : ascii -> bool) (c : ascii) (s rest : string) :
  forallb p s = true -> after c s = Some rest ->
  forallb p rest = true /\ s = split_head c s +:+ String c rest.
Proof.
  induction s as [|d s IH]; simpl; [done|].
  intros [Hd Hs]%andb_true_iff. destruct (Ascii.eqb d c) eqn:E.
  - intros [= ->]. apply Ascii.eqb_eq in E as ->. done.
  - intros H. destruct (IH Hs H) as [Hrest Heq]. split; [done|].
    change (String d s = String d (split_head c s +:+ String c rest)).
    by rewrite <- Heq.
Qed.

Lemma split_head_class (p : ascii -> bool) (c : ascii) (s : string) :
  forallb p s = true -> forallb p (split_head c s) = true.
Proof.
  induction s as [|d s IH]; simpl; [done|].
  intros [Hd Hs]%andb_true_iff. destruct (Ascii.eqb d c); [done|].
  simpl. by rewrite Hd, IH.
Qed.

Lemma no_digit_app (s1 s2 : string) :
  forallb (fun c => negb (is_digit c)) (s1 +:+ s2)
  = forallb (fun c => negb (is_digit c)) s1 && forallb (fun c => negb (is_digit c)) s2.
Proof.
  induction s1 as [|c s1 IH]; simpl; [done|]. by rewrite IH, andb_assoc.
Qed.

Lemma no_digit_point (s1 s2 : string) :
  forallb (fun c => negb (is_digit c)) (s1 +:+ String "." s2)
  = forallb (fun c => negb (is_digit c)) (s1 +:+ s2).
Proof. by rewrite !no_digit_app. Qed.

Lemma digits_no_digit (s : string) :
  forallb is_digit s = true ->
  forallb (fun c => negb (is_digit c)) s = true -> s = "".
Proof.
  destruct s as [|c s]; [done|]. simpl.
  intros [Hc _]%andb_true_iff [Hc' _]%andb_true_iff. by rewrite Hc in Hc'.
Qed.

(** [float] accepts a run of digits and points exactly when it has a digit
    and at most one point; it raises nothing but [ValueError], and returns
    no not-a-number. *)
Lemma of_str_literal (run : string) :
  forallb digit_dot run = true ->
  if float_literal run
  then exists x, of_str run = Ok x /\ x <> NaN
  else of_str run = Raise ValueError.
Proof.
  intros Hrun. unfold float_literal, of_str.
  assert (forall p q, round p q <> NaN) as Hround.
  { intros p q. unfold round. repeat case_match; done. }
  pose proof (split_head_spec "." run) as [Hint _].
  pose proof (split_head_class digit_dot "." run Hrun) as Hint'.
  assert (forallb is_digit (split_head "." run) = true) as Hi.
  { apply digits_of_run; [done|]. by apply count_absent. }
  destruct (after "." run) as [frac|] eqn:Hafter.
  - destruct (after_suffix digit_dot "." run frac Hrun Hafter) as [Hfrac Heq].
    rewrite (count_after _ _ _ Hafter).
    change (S (count_char "." frac) <=? 1)%nat with (count_char "." frac <=? 0)%nat.
    pose proof (f_equal (forallb (fun c => negb (is_digit c))) Heq) as Hnd.
    rewrite no_digit_point in Hnd. rewrite Hnd. clear Hnd.
    destruct (count_char "." frac) as [|k] eqn:Hk; simpl Nat.leb.
    + apply digits_of_run in Hk; [|done]. rewrite andb_true_r.
      assert (forallb is_digit (split_head "." run +:+ frac) = true) as Hall
        by by apply forallb_app.
      pose proof (digits_value_spec _ Hall) as Hv.
      destruct (split_head "." run +:+ frac) as [|a s0] eqn:E; [done|].
      rewrite Hv.
      destruct (forallb (fun c => negb (is_digit c)) (String a s0)) eqn:Hno.
      { by apply digits_no_digit in Hno. }
      simpl. eexists. split; [done|]. apply Hround.
    + rewrite andb_false_r.
      destruct (split_head "." run +:+ frac) as [|a s0] eqn:E; [done|].
      destruct (digits_value (String a s0)) as [v|] eqn:Hv; [|done].
      apply digits_value_some in Hv. rewrite <- E in Hv.
      assert (forallb is_digit frac = true) as Hf.
      { clear -Hv. induction (split_head "." run) as [|c s IH]; simpl in *; [done|].
        apply andb_true_iff in Hv as [_ Hv]. auto. }
      apply digits_of_run in Hf; [congruence|done].
  - rewrite (after_none _ _ Hafter). simpl Nat.leb. rewrite andb_true_r.
    assert (split_head "." run = run) as Heq.
    { apply split_head_absent, count_absent, after_none, Hafter. }
    rewrite Heq in *. pose proof (digits_value_spec _ Hi) as Hv.
    destruct run as [|a s0]; [done|]. rewrite Hv.
    destruct (forallb (fun c => negb (is_digit c)) (String a s0)) eqn:Hno.
    { by apply digits_no_digit in Hno. }
    simpl. eexists. split; [done|]. apply Hround.
Qed.

(** A thousand times a float that is a number is a number. *)
Lemma times_1000_number (x : float) : x <> NaN -> mul x (of_int 1000) <> NaN.
Proof.
  assert (of_int 1000 = Finite (1000 * 2 ^ 43) (- 43)) as -> by reflexivity.
  destruct x as [m e| |]; [| |done]; intros _; simpl.
  - unfold round. repeat case_match; done.
  - done.
Qed.

End LiteralFacts.

Import LiteralFacts.

(** X5.  [clean_reviews] raises [ValueError] exactly when the first run of
    digits and points in the cleaned input is no number for [float]: when it
    has no digit or more than one point.  The only other exception it raises
    is [OverflowError], from [int] on an infinite float. *)
Theorem clean_reviews_value_error (reviews_str run suffix : string) :
  search_number_k (normalised reviews_str) = Some (run, suffix) ->
  (clean_reviews reviews_str = Raise ValueError <-> float_literal run = false)
  /\ (forall e, clean_reviews reviews_str = Raise e ->
        e = ValueError \/ e = OverflowError).
Proof.
  intros Hm. unfold clean_reviews.
  destruct reviews_str as [|c s]; [done|]. simpl falsy. cbv iota.
  fold (normalised (String c s)). rewrite Hm.
  assert (forallb digit_dot run = true) as Hrun.
  { unfold search_number_k in Hm.
    destruct (search_run digit_dot (normalised (String c s))) as [[run' rest]|] eqn:E;
      [|done].
    apply search_run_some in E as [_ Hrun].
    by destruct rest as [|[[] [] [] [] [] [] [] []] rest]; simplify_eq. }
  pose proof (of_str_literal run Hrun) as Hlit.
  destruct (float_literal run).
  - destruct Hlit as (x & -> & Hx).
    set (scaled := if String.eqb suffix "k" then _ else _).
    assert (scaled <> NaN) as Hs.
    { unfold scaled. destruct (String.eqb suffix "k"); [|done].
      by apply times_1000_number. }
    destruct scaled as [m e| |]; simpl; [| |done].
    + split; [split; done|done].
    + split; [split; done|]. intros e [= <-]. by right.
  - rewrite Hlit. split; [done|]. intros e [= <-]. by left.
Qed.

Lemma clean_reviews_value_error_witness :
  clean_reviews "1.2.3k" = Raise ValueError.
Proof.
  apply (clean_reviews_value_error "1.2.3k" "1.2.3" "k"); reflexivity.
Defined.

(** ** The records of [parse_gigs] *)

Module StripFacts.

Lemma lstrip_length (s : string) : (String.length (lstrip s) <= String.length s)%nat.
Proof.
  induction s as [|c s IH]; simpl; [done|].
  destruct (is_space c); simpl; lia.
Qed.

Lemma rstrip_rstrip (s : string) : rstrip (rstrip s) = rstrip s.
Proof.
  induction s as [|c s IH]; [done|].
  cbn [rstrip]. destruct (rstrip s) as [|a r] eqn:E.
  - destruct (is_space c) eqn:Hc; [done|]. cbn [rstrip]. by rewrite Hc.
  - cbn [rstrip]. cbn [rstrip] in IH. by rewrite IH.
Qed.

Lemma lstrip_rstrip (s : string) : lstrip s = s -> lstrip (rstrip s) = rstrip s.
Proof.
  destruct s as [|c s]; [done|]. cbn [lstrip].
  destruct (is_space c) eqn:Hc.
  - intros H. pose proof (lstrip_length s) as Hlen. rewrite H in Hlen.
    simpl in Hlen. lia.
  - intros _. cbn [rstrip]. destruct (rstrip s); rewrite ?Hc; cbn [lstrip]; by rewrite Hc.
Qed.

Lemma lstrip_lstrip (s : string) : lstrip (lstrip s) = lstrip s.
Proof.
  induction s as [|c s IH]; [done|]. cbn [lstrip].
  destruct (is_space c) eqn:Hc; [done|]. cbn [lstrip]. by rewrite Hc.
Qed.

(** [strip] leaves what it returns alone. *)
Lemma strip_trimmed (s : string) : trimmed (strip s).
Proof.
  unfold trimmed, strip.
  by rewrite lstrip_rstrip, rstrip_rstrip by apply lstrip_lstrip.
Qed.

End StripFacts.

Import StripFacts.

Module RecordFacts.

Section Card.

Variable doc : Soup.node.
Variable card : Soup.path.
Variable card_identifier : card_id.

Lemma extract_title_and_url_filled (gig_info : dict) :
  filled gig_info ->
  yields (extract_title_and_url doc card card_identifier gig_info) filled.
Proof.
  intros H. unfold extract_title_and_url.
  destruct (Soup.select_one doc card Selectors.title) as [title_element|];
    [|repeat yields_step; done].
  destruct (Soup.attr doc title_element "href") as [gig_url_raw|];
    [|apply yields_ret; by constructor].
  destruct gig_url_raw as [|c raw]; [apply yields_ret; by constructor|].
  change (PyStr.falsy (String c raw)) with false. cbv iota.
  pose proof (filled_gig_url _ (String c raw)
                (filled_title _ (Soup.text doc title_element) H) ltac:(done)) as Hu.
  destruct (normalize_gig_url (String c raw)) as [url unusual].
  repeat yields_step. exact Hu.
Qed.

Lemma extract_seller_name_filled (gig_info : dict) :
  filled gig_info ->
  yields (extract_seller_name doc card card_identifier gig_info)
    (fun r => filled (fst r)).
Proof.
  intros H. unfold extract_seller_name.
  repeat case_match; repeat yields_step; simpl; by try constructor.
Qed.

Lemma extract_seller_level_filled (gig_info : dict) :
  filled gig_info -> yields (extract_seller_level doc card gig_info) filled.
Proof.
  intros H. unfold extract_seller_level.
  repeat case_match; repeat yields_step; by constructor.
Qed.

Lemma extract_seller_country_filled (container : option Soup.path) (gig_info : dict) :
  filled gig_info ->
  yields (extract_seller_country doc card card_identifier container gig_info) filled.
Proof.
  intros H. unfold extract_seller_country.
  repeat case_match; repeat yields_step; by try constructor.
Qed.

Lemma extract_price_filled (gig_info : dict) :
  filled gig_info -> yields (extract_price doc card card_identifier gig_info) filled.
Proof.
  intros H. unfold extract_price.
  repeat case_match; repeat yields_step; by try constructor.
Qed.

Lemma extract_rating_and_reviews_filled (gig_info : dict) :
  filled gig_info ->
  yields (extract_rating_and_reviews doc card card_identifier gig_info) filled.
Proof.
  intros H w d w'.
  unfold extract_rating_and_reviews, bind, ret, log, emit, lift.
  repeat case_match; intros; simplify_eq;
    eauto using filled_rating, filled_num_reviews, filled_no_reviews.
Qed.

(** What [extract_fields] returns is built by those assignments. *)
Lemma extract_fields_filled :
  yields (extract_fields doc card card_identifier) filled.
Proof.
  unfold extract_fields.
  eapply yields_bind; [apply extract_title_and_url_filled, filled_initial|].
  intros d0 H0.
  eapply yields_bind; [apply extract_seller_name_filled, H0|].
  intros [d1 container] H1. simpl in *.
  eapply yields_bind; [apply extract_seller_level_filled, H1|].
  intros d2 H2.
  eapply yields_bind; [apply extract_seller_country_filled, H2|].
  intros d3 H3.
  eapply yields_bind; [apply extract_price_filled, H3|].
  intros d4 H4. by apply extract_rating_and_reviews_filled.
Qed.

End Card.

(** The record of a card is the placeholder or built by the assignments. *)
Lemma record_of_cases (doc : Soup.node) (card : Soup.path) :
  (record_of doc card = error_record
   /\ exists e w', extract_fields doc card (O, O) initial_world = (Raise e, w'))
  \/ (filled (record_of doc card)
      /\ exists w', extract_fields doc card (O, O) initial_world
                    = (Ok (record_of doc card), w')).
Proof.
  unfold record_of, extract_card, try_except.
  destruct (extract_fields doc card (O, O) initial_world) as [[gig|e] w'] eqn:E.
  - right. split; [|by eexists]. eapply extract_fields_filled, E.
  - left. split; [done|]. by eexists _, _.
Qed.

(** [parse_gigs] returns the records of the cards and only logs. *)
Lemma parse_gigs_returns (BeautifulSoup : string -> Soup.node)
    (html_content : string) (w : world) :
  exists evs,
    parse_gigs BeautifulSoup html_content w
      = (Ok (map (record_of (BeautifulSoup html_content))
               (cards_of BeautifulSoup html_content)),
         World (navigations w) (trace w ++ evs))
    /\ Forall is_log evs.
Proof.
  assert (forall evs, Forall about_a_card evs -> Forall is_log evs) as Hlog.
  { intros evs H. eapply Forall_impl; [exact H|]. by intros [l m| | | |]. }
  unfold cards_of. set (soup := BeautifulSoup html_content).
  destruct w as [n t]. unfold parse_gigs. fold soup.
  destruct html_content as [|c0 s0]; simpl PyStr.falsy; cbv iota.
  { exists [Log WARNING HtmlContentEmpty]. split; [done|]. by repeat constructor. }
  unfold located_cards in *.
  generalize (parse_cards_spec soup). generalize (parse_cards soup).
  intros loop Hloop.
  destruct (Soup.select soup [] Selectors.gig_cards) as [|c1 primary];
    [destruct (Soup.find_all soup ["article"; "div"] Selectors.gig_and_card)
       as [|c2 fallback]|];
    unfold bind, log, emit, ret; simpl.
  - eexists. split; [by rewrite <- !app_assoc|]. by repeat constructor.
  - match goal with
    | |- context [loop ?total ?i ?cards ?acc ?w0] =>
        destruct (Hloop total cards i acc w0) as (evs & -> & Hall)
    end.
    simpl. eexists. split; [by rewrite <- !app_assoc|].
    repeat (apply Forall_cons; split; [done|]).
    apply Forall_app. split; [by apply Hlog|by repeat constructor].
  - match goal with
    | |- context [loop ?total ?i ?cards ?acc ?w0] =>
        destruct (Hloop total cards i acc w0) as (evs & -> & Hall)
    end.
    simpl. eexists. split; [by rewrite <- !app_assoc|].
    repeat (apply Forall_cons; split; [done|]).
    apply Forall_app. split; [by apply Hlog|by repeat constructor].
Qed.

(** What holds of every record built by the assignments holds of every
    record of [parse_gigs] that is not the placeholder. *)
Lemma parse_gigs_records (P : dict -> Prop) (BeautifulSoup : string -> Soup.node)
    (html_content : string) (w : world) :
  (forall d, filled d -> P d) ->
  exists gigs w',
    parse_gigs BeautifulSoup html_content w = (Ok gigs, w')
    /\ Forall (fun gig => gig = error_record \/ P gig) gigs.
Proof.
  intros HP.
  destruct (parse_gigs_returns BeautifulSoup html_content w) as (evs & -> & _).
  eexists _, _. split; [done|]. apply Forall_map, Forall_forall. intros card _.
  simpl. destruct (record_of_cases (BeautifulSoup html_content) card)
    as [[-> _]|[H _]]; auto.
Qed.

(** What holds of every record [extract_fields] returns holds of every
    record of [parse_gigs] that is not the placeholder. *)
Lemma parse_gigs_extracted (P : dict -> Prop) (BeautifulSoup : string -> Soup.node)
    (html_content : string) (w : world) :
  (forall doc card card_identifier, yields (extract_fields doc card card_identifier) P) ->
  exists gigs w',
    parse_gigs BeautifulSoup html_content w = (Ok gigs, w')
    /\ Forall (fun gig => gig = error_record \/ P gig) gigs.
Proof.
  intros HP.
  destruct (parse_gigs_returns BeautifulSoup html_content w) as (evs & -> & _).
  eexists _, _. split; [done|]. apply Forall_map, Forall_forall. intros card _.
  simpl. destruct (record_of_cases (BeautifulSoup html_content) card)
    as [[-> _]|[_ [w' H]]]; [by left|right]. eapply HP, H.
Qed.

End RecordFacts.

Import RecordFacts.

Module FieldFacts.

Lemma filled_dom (d : dict) : filled d -> dom d = dom initial_gig_info.
Proof.
  induction 1 as [| d ? ? IH | d ? ? IH | d ? ? IH | d ? ? IH | d ? IH | d ? ? IH
                  | d ? ? IH | d ? ? IH | d ? ? ? IH | d ? IH]; [done|..];
    (rewrite dom_insert_lookup_L; [exact IH|]);
    apply elem_of_dom; rewrite IH; apply elem_of_dom; by eexists.
Qed.

Lemma filled_trimmed (d : dict) : filled d -> text_fields_trimmed d.
Proof.
  unfold text_fields_trimmed.
  induction 1 as [| d ? ? IH | d ? ? IH | d ? ? IH | d ? ? IH | d ? IH | d ? ? IH
                  | d ? ? IH | d ? ? IH | d ? ? ? IH | d ? IH];
    [repeat (apply Forall_cons; split); [..|by apply Forall_nil];
       intros v Hv; vm_compute in Hv; simplify_eq; reflexivity|..];
    repeat (apply Forall_cons in IH as [? IH]);
    (repeat (apply Forall_cons; split); [..|by apply Forall_nil]); intros v;
    rewrite ?lookup_insert_eq, ?lookup_insert_ne by done; auto;
    intros [= <-]; first [apply strip_trimmed|reflexivity].
Qed.

Lemma clean_price_digit_dot (s r : string) :
  clean_price s = Some r -> forallb digit_dot r = true.
Proof.
  unfold clean_price. destruct (falsy s); [done|].
  destruct (search_run digit_dot_comma s) as [[group0 rest]|] eqn:E; [|done].
  intros [= <-]. apply search_run_some in E as [_ Hrun].
  by apply remove_comma_digit_dot.
Qed.

Lemma clean_rating_digit_dot (s r : string) :
  clean_rating s = Some r -> r <> "" /\ forallb digit_dot r = true.
Proof.
  unfold clean_rating. destruct (falsy s); [done|].
  destruct (search_run digit_dot s) as [[group0 rest]|] eqn:E; [|done].
  intros [= <-]. by apply search_run_some in E.
Qed.

Lemma clean_reviews_digits (s r : string) :
  clean_reviews s = Ok (Some r) -> r <> "" /\ forallb is_digit r = true.
Proof.
  intros (n & _ & ->)%clean_reviews_image.
  split; [apply str_of_int_nonempty|apply str_of_int_digits].
Qed.

Lemma filled_numeric (d : dict) : filled d -> number_fields_numeric d.
Proof.
  unfold number_fields_numeric.
  induction 1 as [| d ? ? IH | d ? ? IH | d ? ? IH | d ? ? IH | d ? IH | d ? ? IH
                  | d ? ? IH | d ? ? IH | d ? ? ? IH Hn | d ? IH];
    [(split; [|split]); intros v Hv; vm_compute in Hv; simplify_eq|..];
    destruct IH as (IH1 & IH2 & IH3);
    (split; [|split]); intros v;
    rewrite ?lookup_insert_eq, ?lookup_insert_ne by done; auto;
    intros [= Hv]; subst;
    eauto using clean_price_digit_dot, clean_rating_digit_dot, clean_reviews_digits.
Qed.

End FieldFacts.

Import FieldFacts.

(** X6.  Every record [parse_gigs] returns is the placeholder, with its seven
    fields, or has exactly the eight fields of the initial record: no step
    of the extraction adds or removes a field. *)
Theorem records_have_the_initial_fields
    (BeautifulSoup : string -> Soup.node) (html_content : string) (w : world) :
  exists gigs w',
    parse_gigs BeautifulSoup html_content w = (Ok gigs, w')
    /\ Forall (fun gig =>
                 gig = error_record
                 \/ dom gig
                    = list_to_set
                        ["title"; "seller_name"; "seller_level"; "seller_country";
                         "price"; "num_reviews"; "rating"; "gig_url"]) gigs
    /\ dom error_record
       = list_to_set
           ["title"; "seller_name"; "seller_level"; "price"; "num_reviews";
            "rating"; "gig_url"].
Proof.
  destruct (parse_gigs_records
              (fun d => dom d = dom initial_gig_info)
              BeautifulSoup html_content w filled_dom) as (gigs & w' & Hrun & Hall).
  exists gigs, w'. split; [done|].
  split; [|unfold error_record; by rewrite dom_list_to_map_L].
  eapply Forall_impl; [exact Hall|]. intros gig [->|H]; [by left|right].
  rewrite H. unfold initial_gig_info. by rewrite dom_list_to_map_L.
Qed.

(** X7.  In every record of [parse_gigs] that is not the placeholder, the
    text fields title, seller_name, seller_level and seller_country hold
    [None] or text without white space at either end. *)
Theorem text_fields_are_stripped
    (BeautifulSoup : string -> Soup.node) (html_content : string) (w : world) :
  exists gigs w',
    parse_gigs BeautifulSoup html_content w = (Ok gigs, w')
    /\ Forall (fun gig =>
                 gig = error_record
                 \/ Forall (fun k => forall v, gig !! k = Some (Some v) -> trimmed v)
                      ["title"; "seller_name"; "seller_level"; "seller_country"])
         gigs.
Proof.
  exact (parse_gigs_records text_fields_trimmed BeautifulSoup html_content w
           filled_trimmed).
Qed.

(** X8.  In every record of [parse_gigs] that is not the placeholder, a price
    holds digits and points only, a rating is a non-empty string of digits
    and points, and a number of reviews is a non-empty string of digits. *)
Theorem number_fields_are_numeric
    (BeautifulSoup : string -> Soup.node) (html_content : string) (w : world) :
  exists gigs w',
    parse_gigs BeautifulSoup html_content w = (Ok gigs, w')
    /\ Forall (fun gig =>
                 gig = error_record
                 \/ ((forall price, gig !! "price" = Some (Some price) ->
                        forallb digit_dot price = true)
                     /\ (forall rating, gig !! "rating" = Some (Some rating) ->
                           rating <> "" /\ forallb digit_dot rating = true)
                     /\ (forall num_reviews,
                           gig !! "num_reviews" = Some (Some num_reviews) ->
                           num_reviews <> "" /\ forallb is_digit num_reviews = true)))
         gigs.
Proof.
  exact (parse_gigs_records number_fields_numeric BeautifulSoup html_content w
           filled_numeric).
Qed.

Module ReportFacts.

Section Card.

Variable doc : Soup.node.
Variable card : Soup.path.
Variable card_identifier : card_id.

(** The level is always set (lines 192-195), and no later step changes it. *)
Lemma seller_level_defined :
  yields (extract_fields doc card card_identifier)
    (fun d => exists l, d !! "seller_level" = Some (Some l)).
Proof.
  intros w gig w' H.
  apply extract_fields_steps in H
    as (d0 & d1 & container & d2 & d3 & d4 & w0 & w1 & w2 & w3 & w4
        & H0 & H1 & H2 & H3 & H4 & H5).
  apply extract_rating_and_reviews_keeps with (k := "seller_level") in H5; [|done..].
  apply extract_price_keeps with (k := "seller_level") in H4; [|done].
  apply extract_seller_country_keeps with (k := "seller_level") in H3; [|done].
  rewrite H5, H4, H3. clear -H2. revert H2.
  unfold extract_seller_level, ret. repeat case_match; intros; simplify_eq;
    rewrite lookup_insert_eq; by eexists.
Qed.

(** The URL is only set on the way on which the title is set
    (lines 159-173). *)
Lemma gig_url_needs_title :
  yields (extract_fields doc card card_identifier)
    (fun d => forall url, d !! "gig_url" = Some (Some url) ->
                exists title, d !! "title" = Some (Some title)).
Proof.
  intros w gig w' H.
  apply extract_fields_steps in H
    as (d0 & d1 & container & d2 & d3 & d4 & w0 & w1 & w2 & w3 & w4
        & H0 & H1 & H2 & H3 & H4 & H5).
  pose proof H5 as H5'. pose proof H4 as H4'. pose proof H3 as H3'.
  pose proof H2 as H2'. pose proof H1 as H1'.
  apply extract_rating_and_reviews_keeps with (k := "gig_url") in H5; [|done..].
  apply extract_price_keeps with (k := "gig_url") in H4; [|done].
  apply extract_seller_country_keeps with (k := "gig_url") in H3; [|done].
  apply extract_seller_level_keeps with (k := "gig_url") in H2; [|done].
  apply extract_seller_name_keeps with (k := "gig_url") in H1; [|done].
  apply extract_rating_and_reviews_keeps with (k := "title") in H5'; [|done..].
  apply extract_price_keeps with (k := "title") in H4'; [|done].
  apply extract_seller_country_keeps with (k := "title") in H3'; [|done].
  apply extract_seller_level_keeps with (k := "title") in H2'; [|done].
  apply extract_seller_name_keeps with (k := "title") in H1'; [|done].
  simpl in H1, H1'. rewrite H5, H4, H3, H2, H1, H5', H4', H3', H2', H1'.
  clear -H0. revert H0. unfold extract_title_and_url, bind, ret, log, emit.
  repeat case_match; intros; simplify_eq;
    rewrite ?lookup_insert_ne, ?lookup_insert_eq by done; try by eexists.
  all: match goal with H : initial_gig_info !! _ = _ |- _ => vm_compute in H end;
    done.
Qed.

(** The steps of the [try] block log warnings only. *)
Lemma extract_fields_warns :
  emits is_warning (extract_fields doc card card_identifier).
Proof.
  unfold extract_fields, extract_title_and_url, extract_seller_name,
    extract_seller_level, extract_seller_country, extract_price,
    extract_rating_and_reviews.
  repeat (repeat emits_step; repeat case_match).
Qed.

End Card.

Lemma error_cards_app (evs1 evs2 : list event) :
  error_cards (evs1 ++ evs2) = error_cards evs1 ++ error_cards evs2.
Proof.
  induction evs1 as [|ev evs1 IH]; [done|].
  destruct ev as [[] []| | | |]; simpl; by rewrite ?IH.
Qed.

Lemma error_cards_warnings (evs : list event) :
  Forall is_warning evs -> error_cards evs = [].
Proof.
  induction 1 as [|ev evs Hev _ IH]; [done|].
  destruct ev as [[] []| | | |]; done.
Qed.

(** A record built by the assignments is not the placeholder: it names a
    country. *)
Lemma filled_not_placeholder (d : dict) : filled d -> d <> error_record.
Proof.
  intros H Heq. apply FieldFacts.filled_dom in H. rewrite Heq in H.
  assert ("seller_country" ∈ dom error_record) as Hin.
  { rewrite H. apply elem_of_dom. by eexists. }
  apply elem_of_dom in Hin as [v Hv]. vm_compute in Hv. done.
Qed.

(** One turn of the loop reports the card exactly when it appends the
    placeholder. *)
Lemma extract_card_reports (doc : Soup.node) (card : Soup.path)
    (card_identifier : card_id) (w : world) :
  exists evs,
    extract_card doc card card_identifier w
      = (Ok (record_of doc card), World (navigations w) (trace w ++ evs))
    /\ error_cards evs
       = if bool_decide (record_of doc card = error_record)
         then [card_identifier] else [].
Proof.
  pose proof (extract_card_returns doc card card_identifier w) as Hr.
  destruct (extract_fields_warns doc card card_identifier w) as (evs & Ht & HP & Hn).
  unfold extract_card, try_except in *.
  destruct (extract_fields doc card card_identifier w) as [[gig|e] [n1 t1]] eqn:E;
    simpl in *; simplify_eq.
  - exists evs. split; [done|].
    rewrite bool_decide_eq_false_2; [by apply error_cards_warnings|].
    eapply filled_not_placeholder, extract_fields_filled, E.
  - unfold bind, log, emit, ret in *. simpl in *. simplify_eq.
    exists (evs ++ [Log ERROR (ErrorParsingCard card_identifier e)]).
    rewrite app_assoc, <- Hr. split; [done|].
    rewrite bool_decide_eq_true_2 by done.
    by rewrite error_cards_app, error_cards_warnings.
Qed.

Lemma parse_cards_reports (doc : Soup.node) (total : nat) (cards : list Soup.path) :
  forall (i : nat) (gigs_data : list dict) (w : world),
  exists evs,
    parse_cards doc total i cards gigs_data w
      = (Ok (gigs_data ++ map (record_of doc) cards),
         World (navigations w) (trace w ++ evs))
    /\ error_cards evs
       = map (fun position => (position, total))
           (placeholders i (map (record_of doc) cards)).
Proof.
  induction cards as [|card rest IH]; intros i gigs_data w.
  - exists []. simpl. rewrite !app_nil_r. by destruct w.
  - cbn [parse_cards]. unfold bind at 1.
    destruct (extract_card_reports doc card (S i, total) w) as (evs1 & -> & He1).
    destruct (IH (S i) (gigs_data ++ [record_of doc card])
                (World (navigations w) (trace w ++ evs1))) as (evs2 & -> & He2).
    exists (evs1 ++ evs2). cbn [navigations trace map placeholders].
    rewrite <- !app_assoc. split; [done|].
    rewrite error_cards_app, He1, He2.
    by destruct (bool_decide (record_of doc card = error_record)).
Qed.

End ReportFacts.

Import ReportFacts.

(** X9.  In every record of [parse_gigs] that is not the placeholder,
    seller_level and seller_country hold a string, never [None]. *)
Theorem seller_level_and_country_are_set
    (BeautifulSoup : string -> Soup.node) (html_content : string) (w : world) :
  exists gigs w',
    parse_gigs BeautifulSoup html_content w = (Ok gigs, w')
    /\ Forall (fun gig =>
                 gig = error_record
                 \/ ((exists level, gig !! "seller_level" = Some (Some level))
                     /\ (exists country, gig !! "seller_country" = Some (Some country))))
         gigs.
Proof.
  apply (parse_gigs_extracted
           (fun d => (exists l, d !! "seller_level" = Some (Some l))
                     /\ (exists c, d !! "seller_country" = Some (Some c)))).
  intros doc card card_identifier w0 gig w1 H. split.
  - eapply seller_level_defined, H.
  - eapply seller_country_defined, H.
Qed.

(** X10.  A record of [parse_gigs] holds a gig_url only when it holds a
    title: the link is read from the title element and from nowhere else. *)
Theorem gig_url_comes_with_title
    (BeautifulSoup : string -> Soup.node) (html_content : string) (w : world) :
  exists gigs w',
    parse_gigs BeautifulSoup html_content w = (Ok gigs, w')
    /\ Forall (fun gig =>
                 forall url, gig !! "gig_url" = Some (Some url) ->
                   exists title, gig !! "title" = Some (Some title))
         gigs.
Proof.
  destruct (parse_gigs_extracted
              (fun d => forall url, d !! "gig_url" = Some (Some url) ->
                          exists title, d !! "title" = Some (Some title))
              BeautifulSoup html_content w gig_url_needs_title)
    as (gigs & w' & Hrun & Hall).
  exists gigs, w'. split; [done|]. eapply Forall_impl; [exact Hall|].
  intros gig [->|H]; [|done]. intros url _. by eexists.
Qed.

(** With a parser that gives a tree for every text, [parse_gigs] logs one
    error record for each placeholder it returns and for nothing else. *)
Lemma parse_gigs_reports
    (BeautifulSoup : string -> Soup.node) (html_content : string) (w : world) :
  exists gigs evs,
    parse_gigs BeautifulSoup html_content w
      = (Ok gigs, World (navigations w) (trace w ++ evs))
    /\ error_cards evs
       = map (fun position => (position, List.length gigs)) (placeholders O gigs).
Proof.
  set (soup := BeautifulSoup html_content).
  destruct w as [n t]. unfold parse_gigs. fold soup.
  destruct html_content as [|c0 s0]; simpl PyStr.falsy; cbv iota.
  { by exists [], [Log WARNING HtmlContentEmpty]. }
  generalize (parse_cards_reports soup). generalize (parse_cards soup).
  intros loop Hloop.
  destruct (Soup.select soup [] Selectors.gig_cards) as [|c1 primary];
    [destruct (Soup.find_all soup ["article"; "div"] Selectors.gig_and_card)
       as [|c2 fallback]|];
    unfold bind, log, emit, ret; simpl.
  - eexists [], _. split; [by rewrite <- !app_assoc|done].
  - match goal with
    | |- context [loop ?total ?i ?cards ?acc ?w0] =>
        destruct (Hloop total cards i acc w0) as (evs & -> & Herr)
    end.
    simpl. eexists _, _. split; [by rewrite <- !app_assoc|].
    simpl. rewrite error_cards_app, Herr, app_nil_r. simpl.
    by rewrite length_map.
  - match goal with
    | |- context [loop ?total ?i ?cards ?acc ?w0] =>
        destruct (Hloop total cards i acc w0) as (evs & -> & Herr)
    end.
    simpl. eexists _, _. split; [by rewrite <- !app_assoc|].
    simpl. rewrite error_cards_app, Herr, app_nil_r. simpl.
    by rewrite length_map.
Qed.

(** ** The fetch and the run, for every browser *)

Module PerformFacts.

Lemma performs_ret {A} (P : event -> Prop) (a : A) : performs P (ret a).
Proof. intros [n t]. exists []. simpl. by rewrite Nat.add_0_r, app_nil_r. Qed.

Lemma performs_lift {A} (P : event -> Prop) (r : result A) : performs P (lift r).
Proof. intros [n t]. exists []. simpl. by rewrite Nat.add_0_r, app_nil_r. Qed.

Lemma performs_raise {A} (P : event -> Prop) (e : exn) : performs P (@raise A e).
Proof. intros [n t]. exists []. simpl. by rewrite Nat.add_0_r, app_nil_r. Qed.

Lemma performs_log (P : event -> Prop) (l : level) (m : message) :
  P (Log l m) -> performs P (log l m).
Proof.
  intros H [n t]. exists [Log l m]. simpl. rewrite Nat.add_0_r. auto.
Qed.

Lemma performs_sleep (P : event -> Prop) (d : delay) :
  P (Sleep d) -> performs P (emit (Sleep d)).
Proof.
  intros H [n t]. exists [Sleep d]. simpl. rewrite Nat.add_0_r. auto.
Qed.

Lemma performs_bind {A B} (P : event -> Prop) (m : M A) (k : A -> M B) :
  performs P m -> (forall a, performs P (k a)) -> performs P (bind m k).
Proof.
  intros Hm Hk w. unfold bind. destruct (Hm w) as (evs & Hw & HP).
  destruct (m w) as [[a|e] w1]; simpl in *; subst w1.
  - destruct (Hk a (World (navigations w + navigations_in evs) (trace w ++ evs)))
      as (evs' & Hw' & HP').
    exists (evs ++ evs'). rewrite Hw'. simpl.
    rewrite navigations_in_app, Nat.add_assoc, app_assoc.
    split; [done|]. by apply Forall_app.
  - eauto.
Qed.

Lemma performs_try_except {A} (P : event -> Prop) (m : M A) (h : exn -> M A) :
  performs P m -> (forall e, performs P (h e)) -> performs P (try_except m h).
Proof.
  intros Hm Hh w. unfold try_except. destruct (Hm w) as (evs & Hw & HP).
  destruct (m w) as [[a|e] w1]; simpl in *; subst w1.
  - eauto.
  - destruct (Hh e (World (navigations w + navigations_in evs) (trace w ++ evs)))
      as (evs' & Hw' & HP').
    exists (evs ++ evs'). rewrite Hw'. simpl.
    rewrite navigations_in_app, Nat.add_assoc, app_assoc.
    split; [done|]. by apply Forall_app.
Qed.

Lemma performs_driver_get (P : event -> Prop) (driver : nat -> string -> response)
    (url : string) :
  P (Navigate url) -> performs P (driver_get driver url).
Proof.
  intros H [n t]. exists [Navigate url]. unfold driver_get. simpl.
  rewrite Nat.add_1_r. by destruct (driver n url); auto.
Qed.

Ltac performs_step :=
  first [ apply performs_ret | apply performs_lift | apply performs_raise
        | apply performs_log; exact I
        | apply performs_sleep; exact I
        | apply performs_driver_get; exact I
        | apply performs_bind; [|intros ?]
        | apply performs_try_except; [|intros ?] ].

(** What a computation adds to a trace is determined by the run. *)
Lemma trace_extension (t evs1 evs2 : list event) :
  t ++ evs1 = t ++ evs2 -> evs1 = evs2.
Proof. apply app_inv_head. Qed.

Lemma logs_navigate_nowhere (evs : list event) :
  Forall is_log evs ->
  navigations_in evs = O /\ saves evs = [] /\ inter_page_delays evs = O
  /\ Forall scraping_event evs.
Proof.
  induction 1 as [|ev evs Hev _ (IH1 & IH2 & IH3 & IH4)]; [done|].
  destruct ev; try done. simpl. auto.
Qed.

Lemma scraping_saves_nothing (evs : list event) :
  Forall scraping_event evs -> saves evs = [].
Proof.
  induction 1 as [|ev evs Hev _ IH]; [done|]. destruct ev; done.
Qed.

Lemma fetch_is_scraping (ev : event) : fetch_event ev -> scraping_event ev.
Proof. destruct ev as [| |[]| |]; done. Qed.

Lemma fetch_delays (evs : list event) :
  Forall fetch_event evs -> inter_page_delays evs = O.
Proof.
  induction 1 as [|ev evs Hev _ IH]; [done|]. destruct ev as [| |[]| |]; done.
Qed.

Lemma saves_app (evs1 evs2 : list event) :
  saves (evs1 ++ evs2) = saves evs1 ++ saves evs2.
Proof.
  induction evs1 as [|ev evs1 IH]; [done|]. destruct ev; simpl; by rewrite ?IH.
Qed.

Lemma inter_page_delays_app (evs1 evs2 : list event) :
  inter_page_delays (evs1 ++ evs2)
  = (inter_page_delays evs1 + inter_page_delays evs2)%nat.
Proof.
  induction evs1 as [|ev evs1 IH]; [done|].
  destruct ev as [| |[]| |]; simpl; by rewrite ?IH.
Qed.

Section Browser.

Variable driver : nat -> string -> response.
Variable keyword : string.
Variable page_number : nat.

Lemma get_page_html_attempt_performs :
  performs fetch_event (get_page_html_attempt driver keyword page_number).
Proof.
  unfold get_page_html_attempt.
  repeat (repeat performs_step; repeat case_match).
Qed.

Lemma retrying_performs (retries_left : nat) :
  forall attempt_number,
  performs fetch_event
    (Tenacity.retrying backoff Tenacity.retry_if_transient
       (fun e attempt_number => log INFO (Retrying keyword page_number e attempt_number))
       (get_page_html_attempt driver keyword page_number)
       retries_left attempt_number).
Proof.
  induction retries_left as [|k IH]; intros attempt_number;
    rewrite retrying_unfold;
    (apply performs_try_except; [apply get_page_html_attempt_performs|]);
    intros e; destruct (Tenacity.retry_if_transient e);
    repeat performs_step. apply IH.
Qed.

Lemma get_page_html_performs :
  performs fetch_event (get_page_html driver keyword page_number).
Proof. apply retrying_performs. Qed.

Let url : string := fiverr_search_url keyword page_number.

(** The loop of the decorator, for every browser: how often it navigates,
    how long it waits, and how it ends. *)
Lemma retrying_contract (retries_left : nat) :
  forall (attempt_number n : nat) (t : list event),
  exists k evs r,
    Tenacity.retrying backoff Tenacity.retry_if_transient
      (fun e attempt_number => log INFO (Retrying keyword page_number e attempt_number))
      (get_page_html_attempt driver keyword page_number)
      retries_left attempt_number (World n t)
    = (r, World (n + S k) (t ++ evs))
    /\ (k <= retries_left)%nat
    /\ navigations_in evs = S k
    /\ backoff_waits evs = map backoff (seq attempt_number k)
    /\ (forall i, (i < k)%nat -> transient (driver (n + i)%nat url) = true)
    /\ match r with
       | Raise e =>
           e = RetryError /\ k = retries_left
           /\ transient (driver (n + k)%nat url) = true
       | Ok None =>
           exists e, raises (driver (n + k)%nat url) = Some e
                     /\ Tenacity.retry_if_transient e = false
       | Ok (Some html) =>
           exists page_source,
             driver (n + k)%nat url = PageSource page_source
             /\ html = (if says_no_results page_source
                        then no_results_page else page_source)
       end.
Proof.
  induction retries_left as [|retries IH]; intros attempt_number n t.
  - destruct (transient (driver n url)) eqn:Ht.
    + destruct (retrying_exhausted driver keyword page_number attempt_number n t Ht)
        as (evs & Hrun & Hn & Hb).
      exists O, evs, (Raise RetryError). rewrite Nat.add_1_r, Nat.add_0_r.
      repeat split; try done. intros i Hi. lia.
    + unfold transient in Ht. destruct (raises (driver n url)) as [e|] eqn:He.
      * destruct (retrying_fatal driver keyword page_number O attempt_number n t e He Ht)
          as (evs & Hrun & Hn & Hb).
        exists O, evs, (Ok None). rewrite Nat.add_1_r, Nat.add_0_r.
        repeat split; try done; [intros i Hi; lia|by exists e].
      * destruct (driver n url) as [e|e|html] eqn:Hd; [done..|].
        destruct (retrying_page driver keyword page_number O attempt_number n t html Hd)
          as (evs & Hrun & Hn & Hb).
        exists O, evs, (Ok (Some (if says_no_results html then no_results_page else html))).
        rewrite Nat.add_1_r, Nat.add_0_r.
        repeat split; try done; [intros i Hi; lia|by exists html].
  - destruct (transient (driver n url)) eqn:Ht.
    + destruct (retrying_after_failures driver keyword page_number 1 retries
                  attempt_number n t) as (evs0 & Hrun & Hn0 & Hb0).
      { intros i Hi. by replace i with O by lia; rewrite Nat.add_0_r. }
      destruct (IH (attempt_number + 1)%nat (n + 1)%nat (t ++ evs0))
        as (k & evs & r & Hrest & Hk & Hn & Hb & Hfail & Hr).
      exists (S k), (evs0 ++ evs), r.
      change (1 + retries)%nat with (S retries) in Hrun. rewrite Hrun, Hrest.
      rewrite app_assoc. replace (n + 1 + S k)%nat with (n + S (S k))%nat by lia.
      split; [done|]. split; [lia|].
      split; [rewrite navigations_in_app, Hn0, Hn; lia|].
      split; [rewrite backoff_waits_app, Hb0, Hb; simpl;
              by rewrite Nat.add_1_r|].
      split.
      * intros [|i] Hi; [by rewrite Nat.add_0_r|].
        replace (n + S i)%nat with (n + 1 + i)%nat by lia. apply Hfail. lia.
      * replace (n + S k)%nat with (n + 1 + k)%nat by lia.
        destruct r as [[html|]|e]; [done..|].
        destruct Hr as (-> & -> & Hlast). done.
    + unfold transient in Ht. destruct (raises (driver n url)) as [e|] eqn:He.
      * destruct (retrying_fatal driver keyword page_number (S retries)
                    attempt_number n t e He Ht) as (evs & Hrun & Hn & Hb).
        exists O, evs, (Ok None). rewrite Nat.add_1_r, Nat.add_0_r.
        repeat split; try done; [lia|intros i Hi; lia|by exists e].
      * destruct (driver n url) as [e|e|html] eqn:Hd; [done..|].
        destruct (retrying_page driver keyword page_number (S retries)
                    attempt_number n t html Hd) as (evs & Hrun & Hn & Hb).
        exists O, evs, (Ok (Some (if says_no_results html then no_results_page else html))).
        rewrite Nat.add_1_r, Nat.add_0_r.
        repeat split; try done; [lia|intros i Hi; lia|by exists html].
Qed.

End Browser.

End PerformFacts.

Import PerformFacts.

Module PaginationFacts.

Section Fetch.

Variable driver : nat -> string -> response.
Variable keyword : string.
Variable page_number : nat.

(** [get_page_html], for every browser. *)
Lemma get_page_html_contract (n : nat) (t : list event) :
  exists k evs r,
    get_page_html driver keyword page_number (World n t)
    = (r, World (n + S k) (t ++ evs))
    /\ (k < RETRY_ATTEMPTS)%nat
    /\ navigations_in evs = S k
    /\ backoff_waits evs = replicate k 2
    /\ Forall fetch_event evs
    /\ (forall i, (i < k)%nat ->
          transient (driver (n + i)%nat (fiverr_search_url keyword page_number)) = true)
    /\ match r with
       | Raise e =>
           e = RetryError /\ S k = RETRY_ATTEMPTS
           /\ transient (driver (n + k)%nat (fiverr_search_url keyword page_number))
              = true
       | Ok None =>
           exists e,
             raises (driver (n + k)%nat (fiverr_search_url keyword page_number)) = Some e
             /\ Tenacity.retry_if_transient e = false
       | Ok (Some html) =>
           says_no_results html = false
           /\ exists page_source,
                driver (n + k)%nat (fiverr_search_url keyword page_number)
                = PageSource page_source
                /\ html = (if says_no_results page_source
                           then no_results_page else page_source)
       end.
Proof.
  destruct (retrying_contract driver keyword page_number 2 1 n t)
    as (k & evs & r & Hrun & Hk & Hn & Hb & Hfail & Hr).
  destruct (get_page_html_performs driver keyword page_number (World n t))
    as (evs' & Hw & Hev).
  rewrite get_page_html_retrying in *. rewrite Hrun in Hw. simpl in Hw.
  injection Hw as _ Hw. apply trace_extension in Hw as <-.
  exists k, evs, r. split; [done|]. split; [unfold RETRY_ATTEMPTS; lia|].
  split; [done|]. split.
  { rewrite Hb. destruct k as [|[|[|k]]]; [done..|lia]. }
  split; [done|]. split; [done|].
  destruct r as [[html|]|e]; [|done|].
  - destruct Hr as (src & Hsrc & ->). split; [|by exists src].
    destruct (says_no_results src) eqn:E; [reflexivity|done].
  - destruct Hr as (-> & -> & Hlast). done.
Qed.

End Fetch.

Section Loop.

Variable driver : nat -> string -> response.
Variable BeautifulSoup : string -> Soup.node.

(** A page whose fetch gave the empty text ends the loop. *)
Lemma pagination_stops_on_blank (page_num : nat) (rest : list nat)
    (all_gigs_data : list dict) (pages_actually_scraped n n1 : nat)
    (t t1 : list event) :
  get_page_html driver search_keyword page_num
    (World n (t ++ [Log INFO (ProcessingPage page_num)])) = (Ok (Some ""), World n1 t1) ->
  pagination_loop driver BeautifulSoup (page_num :: rest) all_gigs_data
    pages_actually_scraped (World n t)
  = (Ok (all_gigs_data, page_num),
     World n1 (t1 ++ [Log ERROR (ContentWasNone page_num)])).
Proof.
  intros H. cbn [pagination_loop]. unfold bind at 1, log at 1, emit at 1.
  cbn [navigations trace]. unfold bind at 1, try_except. rewrite H.
  reflexivity.
Qed.

(** A page that was fetched is parsed; its records are added, and the loop
    goes on, unless there are none and the page is not the first. *)
Lemma pagination_parses_page (page_num : nat) (rest : list nat)
    (all_gigs_data : list dict) (pages_actually_scraped n n1 : nat)
    (t t1 : list event) (html_content : string) :
  get_page_html driver search_keyword page_num
    (World n (t ++ [Log INFO (ProcessingPage page_num)]))
    = (Ok (Some html_content), World n1 t1) ->
  html_content <> "" ->
  exists evs,
    Forall is_log evs
    /\ pagination_loop driver BeautifulSoup (page_num :: rest) all_gigs_data
         pages_actually_scraped (World n t)
       = match records_of BeautifulSoup html_content with
         | [] =>
             if (1 <? page_num)%nat
             then (Ok (all_gigs_data, page_num), World n1 (t1 ++ evs))
             else next_page driver BeautifulSoup page_num rest all_gigs_data (World n1 (t1 ++ evs))
         | _ :: _ =>
             next_page driver BeautifulSoup page_num rest
               (all_gigs_data ++ records_of BeautifulSoup html_content)
               (World n1 (t1 ++ evs))
         end.
Proof.
  intros H Hne. cbn [pagination_loop]. unfold bind at 1, log at 1, emit at 1.
  cbn [navigations trace]. unfold bind at 1, try_except. rewrite H.
  destruct html_content as [|c s]; [done|]. cbv iota. unfold bind at 1.
  destruct (parse_gigs_returns BeautifulSoup (String c s) (World n1 t1))
    as (evs & -> & Hlog).
  fold (records_of BeautifulSoup (String c s)). cbn [navigations trace].
  destruct (records_of BeautifulSoup (String c s)) as [|gig gigs].
  - unfold bind at 1, log at 1, emit at 1. cbn [navigations trace].
    destruct (1 <? page_num)%nat.
    + exists (evs ++ [Log INFO (NoGigsOnPage page_num);
                      Log INFO (AssumingEndOfResults page_num)]).
      split; [apply Forall_app; split; [done|by repeat constructor]|].
      unfold bind, log, emit, ret. cbn [navigations trace].
      by rewrite <- !app_assoc.
    + exists (evs ++ [Log INFO (NoGigsOnPage page_num)]).
      split; [apply Forall_app; split; [done|by repeat constructor]|].
      by rewrite <- !app_assoc.
  - unfold bind at 1, log at 1, emit at 1. cbn [navigations trace].
    exists (evs ++ [Log INFO (ExtractedGigs (List.length (gig :: gigs)) page_num)]).
    split; [apply Forall_app; split; [done|by repeat constructor]|].
    by rewrite <- !app_assoc.
Qed.

Lemma next_page_contract (page_num : nat) (rest : list nat)
    (all_gigs_data : list dict) (n : nat) (t : list event) :
  loop_contract driver BeautifulSoup rest ->
  exists collected last_page evs,
    next_page driver BeautifulSoup page_num rest all_gigs_data (World n t)
    = (Ok (all_gigs_data ++ collected, last_page),
       World (n + navigations_in evs) (t ++ evs))
    /\ Forall scraping_event evs
    /\ (navigations_in evs <= RETRY_ATTEMPTS * List.length rest)%nat
    /\ (inter_page_delays evs
        <= List.length (filter (fun p => (p < MAX_PAGES_TO_SCRAPE)%nat)
                          (page_num :: rest)))%nat
    /\ In last_page (page_num :: rest).
Proof.
  intros IH. unfold next_page. rewrite filter_cons.
  destruct (Nat.ltb_spec page_num MAX_PAGES_TO_SCRAPE) as [Hlt|Hge].
  - rewrite decide_True by done.
    unfold bind at 1 2, log, emit. cbn [navigations trace].
    destruct (IH all_gigs_data page_num n
                ((t ++ [Log INFO WaitingBeforeNextPage]) ++ [Sleep InterPageDelay]))
      as (collected & last_page & evs & -> & Hev & Hn & Hd & Hlast).
    exists collected, last_page,
      ([Log INFO WaitingBeforeNextPage; Sleep InterPageDelay] ++ evs).
    rewrite <- !app_assoc. split; [done|].
    split; [by repeat (apply Forall_cons; split; [done|])|].
    split; [done|]. split; [simpl; lia|].
    destruct rest; [left; by subst|right; tauto].
  - rewrite decide_False by lia.
    unfold bind at 1, ret at 1.
    destruct (IH all_gigs_data page_num n t)
      as (collected & last_page & evs & -> & Hev & Hn & Hd & Hlast).
    exists collected, last_page, evs. split; [done|]. split; [done|].
    split; [done|]. split; [done|].
    destruct rest; [left; by subst|right; tauto].
Qed.

Local Ltac stop_case :=
  cbn [app navigations_in inter_page_delays];
  rewrite ?navigations_in_app, ?inter_page_delays_app;
  repeat match goal with
         | H : navigations_in _ = _ |- _ => rewrite H
         | H : inter_page_delays _ = _ |- _ => rewrite H
         end;
  cbn [navigations_in inter_page_delays];
  split; [do 2 f_equal; lia|];
  split; [apply Forall_cons; split; [done|];
          repeat (apply Forall_app; split; [done|]);
          first [done|by repeat constructor]|];
  split; [unfold RETRY_ATTEMPTS in *; simpl; lia|];
  split; [lia|]; split; [by left|lia].

Lemma pagination_contract (pages : list nat) :
  loop_contract driver BeautifulSoup pages.
Proof.
  induction pages as [|page_num rest IH];
    intros all_gigs_data pages_actually_scraped n t.
  { exists [], pages_actually_scraped, []. simpl.
    rewrite !app_nil_r, Nat.add_0_r. repeat split; done. }
  destruct (get_page_html_contract driver search_keyword page_num n
              (t ++ [Log INFO (ProcessingPage page_num)]))
    as (k & evs0 & r & Hrun & Hk & Hn0 & _ & Hev0 & _ & Hr).
  assert (Forall scraping_event evs0) as Hsc0.
  { eapply Forall_impl; [exact Hev0|]. apply fetch_is_scraping. }
  pose proof (fetch_delays evs0 Hev0) as Hd0.
  assert (RETRY_ATTEMPTS * List.length (page_num :: rest)
          = RETRY_ATTEMPTS + RETRY_ATTEMPTS * List.length rest)%nat as Hlen
    by (simpl; lia).
  destruct r as [[[|c s]|]|e].
  - (* the empty text *)
    rewrite (pagination_stops_on_blank _ _ _ _ _ _ _ _ Hrun).
    exists [], page_num,
      ([Log INFO (ProcessingPage page_num)] ++ evs0
         ++ [Log ERROR (ContentWasNone page_num)]).
    rewrite app_nil_r, <- !app_assoc. stop_case.
  - (* a page *)
    destruct (pagination_parses_page page_num rest all_gigs_data
                pages_actually_scraped _ _ _ _ (String c s) Hrun ltac:(done))
      as (evs1 & Hlog1 & ->).
    destruct (logs_navigate_nowhere evs1 Hlog1) as (Hn1 & _ & Hd1 & Hsc1).
    assert (forall acc,
              exists collected last_page evs,
                next_page driver BeautifulSoup page_num rest acc
                  (World (n + S k) (((t ++ [Log INFO (ProcessingPage page_num)]) ++ evs0)
                                      ++ evs1))
                = (Ok (acc ++ collected, last_page),
                   World (n + navigations_in evs) (t ++ evs))
                /\ Forall scraping_event evs
                /\ (navigations_in evs
                    <= RETRY_ATTEMPTS * List.length (page_num :: rest))%nat
                /\ (inter_page_delays evs
                    <= List.length (filter (fun p => (p < MAX_PAGES_TO_SCRAPE)%nat)
                                      (page_num :: rest)))%nat
                /\ In last_page (page_num :: rest)
                /\ (1 <= navigations_in evs)%nat) as Hnext.
    { intros acc.
      destruct (next_page_contract page_num rest acc (n + S k)
                  (((t ++ [Log INFO (ProcessingPage page_num)]) ++ evs0) ++ evs1) IH)
        as (collected & last_page & evs & -> & Hev & Hn & Hd & Hlast).
      exists collected, last_page,
        ([Log INFO (ProcessingPage page_num)] ++ evs0 ++ evs1 ++ evs).
      rewrite <- !app_assoc. cbn [app navigations_in inter_page_delays].
      rewrite !navigations_in_app, !inter_page_delays_app, Hn0, Hn1, Hd0, Hd1.
      split; [do 2 f_equal; lia|].
      split; [apply Forall_cons; split; [done|];
              repeat (apply Forall_app; split; [done|]); done|].
      split; [unfold RETRY_ATTEMPTS in *; simpl in *; lia|].
      split; [simpl in *; lia|]. split; [done|lia]. }
    destruct (records_of BeautifulSoup (String c s)) as [|gig gigs] eqn:Hrec.
    + destruct (1 <? page_num)%nat.
      * exists [], page_num, ([Log INFO (ProcessingPage page_num)] ++ evs0 ++ evs1).
        rewrite app_nil_r, <- !app_assoc. stop_case.
      * destruct (Hnext all_gigs_data)
          as (collected & last_page & evs & -> & Hev & Hn & Hd & Hlast & Hpos).
        by exists collected, last_page, evs.
    + destruct (Hnext (all_gigs_data ++ gig :: gigs))
        as (collected & last_page & evs & -> & Hev & Hn & Hd & Hlast & Hpos).
      exists ((gig :: gigs) ++ collected), last_page, evs.
      by rewrite app_assoc.
  - (* no text: an unknown error *)
    rewrite (pagination_stops_on_none driver BeautifulSoup _ _ _ _ _ _ _ _ Hrun).
    exists [], page_num,
      ([Log INFO (ProcessingPage page_num)] ++ evs0
         ++ [Log ERROR (ContentWasNone page_num)]).
    rewrite app_nil_r, <- !app_assoc. stop_case.
  - (* the last retry failed *)
    rewrite (pagination_stops_on_raise driver BeautifulSoup _ _ _ _ _ _ _ _ _ Hrun).
    exists [], page_num,
      ([Log INFO (ProcessingPage page_num)] ++ evs0
         ++ [Log ERROR (FailedAfterRetries page_num e);
             Log ERROR (ContentWasNone page_num)]).
    rewrite app_nil_r, <- !app_assoc. stop_case.
Qed.

End Loop.

End PaginationFacts.

Import PaginationFacts.

Module MainFacts.

Section Run.

Variable driver : nat -> string -> response.
Variable BeautifulSoup : string -> Soup.node.

(** A whole run, for every browser and every parser of HTML: the scraping,
    and then the closing records and the saving. *)
Lemma main_contract (w : world) :
  exists collected last_page scraping closing,
    pagination_loop driver BeautifulSoup (seq 1 MAX_PAGES_TO_SCRAPE) [] O w
    = (Ok (collected, last_page),
       World (navigations w + navigations_in scraping) (trace w ++ scraping))
    /\ main driver BeautifulSoup w
       = (Ok tt,
          World (navigations w + navigations_in scraping)
            (trace w ++ scraping ++ closing))
    /\ Forall scraping_event scraping
    /\ (1 <= navigations_in scraping <= MAX_PAGES_TO_SCRAPE * RETRY_ATTEMPTS)%nat
    /\ (inter_page_delays scraping <= MAX_PAGES_TO_SCRAPE - 1)%nat
    /\ (1 <= last_page <= MAX_PAGES_TO_SCRAPE)%nat
    /\ closing
       = Log INFO (ScrapingFinished last_page (List.length collected))
         :: match collected with
            | [] => [Log WARNING NoGigsCollected]
            | _ :: _ =>
                [ Log INFO (PreparingToSave (List.length collected));
                  SaveCsv collected; SaveJson collected; Log INFO SavingCompleted ]
            end.
Proof.
  destruct w as [n t].
  destruct (pagination_contract driver BeautifulSoup (seq 1 MAX_PAGES_TO_SCRAPE)
              [] O n t)
    as (collected & last_page & scraping & Hrun & Hsc & Hn & Hd & Hlast & Hpos).
  rewrite app_nil_l in Hrun.
  eexists collected, last_page, scraping, _. split; [exact Hrun|].
  split; [|split; [done|]; split; [|split; [|split; [|reflexivity]]]].
  - unfold main, bind at 1. rewrite Hrun. cbv iota beta.
    unfold bind at 1, log at 1, emit at 1. cbn [navigations trace].
    destruct collected as [|gig gigs]; unfold bind, log, emit;
      cbn [navigations trace]; by rewrite <- !app_assoc.
  - split; [done|]. unfold MAX_PAGES_TO_SCRAPE, RETRY_ATTEMPTS in *.
    simpl in Hn. lia.
  - exact Hd.
  - unfold MAX_PAGES_TO_SCRAPE in *. simpl in Hlast. lia.
Qed.

End Run.

End MainFacts.

Import MainFacts.

(** X12.  Whatever the browser does, one call of [get_page_html] navigates at
    least once and at most [RETRY_ATTEMPTS] times, waits 2 seconds after each
    navigation but the last, and adds to the trace nothing but log records,
    navigations and those waits and the waits for the page.  The only
    exception that leaves it is [RetryError], and only after
    [RETRY_ATTEMPTS] navigations. *)
Theorem get_page_html_effort
    (driver : nat -> string -> response) (keyword : string) (page_number : nat)
    (w : world) :
  exists attempts evs,
    snd (get_page_html driver keyword page_number w)
    = World (navigations w + attempts) (trace w ++ evs)
    /\ (1 <= attempts <= RETRY_ATTEMPTS)%nat
    /\ navigations_in evs = attempts
    /\ backoff_waits evs = replicate (attempts - 1) 2
    /\ Forall fetch_event evs
    /\ (forall e, fst (get_page_html driver keyword page_number w) = Raise e ->
          e = RetryError /\ attempts = RETRY_ATTEMPTS).
Proof.
  destruct w as [n t].
  destruct (get_page_html_contract driver keyword page_number n t)
    as (k & evs & r & Hrun & Hk & Hn & Hb & Hev & _ & Hr).
  exists (S k), evs. rewrite Hrun. cbn [fst snd navigations trace].
  split; [done|]. split; [lia|]. split; [done|].
  split; [by rewrite Nat.sub_1_r|]. split; [done|].
  intros e ->. by destruct Hr as (-> & -> & _).
Qed.

(** X13.  How [get_page_html] ends is decided by the first navigation that
    does not end in a WebDriver or timeout error, among the
    [RETRY_ATTEMPTS] navigations it can make.  If that navigation shows a
    page, the page is returned, or the minimal document in its place when it
    holds a marker phrase, so that what is returned never holds one.  If it
    raises another exception, [None] is returned.  If there is no such
    navigation, [RetryError] is raised. *)
Theorem get_page_html_outcome
    (driver : nat -> string -> response) (keyword : string) (page_number : nat)
    (w : world) :
  exists k,
    (k < RETRY_ATTEMPTS)%nat
    /\ (forall i, (i < k)%nat ->
          transient (driver (navigations w + i)%nat
                       (fiverr_search_url keyword page_number)) = true)
    /\ match fst (get_page_html driver keyword page_number w) with
       | Ok (Some html) =>
           says_no_results html = false
           /\ exists page_source,
                driver (navigations w + k)%nat (fiverr_search_url keyword page_number)
                = PageSource page_source
                /\ html = document_of page_source
       | Ok None =>
           exists e,
             raises (driver (navigations w + k)%nat
                       (fiverr_search_url keyword page_number)) = Some e
             /\ Tenacity.retry_if_transient e = false
       | Raise e =>
           e = RetryError /\ S k = RETRY_ATTEMPTS
           /\ transient (driver (navigations w + k)%nat
                           (fiverr_search_url keyword page_number)) = true
       end.
Proof.
  destruct w as [n t].
  destruct (get_page_html_contract driver keyword page_number n t)
    as (k & evs & r & Hrun & Hk & _ & _ & _ & Hfail & Hr).
  exists k. rewrite Hrun. cbn [fst navigations]. auto.
Qed.

(** X14.  An empty page source ends the pagination like a failed fetch:
    [get_page_html] logs the page as fetched and returns the empty text,
    which the loop takes for no content.  It stops at this page with the
    records collected so far, after this one navigation. *)
Theorem blank_page_stops_pagination
    (driver : nat -> string -> response) (BeautifulSoup : string -> Soup.node)
    (page_number : nat) (rest : list nat) (all_gigs_data : list dict)
    (pages_actually_scraped : nat) (w : world) :
  driver (navigations w) (fiverr_search_url search_keyword page_number)
    = PageSource "" ->
  exists evs,
    pagination_loop driver BeautifulSoup (page_number :: rest) all_gigs_data
      pages_actually_scraped w
    = (Ok (all_gigs_data, page_number), World (S (navigations w)) (trace w ++ evs))
    /\ In (Log INFO (FetchedHtml page_number)) evs
    /\ last evs = Some (Log ERROR (ContentWasNone page_number)).
Proof.
  intros Hpage. destruct w as [n t]. cbn [navigations trace] in *.
  pose proof (attempt_page driver search_keyword page_number n
                (t ++ [Log INFO (ProcessingPage page_number)]) "" Hpage) as Hattempt.
  change (says_no_results "") with false in Hattempt. cbv iota in Hattempt.
  assert (get_page_html driver search_keyword page_number
            (World n (t ++ [Log INFO (ProcessingPage page_number)]))
          = (Ok (Some ""),
             World (S n)
               ((t ++ [Log INFO (ProcessingPage page_number)])
                  ++ [ Log INFO (AttemptingFetch (fiverr_search_url search_keyword page_number));
                       Navigate (fiverr_search_url search_keyword page_number);
                       Log INFO WaitingForLoad; Sleep PageLoadWait;
                       Log INFO (FetchedHtml page_number) ]))) as Hrun.
  { rewrite get_page_html_retrying, retrying_unfold. unfold try_except.
    by rewrite Hattempt. }
  rewrite (pagination_stops_on_blank driver BeautifulSoup _ _ _ _ _ _ _ _ Hrun).
  eexists. rewrite <- !app_assoc. split; [reflexivity|].
  split; [simpl; tauto|reflexivity].
Qed.

Lemma blank_page_stops_pagination_witness :
  exists evs,
    pagination_loop Scenarios.browser_blank Examples.html_parser [1; 2]%nat [] O
      initial_world
    = (Ok ([], 1%nat), World 1 evs)
    /\ In (Log INFO (FetchedHtml 1)) evs
    /\ last evs = Some (Log ERROR (ContentWasNone 1)).
Proof.
  exact (blank_page_stops_pagination Scenarios.browser_blank Examples.html_parser
           1 [2]%nat [] O initial_world eq_refl).
Defined.

(** X15.  Whatever the browser and the pages, a run of [main] ends without
    an exception, after at least one navigation and at most
    [MAX_PAGES_TO_SCRAPE * RETRY_ATTEMPTS], and with at most
    [MAX_PAGES_TO_SCRAPE - 1] delays between pages. *)
Theorem main_effort
    (driver : nat -> string -> response) (BeautifulSoup : string -> Soup.node)
    (w : world) :
  exists evs,
    main driver BeautifulSoup w
    = (Ok tt, World (navigations w + navigations_in evs) (trace w ++ evs))
    /\ (1 <= navigations_in evs <= MAX_PAGES_TO_SCRAPE * RETRY_ATTEMPTS)%nat
    /\ (inter_page_delays evs <= MAX_PAGES_TO_SCRAPE - 1)%nat.
Proof.
  destruct (main_contract driver BeautifulSoup w)
    as (collected & last_page & scraping & closing & _ & Hmain & _ & Hn & Hd & _ & ->).
  exists (scraping ++ Log INFO (ScrapingFinished last_page (List.length collected))
            :: match collected with
               | [] => [Log WARNING NoGigsCollected]
               | _ :: _ =>
                   [ Log INFO (PreparingToSave (List.length collected));
                     SaveCsv collected; SaveJson collected; Log INFO SavingCompleted ]
               end).
  rewrite navigations_in_app, inter_page_delays_app.
  destruct collected; simpl; rewrite !Nat.add_0_r; by rewrite Hmain.
Qed.

(** ** The parser that rejects markup *)

Module GuardedFacts.

(** With a parser that accepts the text, the guarded [parse_gigs] is
    [parse_gigs]. *)
Lemma parse_gigs_accepted (BeautifulSoup : string -> result Soup.node)
    (parser : string -> Soup.node) (html_content : string) (w : world) :
  BeautifulSoup html_content = Ok (parser html_content) ->
  Guarded.parse_gigs BeautifulSoup html_content w = parse_gigs parser html_content w.
Proof.
  intros H. unfold Guarded.parse_gigs, parse_gigs.
  destruct html_content as [|c s]; [done|]. simpl PyStr.falsy. cbv iota.
  unfold bind at 1 2. unfold bind at 3. unfold lift. by rewrite H.
Qed.

(** With a parser that rejects the text, it raises what the parser raises,
    after the record of line 120. *)
Lemma parse_gigs_rejected (BeautifulSoup : string -> result Soup.node)
    (html_content : string) (e : exn) (n : nat) (t : list event) :
  html_content <> "" -> BeautifulSoup html_content = Raise e ->
  Guarded.parse_gigs BeautifulSoup html_content (World n t)
  = (Raise e, World n (t ++ [Log INFO StartingToParse])).
Proof.
  intros Hne H. unfold Guarded.parse_gigs.
  destruct html_content as [|c s]; [done|]. simpl PyStr.falsy. cbv iota.
  unfold bind at 1 2. unfold lift. by rewrite H.
Qed.

Lemma performs_weaken {A} (P Q : event -> Prop) (m : M A) :
  (forall ev, P ev -> Q ev) -> performs P m -> performs Q m.
Proof.
  intros HPQ Hm w. destruct (Hm w) as (evs & Hw & HP).
  exists evs. split; [done|]. eapply Forall_impl; eauto.
Qed.

Lemma yields_anything {A} (m : M A) : yields m (fun _ => True).
Proof. by intros w a w' _. Qed.

Section Guarded.

Variable driver : nat -> string -> response.
Variable BeautifulSoup : string -> result Soup.node.

(** The guarded [parse_gigs] only logs. *)
Lemma parse_gigs_performs (html_content : string) :
  performs is_log (Guarded.parse_gigs BeautifulSoup html_content).
Proof.
  intros [n t]. destruct html_content as [|c s].
  { exists [Log WARNING HtmlContentEmpty]. simpl. rewrite Nat.add_0_r.
    split; [done|by repeat constructor]. }
  destruct (BeautifulSoup (String c s)) as [soup|e] eqn:H.
  - rewrite (parse_gigs_accepted BeautifulSoup (fun _ => soup)) by done.
    destruct (parse_gigs_returns (fun _ => soup) (String c s) (World n t))
      as (evs & -> & Hlog).
    exists evs. destruct (logs_navigate_nowhere evs Hlog) as (-> & _).
    simpl. by rewrite Nat.add_0_r.
  - rewrite (parse_gigs_rejected BeautifulSoup _ e) by done.
    exists [Log INFO StartingToParse]. simpl. rewrite Nat.add_0_r.
    split; [done|by repeat constructor].
Qed.

(** The guarded loop only scrapes. *)
Lemma pagination_loop_performs (pages : list nat) :
  forall (all_gigs_data : list dict) (pages_actually_scraped : nat),
  performs scraping_event
    (Guarded.pagination_loop driver BeautifulSoup pages all_gigs_data
       pages_actually_scraped).
Proof.
  induction pages as [|page_num rest IH]; intros all_gigs_data pages_actually_scraped;
    cbn [Guarded.pagination_loop]; cbv zeta; [apply performs_ret|].
  apply performs_bind; [by apply performs_log|]. intros _.
  apply performs_bind.
  { apply performs_try_except.
    - eapply performs_weaken; [apply fetch_is_scraping|apply get_page_html_performs].
    - intros e. repeat performs_step. }
  assert (forall acc,
            performs scraping_event
              ((if (page_num <? MAX_PAGES_TO_SCRAPE)%nat
                then log INFO WaitingBeforeNextPage ;> emit (Sleep InterPageDelay)
                else ret tt) ;>
               Guarded.pagination_loop driver BeautifulSoup rest acc page_num))
    as Hnext.
  { intros acc. apply performs_bind; [|intros _; apply IH].
    destruct (page_num <? MAX_PAGES_TO_SCRAPE)%nat; repeat performs_step. }
  intros [[|c s]|]; [repeat performs_step| |repeat performs_step].
  apply performs_bind.
  { eapply performs_weaken; [|apply parse_gigs_performs]. by intros [| | | |]. }
  intros [|gig gigs].
  - apply performs_bind; [by apply performs_log|]. intros _.
    destruct (1 <? page_num)%nat; [repeat performs_step|apply Hnext].
  - apply performs_bind; [by apply performs_log|]. intros _. apply Hnext.
Qed.

(** When the guarded loop returns, it ends at one of the pages. *)
Lemma pagination_loop_last_page (pages : list nat) :
  forall (all_gigs_data : list dict) (pages_actually_scraped : nat),
  yields
    (Guarded.pagination_loop driver BeautifulSoup pages all_gigs_data
       pages_actually_scraped)
    (fun r => match pages with
              | [] => snd r = pages_actually_scraped
              | _ :: _ => In (snd r) pages
              end).
Proof.
  induction pages as [|page_num rest IH]; intros all_gigs_data pages_actually_scraped;
    cbn [Guarded.pagination_loop]; cbv zeta; [by apply yields_ret|].
  assert (forall acc,
            yields
              ((if (page_num <? MAX_PAGES_TO_SCRAPE)%nat
                then log INFO WaitingBeforeNextPage ;> emit (Sleep InterPageDelay)
                else ret tt) ;>
               Guarded.pagination_loop driver BeautifulSoup rest acc page_num)
              (fun r => In (snd r) (page_num :: rest))) as Hnext.
  { intros acc. apply yields_seq. eapply yields_weaken; [apply IH|].
    intros r Hr. destruct rest; [left; by subst|by right]. }
  apply yields_seq.
  apply (yields_bind _ _ (fun _ => True)); [apply yields_anything|].
  intros [[|c s]|] _; [apply yields_seq, yields_ret; by left| |
                       apply yields_seq, yields_ret; by left].
  apply (yields_bind _ _ (fun _ => True)); [apply yields_anything|].
  intros [|gig gigs] _; apply yields_seq; [|apply Hnext].
  destruct (1 <? page_num)%nat; [apply yields_seq, yields_ret; by left|apply Hnext].
Qed.

End Guarded.

Lemma bind_ext {A B} (m1 m2 : M A) (k1 k2 : A -> M B) (w : world) :
  m1 w = m2 w -> (forall a w', k1 a w' = k2 a w') ->
  bind m1 k1 w = bind m2 k2 w.
Proof.
  intros Hm Hk. unfold bind. rewrite Hm. destruct (m2 w) as [[a|e] w']; auto.
Qed.

Section Accepting.

Variable driver : nat -> string -> response.
Variable BeautifulSoup : string -> result Soup.node.
Variable parser : string -> Soup.node.
Hypothesis accepts : forall html, BeautifulSoup html = Ok (parser html).

(** With a parser that accepts every text, the guarded loop is the loop. *)
Lemma pagination_loop_accepting (pages : list nat) :
  forall (all_gigs_data : list dict) (pages_actually_scraped : nat) (w : world),
  Guarded.pagination_loop driver BeautifulSoup pages all_gigs_data
    pages_actually_scraped w
  = pagination_loop driver parser pages all_gigs_data pages_actually_scraped w.
Proof.
  induction pages as [|page_num rest IH]; intros all_gigs_data pages_actually_scraped w;
    [reflexivity|].
  cbn [Guarded.pagination_loop pagination_loop]. cbv zeta.
  apply bind_ext; [done|]. intros _ w1.
  apply bind_ext; [done|]. intros [[|c s]|] w2; [done| |done].
  apply bind_ext; [by apply parse_gigs_accepted|]. intros [|gig gigs] w3.
  - apply bind_ext; [done|]. intros _ w4.
    destruct (1 <? page_num)%nat; [done|]. apply bind_ext; [done|]. intros _ w5.
    apply IH.
  - apply bind_ext; [done|]. intros _ w4. apply bind_ext; [done|]. intros _ w5.
    apply IH.
Qed.

(** And the guarded [main] is [main]: its handlers are not reached. *)
Lemma main_accepting (w : world) :
  Guarded.main driver BeautifulSoup w = main driver parser w.
Proof.
  destruct (main_contract driver parser w)
    as (collected & last_page & scraping & closing & _ & Hmain & _).
  unfold Guarded.main, try_except.
  assert (forall k : list dict * nat -> M unit,
            bind (Guarded.pagination_loop driver BeautifulSoup
                    (seq 1 MAX_PAGES_TO_SCRAPE) [] O) k w
            = bind (pagination_loop driver parser (seq 1 MAX_PAGES_TO_SCRAPE) [] O) k w)
    as Hbody.
  { intros k. apply bind_ext; [apply pagination_loop_accepting|done]. }
  rewrite Hbody. fold (main driver parser). by rewrite Hmain.
Qed.

End Accepting.

End GuardedFacts.

Import GuardedFacts.

(** X11.  When [BeautifulSoup] accepts the text, [parse_gigs] returns and has
    logged one error record for each placeholder it returns and for nothing
    else: the error records name, in order, the positions of the placeholders
    among the records, counted from 1, each with the number of cards of the
    page.  [parse_gigs] raises only when [BeautifulSoup] rejects the text: it
    then raises the exception of [BeautifulSoup], after the record of line
    120 and no other.  Either way it navigates nowhere. *)
Theorem placeholders_are_reported
    (BeautifulSoup : string -> result Soup.node) (html_content : string) (w : world) :
  exists evs,
    snd (Guarded.parse_gigs BeautifulSoup html_content w)
    = World (navigations w) (trace w ++ evs)
    /\ match fst (Guarded.parse_gigs BeautifulSoup html_content w) with
       | Ok gigs =>
           (html_content = "" \/ exists soup, BeautifulSoup html_content = Ok soup)
           /\ error_cards evs
              = map (fun position => (position, List.length gigs)) (placeholders O gigs)
       | Raise e =>
           html_content <> "" /\ BeautifulSoup html_content = Raise e
           /\ evs = [Log INFO StartingToParse]
       end.
Proof.
  destruct html_content as [|c s].
  { exists [Log WARNING HtmlContentEmpty]. simpl. split; [done|]. split; [by left|done]. }
  destruct (BeautifulSoup (String c s)) as [soup|e] eqn:H.
  - rewrite (parse_gigs_accepted BeautifulSoup (fun _ => soup)) by done.
    destruct (parse_gigs_reports (fun _ => soup) (String c s) w)
      as (gigs & evs & -> & Herr).
    exists evs. simpl. split; [done|]. split; [right; by exists soup|done].
  - destruct w as [n t]. rewrite (parse_gigs_rejected BeautifulSoup _ e) by done.
    by exists [Log INFO StartingToParse].
Qed.

(** X16.  [main] saves nothing while it scrapes.  When the loop over the pages
    ends without an exception, it ends at a page between 1 and
    [MAX_PAGES_TO_SCRAPE], and [main] then saves what the loop has collected:
    nothing when that is nothing, and otherwise the same records first as CSV
    and then as JSON.  When [parse_gigs] raises in the loop, because
    [BeautifulSoup] rejects a page, the handler logs a critical record and
    nothing is saved, whatever the pages before have given.  Either way
    [main] ends without an exception and does not navigate after the loop. *)
Theorem main_saves_what_was_collected
    (driver : nat -> string -> response)
    (BeautifulSoup : string -> result Soup.node) (w : world) :
  exists scraping closing,
    snd (Guarded.pagination_loop driver BeautifulSoup (seq 1 MAX_PAGES_TO_SCRAPE) [] O w)
    = World (navigations w + navigations_in scraping) (trace w ++ scraping)
    /\ Guarded.main driver BeautifulSoup w
       = (Ok tt,
          World (navigations w + navigations_in scraping)
            (trace w ++ scraping ++ closing))
    /\ saves scraping = []
    /\ match fst (Guarded.pagination_loop driver BeautifulSoup
                    (seq 1 MAX_PAGES_TO_SCRAPE) [] O w) with
       | Ok (all_gigs_data, pages_actually_scraped) =>
           (1 <= pages_actually_scraped <= MAX_PAGES_TO_SCRAPE)%nat
           /\ saves closing
              = match all_gigs_data with
                | [] => []
                | _ :: _ => [SaveCsv all_gigs_data; SaveJson all_gigs_data]
                end
       | Raise e =>
           closing
           = [Log CRITICAL
                (match e with
                 | WebDriverException | TimeoutException => CriticalWebDriverError e
                 | _ => CriticalUnexpectedError e
                 end)]
       end.
Proof.
  destruct (pagination_loop_performs driver BeautifulSoup (seq 1 MAX_PAGES_TO_SCRAPE)
              [] O w) as (scraping & Hw & Hsc).
  pose proof (pagination_loop_last_page driver BeautifulSoup
                (seq 1 MAX_PAGES_TO_SCRAPE) [] O w) as Hlast.
  exists scraping. unfold Guarded.main, try_except, bind at 1.
  destruct (Guarded.pagination_loop driver BeautifulSoup (seq 1 MAX_PAGES_TO_SCRAPE)
              [] O w) as [[[collected last_page]|e] w1]; cbn [fst snd] in *; subst w1.
  - specialize (Hlast _ _ eq_refl). cbn [snd] in Hlast.
    exists (Log INFO (ScrapingFinished last_page (List.length collected))
              :: match collected with
                 | [] => [Log WARNING NoGigsCollected]
                 | _ :: _ =>
                     [ Log INFO (PreparingToSave (List.length collected));
                       SaveCsv collected; SaveJson collected;
                       Log INFO SavingCompleted ]
                 end).
    split; [done|]. split; [|split; [by apply scraping_saves_nothing|]].
    + unfold bind at 1, log at 1, emit at 1. cbn [navigations trace].
      destruct collected as [|gig gigs]; unfold bind, log, emit;
        cbn [navigations trace]; rewrite <- !app_assoc; reflexivity.
    + split; [unfold MAX_PAGES_TO_SCRAPE in *; simpl in Hlast; lia|].
      by destruct collected.
  - exists [Log CRITICAL
              (match e with
               | WebDriverException | TimeoutException => CriticalWebDriverError e
               | _ => CriticalUnexpectedError e
               end)].
    split; [done|]. split; [|split; [by apply scraping_saves_nothing|done]].
    destruct e; unfold log, emit; cbn [navigations trace];
      by rewrite <- app_assoc.
Qed.

(** A page that the parser rejects loses the records of the page before it:
    the first page gives a record, the second is rejected, and nothing is
    saved. *)
Example rejected_page_discards_the_records :
  fst (Guarded.pagination_loop Scenarios.browser_two_pages Scenarios.strict_parser
         (seq 1 MAX_PAGES_TO_SCRAPE) [] O initial_world)
  = Raise OtherException
  /\ In (Log INFO (ExtractedGigs 1 1))
       (trace (snd (Guarded.main Scenarios.browser_two_pages Scenarios.strict_parser
                      initial_world)))
  /\ saves (trace (snd (Guarded.main Scenarios.browser_two_pages
                          Scenarios.strict_parser initial_world))) = []
  /\ last (trace (snd (Guarded.main Scenarios.browser_two_pages
                         Scenarios.strict_parser initial_world)))
     = Some (Log CRITICAL (CriticalUnexpectedError OtherException)).
Proof. split; [|split; [|split]]; vm_compute; tauto. Qed.

(** X17.  When the first navigation shows a page that is not empty and the
    second navigation shows a page, the loop over the pages collects the
    records of the first page followed by those of the second, each list in
    the order of [parse_gigs], after exactly two navigations; a page with a
    marker phrase counts as the minimal document. *)
Theorem pages_are_collected_in_order
    (driver : nat -> string -> response) (BeautifulSoup : string -> Soup.node)
    (w : world) (first_page second_page : string) :
  driver (navigations w) (fiverr_search_url search_keyword 1) = PageSource first_page ->
  first_page <> "" ->
  driver (S (navigations w)) (fiverr_search_url search_keyword 2)
    = PageSource second_page ->
  exists w',
    pagination_loop driver BeautifulSoup (seq 1 MAX_PAGES_TO_SCRAPE) [] O w
    = (Ok (records_of BeautifulSoup (document_of first_page)
             ++ records_of BeautifulSoup (document_of second_page),
           2%nat),
       w')
    /\ navigations w' = (navigations w + 2)%nat.
Proof.
  intros H1 Hne H2. destruct w as [n t]. cbn [navigations] in *.
  assert (forall page_number n0 t0 page_source,
            driver n0 (fiverr_search_url search_keyword page_number)
              = PageSource page_source ->
            exists evs,
              get_page_html driver search_keyword page_number (World n0 t0)
              = (Ok (Some (document_of page_source)), World (S n0) (t0 ++ evs)))
    as Hfetch.
  { intros page_number n0 t0 page_source Hpage.
    rewrite get_page_html_retrying, retrying_unfold. unfold try_except.
    rewrite (attempt_page driver search_keyword page_number n0 t0 page_source Hpage).
    by eexists. }
  assert (document_of first_page <> "") as Hne1.
  { unfold document_of. by destruct (says_no_results first_page). }
  change (seq 1 MAX_PAGES_TO_SCRAPE) with [1; 2]%nat.
  destruct (Hfetch 1%nat n (t ++ [Log INFO (ProcessingPage 1)]) first_page H1)
    as (evs1 & Hrun1).
  destruct (pagination_parses_page driver BeautifulSoup 1 [2]%nat [] O _ _ _ _ _
              Hrun1 Hne1) as (logs1 & _ & ->).
  set (records1 := records_of BeautifulSoup (document_of first_page)).
  assert (forall acc t0,
            exists w',
              next_page driver BeautifulSoup 1 [2]%nat acc (World (S n) t0)
              = (Ok (acc ++ records_of BeautifulSoup (document_of second_page), 2%nat),
                 w')
              /\ navigations w' = (n + 2)%nat) as Hnext.
  { intros acc t0. unfold next_page.
    change (1 <? MAX_PAGES_TO_SCRAPE)%nat with true. cbv iota.
    unfold bind at 1 2, log, emit. cbn [navigations trace].
    destruct (Hfetch 2%nat (S n)
                (((t0 ++ [Log INFO WaitingBeforeNextPage]) ++ [Sleep InterPageDelay])
                   ++ [Log INFO (ProcessingPage 2)]) second_page H2)
      as (evs2 & Hrun2).
    destruct (document_of second_page) as [|c s] eqn:Hdoc.
    - rewrite (pagination_stops_on_blank driver BeautifulSoup _ _ _ _ _ _ _ _ Hrun2).
      eexists. rewrite app_nil_r. split; [reflexivity|simpl; lia].
    - destruct (pagination_parses_page driver BeautifulSoup 2 [] acc 1 _ _ _ _ _
                  Hrun2 ltac:(done)) as (logs2 & _ & ->).
      destruct (records_of BeautifulSoup (String c s)) as [|gig gigs].
      + change (1 <? 2)%nat with true. cbv iota.
        eexists. rewrite app_nil_r. split; [reflexivity|simpl; lia].
      + unfold next_page. change (2 <? MAX_PAGES_TO_SCRAPE)%nat with false.
        cbv iota. unfold bind, ret. cbn [pagination_loop].
        eexists. split; [reflexivity|simpl; lia]. }
  destruct records1 as [|gig gigs] eqn:Hrec.
  - change (1 <? 1)%nat with false. cbv iota.
    destruct (Hnext [] (((t ++ [Log INFO (ProcessingPage 1)]) ++ evs1) ++ logs1))
      as (w' & -> & Hn).
    by exists w'.
  - destruct (Hnext ([] ++ gig :: gigs)
                (((t ++ [Log INFO (ProcessingPage 1)]) ++ evs1) ++ logs1))
      as (w' & -> & Hn).
    by exists w'.
Qed.

Lemma pages_are_collected_in_order_witness :
  exists w',
    pagination_loop Scenarios.browser_two_pages Examples.html_parser
      (seq 1 MAX_PAGES_TO_SCRAPE) [] O initial_world
    = (Ok ([ record_of (Examples.page [Examples.counted_card]) [0; 0; 0]%nat;
             record_of (Examples.page [Examples.rated_card]) [0; 0; 0]%nat ],
           2%nat),
       w')
    /\ navigations w' = 2%nat.
Proof.
  exact (pages_are_collected_in_order Scenarios.browser_two_pages Examples.html_parser
           initial_world Examples.counted_html Examples.rated_html
           eq_refl ltac:(discriminate) eq_refl).
Defined.

(** ** Addresses, file names and columns *)

Module OutputFacts.
Import Output.

Lemma sanitized_char (c : ascii) :
  let c' := lower_char (if Ascii.eqb c " " then "_"%char else c) in
  negb (Ascii.eqb c' " ") && negb (in_range 65 90 c') = true
  /\ lower_char (if Ascii.eqb c' " " then "_"%char else c') = c'.
Proof. destruct c as [[] [] [] [] [] [] [] []]; vm_compute; done. Qed.

Lemma app_cancel (s x y : string) : s +:+ x = s +:+ y -> x = y.
Proof. induction s as [|c s IH]; simpl; [done|]. intros [= H]. auto. Qed.

Lemma app_empty (s x : string) : s = s +:+ x -> x = "".
Proof.
  induction s as [|c s IH]; simpl; [done|]. intros [= H]. auto.
Qed.

Lemma str_of_nat_inj (p q : nat) :
  str_of_int (Z.of_nat p) = str_of_int (Z.of_nat q) -> p = q.
Proof.
  intros H. apply (f_equal digits_value) in H.
  rewrite !digits_value_str_of_int in H by lia. injection H. lia.
Qed.

(** The columns of records as [parse_gigs] returns them. *)
Lemma in_columns_parsed (data : list dict) (col : string) :
  Forall (fun gig => gig = error_record \/ dom gig = dom initial_gig_info) data ->
  In col column_order ->
  in_columns data col
  = if String.eqb col "seller_country"
    then existsb (fun gig => negb (bool_decide (gig = error_record))) data
    else negb (match data with [] => true | _ => false end).
Proof.
  intros Hdata Hcol. unfold in_columns.
  assert (forall gig, gig = error_record \/ dom gig = dom initial_gig_info ->
            bool_decide (is_Some (gig !! col))
            = if String.eqb col "seller_country"
              then negb (bool_decide (gig = error_record)) else true) as Hgig.
  { intros gig [->|Hdom].
    - rewrite (bool_decide_eq_true_2 (error_record = error_record)) by done.
      simpl in Hcol. repeat destruct Hcol as [<-|Hcol]; done.
    - rewrite (bool_decide_eq_false_2 (gig = error_record)).
      2: { intros ->. assert ("seller_country" ∈ dom error_record) as Hin.
           { rewrite Hdom. apply elem_of_dom. by eexists. }
           apply elem_of_dom in Hin as [v Hv]. vm_compute in Hv. done. }
      assert (is_Some (gig !! col)) as Hsome.
      { apply elem_of_dom. rewrite Hdom. apply elem_of_dom.
        simpl in Hcol. repeat destruct Hcol as [<-|Hcol]; [..|done]; by eexists. }
      rewrite bool_decide_eq_true_2 by done. by destruct (String.eqb _ _). }
  induction Hdata as [|gig data Hg _ IH]; [by destruct (String.eqb _ _)|].
  cbn [existsb]. rewrite IH, (Hgig gig Hg).
  destruct (String.eqb col "seller_country"); [done|]. by destruct data.
Qed.

End OutputFacts.

Import OutputFacts.

(** X18.  For one keyword, page 1, and only page 1, has the address without a
    page parameter; every other page has that address followed by "&page="
    and by the page number in decimal; and so different page numbers give
    different addresses. *)
Theorem search_pages_have_their_own_address (keyword : string) :
  (forall p,
     fiverr_search_url keyword p = "https://www.fiverr.com/search/gigs?query=" +:+ keyword
     <-> p = 1%nat)
  /\ (forall p, p <> 1%nat ->
        exists digits,
          fiverr_search_url keyword p
          = "https://www.fiverr.com/search/gigs?query=" +:+ keyword
            +:+ "&page=" +:+ digits
          /\ forallb is_digit digits = true
          /\ value_from 0 digits = Z.of_nat p)
  /\ (forall p q, p <> q -> fiverr_search_url keyword p <> fiverr_search_url keyword q).
Proof.
  split; [|split].
  - intros p. unfold fiverr_search_url.
    destruct (Nat.eqb_spec p 1) as [->|Hp]; [done|]. split; [|done].
    intros H. apply app_cancel in H. symmetry in H. by apply app_empty in H.
  - intros p Hp. exists (str_of_int (Z.of_nat p)). unfold fiverr_search_url.
    destruct (Nat.eqb_spec p 1) as [->|_]; [done|]. split; [done|].
    split; [apply str_of_int_digits|].
    pose proof (digits_value_str_of_int (Z.of_nat p) ltac:(lia)) as Hv.
    rewrite digits_value_spec in Hv by apply str_of_int_digits. by injection Hv.
  - intros p q Hpq. unfold fiverr_search_url.
    destruct (Nat.eqb_spec p 1) as [->|Hp], (Nat.eqb_spec q 1) as [->|Hq]; [done|..];
      intros H; apply app_cancel in H.
    + by apply app_empty in H.
    + symmetry in H. by apply app_empty in H.
    + by do 2 apply app_cancel in H; apply str_of_nat_inj in H.
Qed.

Lemma search_pages_have_their_own_address_witness :
  fiverr_search_url search_keyword 1 <> fiverr_search_url search_keyword 2.
Proof.
  apply (proj2 (proj2 (search_pages_have_their_own_address search_keyword)) 1 2)%nat.
  lia.
Defined.

(** X19.  The keyword as it goes into the name of a saved file holds no space
    and no capital letter A to Z, and sanitizing it again changes nothing. *)
Theorem sanitized_keyword_is_plain (keyword : string) :
  forallb (fun c => negb (Ascii.eqb c " ") && negb (in_range 65 90 c))
    (Output.sanitized_keyword keyword) = true
  /\ Output.sanitized_keyword (Output.sanitized_keyword keyword)
     = Output.sanitized_keyword keyword.
Proof.
  unfold Output.sanitized_keyword.
  induction keyword as [|c s (IH1 & IH2)]; [done|].
  destruct (sanitized_char c) as [Hc1 Hc2].
  cbn [Output.replace_char lower forallb] in *.
  by rewrite Hc1, IH1, Hc2, IH2.
Qed.

(** X20.  The CSV file of records as [parse_gigs] returns them has a column
    for every field of every record, in the order of [column_order]: all
    eight columns as soon as one record is not the placeholder, and the seven
    columns of the placeholder, without seller_country, when every record is
    the placeholder. *)
Theorem csv_columns_cover_the_records
    (BeautifulSoup : string -> Soup.node) (html_content : string) (w : world) :
  exists gigs w',
    parse_gigs BeautifulSoup html_content w = (Ok gigs, w')
    /\ Forall (fun gig => forall k, is_Some (gig !! k) -> In k (Output.df_columns gigs))
         gigs
    /\ (~ Forall (fun gig => gig = error_record) gigs ->
        Output.df_columns gigs = Output.column_order)
    /\ (Forall (fun gig => gig = error_record) gigs -> gigs <> [] ->
        Output.df_columns gigs
        = [ "title"; "seller_name"; "seller_level"; "price"; "rating";
            "num_reviews"; "gig_url" ]).
Proof.
  destruct (parse_gigs_records (fun d => dom d = dom initial_gig_info)
              BeautifulSoup html_content w filled_dom)
    as (gigs & w' & Hrun & Hall).
  exists gigs, w'. split; [done|].
  assert (forall col, In col Output.column_order ->
            Output.in_columns gigs col
            = if String.eqb col "seller_country"
              then existsb (fun gig => negb (bool_decide (gig = error_record))) gigs
              else negb (match gigs with [] => true | _ => false end)) as Hcols
    by (intros col; by apply in_columns_parsed).
  assert (Output.df_columns gigs
          = match gigs with
            | [] => []
            | _ :: _ =>
                if existsb (fun gig => negb (bool_decide (gig = error_record))) gigs
                then Output.column_order
                else [ "title"; "seller_name"; "seller_level"; "price"; "rating";
                       "num_reviews"; "gig_url" ]
            end) as Hdf.
  { unfold Output.df_columns, Output.column_order in *. cbn [List.filter].
    rewrite !Hcols by (simpl; tauto). simpl String.eqb. cbv iota.
    destruct gigs as [|gig gigs]; [done|]. simpl negb. cbv iota.
    by destruct (existsb _ (gig :: gigs)). }
  assert (existsb (fun gig => negb (bool_decide (gig = error_record))) gigs = true
          <-> ~ Forall (fun gig => gig = error_record) gigs) as Hex.
  { rewrite existsb_exists, Forall_forall. split.
    - intros (gig & Hin & Hneg) Hforall. apply negb_true_iff in Hneg.
      apply bool_decide_eq_false in Hneg. apply Hneg, Hforall.
      by apply list_elem_of_In.
    - intros Hnot. destruct (existsb (fun gig => negb (bool_decide (gig = error_record)))
                               gigs) eqn:E.
      + by apply existsb_exists in E.
      + exfalso. apply Hnot. intros gig Hin%list_elem_of_In.
        destruct (decide (gig = error_record)) as [|Hne]; [done|].
        assert (existsb (fun gig => negb (bool_decide (gig = error_record))) gigs
                = true); [|congruence].
        apply existsb_exists. exists gig. split; [done|].
        by rewrite bool_decide_eq_false_2. }
  split; [|split].
  - apply Forall_forall. intros gig Hin k Hk. rewrite Hdf.
    destruct gigs as [|g0 gigs0]; [by apply elem_of_nil in Hin|].
    rewrite Forall_forall in Hall. destruct (Hall gig Hin) as [->|Hdom].
    + assert (In k [ "title"; "seller_name"; "seller_level"; "price"; "rating";
                     "num_reviews"; "gig_url" ]) as Hseven.
      { apply elem_of_dom in Hk. unfold error_record in Hk.
        rewrite dom_list_to_map_L, elem_of_list_to_set in Hk.
        apply list_elem_of_In in Hk. simpl in *. tauto. }
      destruct (existsb _ (g0 :: gigs0)); [|done].
      unfold Output.column_order. simpl in *. tauto.
    + assert (existsb (fun gig => negb (bool_decide (gig = error_record)))
                (g0 :: gigs0) = true) as ->.
      { apply existsb_exists. exists gig. split; [by apply list_elem_of_In|].
        rewrite bool_decide_eq_false_2; [done|]. intros ->.
        assert ("seller_country" ∈ dom error_record) as Hc.
        { rewrite Hdom. apply elem_of_dom. by eexists. }
        apply elem_of_dom in Hc as [v Hv]. vm_compute in Hv. done. }
      apply elem_of_dom in Hk. rewrite Hdom in Hk. unfold initial_gig_info in Hk.
      rewrite dom_list_to_map_L, elem_of_list_to_set in Hk.
      apply list_elem_of_In in Hk. unfold Output.column_order. simpl in *. tauto.
  - intros Hnot. apply Hex in Hnot. rewrite Hdf, Hnot.
    destruct gigs; [done|reflexivity].
  - intros Hforall Hne. rewrite Hdf. destruct gigs as [|g0 gigs0]; [done|].
    destruct (existsb _ (g0 :: gigs0)) eqn:E; [|done].
    by destruct (proj1 Hex eq_refl).
Qed.
